(** * spawnexec: a shallow embedding of the command lifecycle engine

    The development follows the Go sources of the package:
    - [lookpath.go]   : [LookPath], [findExecutable]
    - [exec.go]       : [Command], [Cmd.Run], [Cmd.Output], [prefixSuffixSaver]
    - [spawn_darwin.go], [spawn_other.go] : [Cmd.Start], [Cmd.Wait]
    - [process.go]    : [Process], [ProcessState]
    - [errors.go]     : [Error], [ExitError], [isExecutable]

    Go values are modelled as follows: [int] and [int64] as [Z], byte slices
    as [list byte], strings as [string], a nilable [error] as [option error],
    a pointer that may be nil as [option].  Code that can panic or loop
    returns an [outcome]. *)

From Stdlib Require Import ZArith List Bool Lia.
From Stdlib.Strings Require Import String Ascii Byte.
From Stdlib Require Import DecimalString.
Import ListNotations.
Local Open Scope Z_scope.

(* ================================================================== *)
(** * Outcomes of Go code that may panic or fail to terminate          *)
(* ================================================================== *)

Inductive outcome (A : Type) : Type :=
| Ret (a : A)      (* normal return *)
| Panic            (* run-time panic (slice bounds, index out of range) *)
| Diverge.         (* the loop budget of the model was exhausted *)

Arguments Ret {A} a.
Arguments Panic {A}.
Arguments Diverge {A}.

Definition bind {A B : Type} (m : outcome A) (k : A -> outcome B) : outcome B :=
  match m with
  | Ret a => k a
  | Panic => Panic
  | Diverge => Diverge
  end.

Notation "x <- m ;; k" := (bind m (fun x => k))
  (at level 61, m at next level, right associativity).
Notation "' pat <- m ;; k" := (bind m (fun x => match x with pat => k end))
  (at level 61, pat pattern, m at next level, right associativity).

(* ================================================================== *)
(** * Go slices                                                        *)
(* ================================================================== *)

Definition len {A : Type} (s : list A) : Z := Z.of_nat (List.length s).

(** [s[lo:]] : panics unless [0 <= lo <= len(s)]. *)
Definition slice_from {A : Type} (s : list A) (lo : Z) : outcome (list A) :=
  if (lo <? 0) || (len s <? lo) then Panic else Ret (skipn (Z.to_nat lo) s).

(** [s[:hi]] : panics unless [0 <= hi <= len(s)] (the capacity is not
    tracked; no caller slices past the length). *)
Definition slice_to {A : Type} (s : list A) (hi : Z) : outcome (list A) :=
  if (hi <? 0) || (len s <? hi) then Panic else Ret (firstn (Z.to_nat hi) s).

(** [n := copy(buf[off:], src)] seen from [buf]: the first
    [n = min(len(buf)-off, len(src))] bytes of [src] overwrite
    [buf[off : off+n]]. *)
Definition copy_at {A : Type} (buf : list A) (off : Z) (src : list A)
  : outcome (list A * Z) :=
  dst <- slice_from buf off ;;
  let n := Z.min (len dst) (len src) in
  Ret (firstn (Z.to_nat off) buf ++ firstn (Z.to_nat n) src
         ++ skipn (Z.to_nat n) dst, n).

(** Conversion [byte(i)] of an integer: truncation to eight bits. *)
Definition byte_of_Z (i : Z) : byte :=
  match Byte.of_N (Z.to_N (i mod 256)) with
  | Some b => b
  | None => x00
  end.

Definition bytes_of_string (s : string) : list byte := list_byte_of_string s.

(** Two's complement wrap-around of [int64] arithmetic. *)
Definition wrap64 (z : Z) : Z := (z + 2 ^ 63) mod 2 ^ 64 - 2 ^ 63.

(* ================================================================== *)
(** * exec.go: prefixSuffixSaver                                       *)
(* ================================================================== *)

Module Saver.

(** [type prefixSuffixSaver struct].  A nil slice and an empty slice are
    both the empty list: [fill] is the only writer of [prefix] and
    [suffix], and [append] of no bytes to a nil slice leaves it nil, so in
    every state built by [Write] the slice is nil exactly when it is
    empty. *)
Record prefixSuffixSaver : Type := mk {
  N : Z;                 (* max bytes of prefix and suffix *)
  prefix : list byte;
  suffix : list byte;    (* ring buffer once full *)
  suffixOff : Z;         (* offset to write into suffix *)
  skipped : Z
}.

(** [&prefixSuffixSaver{N: n}] *)
Definition new (n : Z) : prefixSuffixSaver := mk n [] [] 0 0.

Definition set_prefix (w : prefixSuffixSaver) (v : list byte) :=
  mk (N w) v (suffix w) (suffixOff w) (skipped w).
Definition set_suffix (w : prefixSuffixSaver) (v : list byte) :=
  mk (N w) (prefix w) v (suffixOff w) (skipped w).
Definition set_suffixOff (w : prefixSuffixSaver) (v : Z) :=
  mk (N w) (prefix w) (suffix w) v (skipped w).
Definition set_skipped (w : prefixSuffixSaver) (v : Z) :=
  mk (N w) (prefix w) (suffix w) (suffixOff w) v.

(** [func (w *prefixSuffixSaver) fill(dst *[]byte, p []byte)]: returns the
    new contents of [*dst] and the remaining input. *)
Definition fill (w : prefixSuffixSaver) (dst p : list byte)
  : outcome (list byte * list byte) :=
  let remain := N w - len dst in
  if remain >? 0 then
    let add := Z.min (len p) remain in
    hd <- slice_to p add ;;
    tl <- slice_from p add ;;
    Ret (dst ++ hd, tl)
  else Ret (dst, p).

(** The loop [for len(p) > 0 { ... }] of [Write]; [fuel] bounds the number
    of iterations the model follows. *)
Fixpoint Write_loop (fuel : nat) (w : prefixSuffixSaver) (p : list byte)
  : outcome prefixSuffixSaver :=
  if len p >? 0 then
    match fuel with
    | O => Diverge
    | S fuel' =>
        '(suf, n) <- copy_at (suffix w) (suffixOff w) p ;;
        p' <- slice_from p n ;;
        let w1 := set_suffix w suf in
        let w2 := set_suffixOff w1 (suffixOff w1 + n) in
        let w3 := if suffixOff w2 =? N w2 then set_suffixOff w2 0 else w2 in
        Write_loop fuel' w3 p'
    end
  else Ret w.

(** [func (w *prefixSuffixSaver) Write(p []byte) (n int, err error)]:
    the new state of [w], the count [n] and the error ([None] is nil). *)
Definition Write (fuel : nat) (w : prefixSuffixSaver) (p : list byte)
  : outcome (prefixSuffixSaver * (Z * option string)) :=
  let lenp := len p in
  '(pre, p1) <- fill w (prefix w) p ;;
  let w1 := set_prefix w pre in
  let overage := len p1 - N w1 in
  '(w2, p2) <- (if overage >? 0 then
                  q <- slice_from p1 overage ;;
                  Ret (set_skipped w1 (wrap64 (skipped w1 + overage)), q)
                else Ret (w1, p1)) ;;
  '(suf, p3) <- fill w2 (suffix w2) p2 ;;
  let w3 := set_suffix w2 suf in
  w4 <- Write_loop fuel w3 p3 ;;
  Ret (w4, (lenp, None)).

(** [func itoa(i int) string], with its 20-byte array [b] and the index
    [bp] counting down from 20. *)
Fixpoint itoa_loop (bp : nat) (i : Z) (acc : list byte) : outcome (list byte) :=
  if i >? 0 then
    match bp with
    | O => Panic
    | S bp' => itoa_loop bp' (Z.quot i 10)
                 (byte_of_Z (48 + Z.rem i 10) :: acc)
    end
  else Ret acc.

Definition itoa (i : Z) : outcome (list byte) := itoa_loop 20 i [].

Definition nl : string := String (ascii_of_nat 10) EmptyString.

(** The text written between prefix and suffix. *)
Definition omitting (digits : list byte) : list byte :=
  bytes_of_string (nl ++ "... omitting ")%string ++ digits
    ++ bytes_of_string (" bytes ..." ++ nl)%string.

(** [func (w *prefixSuffixSaver) Bytes() []byte] *)
Definition Bytes (w : prefixSuffixSaver) : outcome (list byte) :=
  match suffix w with
  | [] => Ret (prefix w)
  | _ :: _ =>
      if skipped w =? 0 then Ret (prefix w ++ suffix w)
      else
        digits <- itoa (skipped w) ;;
        older <- slice_from (suffix w) (suffixOff w) ;;
        newer <- slice_to (suffix w) (suffixOff w) ;;
        Ret (prefix w ++ omitting digits ++ older ++ newer)
  end.

(** A sequence of [Write] calls on one saver. *)
Fixpoint Writes (fuel : nat) (w : prefixSuffixSaver) (ps : list (list byte))
  : outcome prefixSuffixSaver :=
  match ps with
  | [] => Ret w
  | p :: ps' => '(w', _) <- Write fuel w p ;; Writes fuel w' ps'
  end.

End Saver.

(* ================================================================== *)
(** * Raw wait statuses                                                *)
(* ================================================================== *)

(** [unix.WaitStatus] of golang.org/x/sys/unix as built for darwin
    (the package is a dependency of the repository; its decoding of the
    32-bit status word is reproduced here). *)
Module WaitStatus.

Definition mask : Z := 0x7F.
Definition core : Z := 0x80.
Definition shift : Z := 8.
Definition exited : Z := 0.
Definition stopped : Z := 0x7F.
Definition SIGSTOP : Z := 0x11.
Definition SIGKILL : Z := 0x9.

Definition Exited (w : Z) : bool := Z.land w mask =? exited.

Definition ExitStatus (w : Z) : Z :=
  if negb (Z.land w mask =? exited) then -1 else Z.shiftr w shift.

Definition Signaled (w : Z) : bool :=
  negb (Z.land w mask =? stopped) && negb (Z.land w mask =? 0).

Definition Signal (w : Z) : Z :=
  let sig := Z.land w mask in
  if (sig =? stopped) || (sig =? 0) then -1 else sig.

Definition CoreDump (w : Z) : bool :=
  Signaled w && negb (Z.land w core =? 0).

Definition Stopped (w : Z) : bool :=
  (Z.land w mask =? stopped) && negb (Z.shiftr w shift =? SIGSTOP).

Definition Continued (w : Z) : bool :=
  (Z.land w mask =? stopped) && (Z.shiftr w shift =? SIGSTOP).

Definition StopSignal (w : Z) : Z :=
  if negb (Stopped w) then -1 else Z.land (Z.shiftr w shift) 0xFF.

(** The status word of a process that called [exit(code)]. *)
Definition of_exit (code : Z) : Z := Z.shiftl (Z.land code 0xFF) shift.

(** The status word of a process killed by signal [sig]. *)
Definition of_signal (sig : Z) (dumped : bool) : Z :=
  Z.lor (Z.land sig mask) (if dumped then core else 0).

End WaitStatus.

(* ================================================================== *)
(** * process.go, errors.go: values                                    *)
(* ================================================================== *)

Record Timeval : Type := { Sec : Z; Usec : Z }.

(** [unix.Rusage]: the two CPU times and the fourteen counters. *)
Record Rusage : Type := { Utime : Timeval; Stime : Timeval; counters : list Z }.

(** [fmt.Sprintf("%d", n)] *)
Definition decimal (n : Z) : string := NilZero.string_of_int (Z.to_int n).

Module ProcessState.

(** [type ProcessState struct] *)
Record t : Type := mk {
  pid : Z;                    (* The process's id. *)
  status : Z;                 (* The status returned by wait syscall *)
  rusage : option Rusage      (* Resource usage info *)
}.

(** [func (p *ProcessState) Pid() int] *)
Definition Pid (p : t) : Z := pid p.

(** [func (p *ProcessState) Exited() bool] *)
Definition Exited (p : t) : bool := WaitStatus.Exited (status p).

(** [func (p *ProcessState) Success() bool] *)
Definition Success (p : t) : bool := WaitStatus.ExitStatus (status p) =? 0.

(** [func (p *ProcessState) ExitCode() int] *)
Definition ExitCode (p : t) : Z :=
  if negb (WaitStatus.Exited (status p)) then -1
  else WaitStatus.ExitStatus (status p).

(** [func (p *ProcessState) Sys() interface{}] *)
Definition Sys (p : t) : Z := status p.

(** [func (p *ProcessState) String() string], on a receiver that may be
    nil.  [sigName] is [syscall.Signal.String], whose table of names
    belongs to the Go runtime. *)
Definition String (sigName : Z -> string) (p : option t) : string :=
  match p with
  | None => "<nil>"%string
  | Some p =>
      let status := Sys p in
      if WaitStatus.Exited status then
        let code := WaitStatus.ExitStatus status in
        if code =? 0 then "exit status 0"%string
        else ("exit status " ++ decimal code)%string
      else if WaitStatus.Signaled status then
        let sig := WaitStatus.Signal status in
        let s := sigName sig in
        let s := if WaitStatus.CoreDump status
                 then (s ++ " (core dumped)")%string else s in
        ("signal: " ++ s)%string
      else if WaitStatus.Stopped status then
        let sig := WaitStatus.StopSignal status in
        ("stop signal: " ++ sigName sig)%string
      else if WaitStatus.Continued status then "continued"%string
      else ("unknown status: " ++ decimal status)%string
  end.

End ProcessState.

Module ExitError.

(** [type ExitError struct], with its embedded [*ProcessState]; a nil
    [Stderr] is the empty list. *)
Record t : Type := mk {
  ProcessState : ProcessState.t;
  Stderr : list byte
}.

(** [func (e *ExitError) Error() string] *)
Definition Error (sigName : Z -> string) (e : t) : string :=
  ProcessState.String sigName (Some (ProcessState e)).

(** [func (e *ExitError) Exited() bool] *)
Definition Exited (e : t) : bool := ProcessState.Exited (ProcessState e).

(** [func (e *ExitError) ExitCode() int] *)
Definition ExitCode (e : t) : Z := ProcessState.ExitCode (ProcessState e).

End ExitError.

(** Go [error] values met in the package.  A nil error is [None] of
    [option error]. *)
Inductive error : Type :=
| ErrNotFound                 (* var ErrNotFound *)
| ErrDot                      (* var ErrDot *)
| ErrWaitDelay                (* var ErrWaitDelay *)
| ErrInvalid                  (* os.ErrInvalid *)
| ErrPermission               (* os.ErrPermission *)
| New (text : string)         (* errors.New(text) *)
| Errno (e : Z)               (* syscall.Errno *)
| Foreign (text : string)     (* an error of the OS, of a stream or of the host library *)
| LookupError (Name : string) (Err : error)       (* &Error{Name, Err} *)
| wrappedError (prefix : string) (err : error)    (* &wrappedError{prefix, err} *)
| ExitErr (ee : ExitError.t).                     (* a pointer to an ExitError *)

(** [func wrapError(prefix string, err error) error] *)
Definition wrapError (prefix : string) (err : option error) : option error :=
  match err with
  | None => None
  | Some e => Some (wrappedError prefix e)
  end.

(** The type assertion of an error to a pointer to [ExitError]. *)
Definition as_ExitError (e : error) : option ExitError.t :=
  match e with
  | ExitErr ee => Some ee
  | _ => None
  end.

(** An [os.Signal]: a [syscall.Signal] or a value of another type. *)
Inductive os_Signal : Type :=
| syscall_Signal (n : Z)
| other_Signal.

(** Answer of [unix.Wait4(pid, &status, 0, &rusage)]: an error, or the
    pid, the status word and the usage record. *)
Inductive wait4_result : Type :=
| wait4_err (errno : Z)
| wait4_ok (pid : Z) (status : Z) (usage : Rusage).

Module Process.

(** [type Process struct] *)
Record t : Type := mk { Pid : Z }.

(** [func (p *Process) Signal(sig os.Signal) error]; [kill] is
    [unix.Kill], answering with an errno or with success. *)
Definition Signal (kill : Z -> Z -> option Z) (p : t) (sig : os_Signal)
  : option error :=
  if Pid p <=? 0 then Some ErrInvalid
  else match sig with
       | other_Signal => Some ErrInvalid
       | syscall_Signal s => option_map Errno (kill (Pid p) s)
       end.

(** [func (p *Process) Kill() error] *)
Definition Kill (kill : Z -> Z -> option Z) (p : t) : option error :=
  Signal kill p (syscall_Signal WaitStatus.SIGKILL).

(** [func (p *Process) Release() error]: the handle after the call and
    the error. *)
Definition Release (p : t) : t * option error :=
  (mk (-1), None).

(** [func (p *Process) Wait()], returning a state pointer and an error,
    of which exactly one is nil: the handle after the call and either the
    error or the state.  [wait4] answers the system call for the given
    pid. *)
Definition Wait (wait4 : Z -> wait4_result) (p : t)
  : t * (error + ProcessState.t) :=
  if Pid p <=? 0 then (p, inl ErrInvalid)
  else match wait4 (Pid p) with
       | wait4_err errno => (p, inl (Errno errno))
       | wait4_ok pid status usage =>
           (p, inr (ProcessState.mk pid status (Some usage)))
       end.

End Process.

(* ================================================================== *)
(** * Paths: strings, path/filepath and os.Stat on unix                *)
(* ================================================================== *)

Module filepath.

Definition is_sep (c : ascii) : bool := Ascii.eqb c "/"%char.
Definition is_dot (c : ascii) : bool := Ascii.eqb c "."%char.

(** [strings.Contains(s, "/")] *)
Fixpoint contains_slash (s : string) : bool :=
  match s with
  | EmptyString => false
  | String c s' => is_sep c || contains_slash s'
  end.

(** [strings.Split(s, ":")] *)
Fixpoint split_colon (s : string) : list string :=
  match s with
  | EmptyString => [EmptyString]
  | String c s' =>
      if Ascii.eqb c ":"%char then EmptyString :: split_colon s'
      else match split_colon s' with
           | [] => [String c EmptyString]
           | w :: ws => String c w :: ws
           end
  end.

(** [func SplitList(path string) []string] *)
Definition SplitList (path : string) : list string :=
  if String.eqb path "" then [] else split_colon path.

(** [func IsAbs(path string) bool] *)
Definition IsAbs (path : string) : bool :=
  match path with
  | String c _ => is_sep c
  | EmptyString => false
  end.

(** In [Clean] the output buffer [out] is kept reversed: its head is the
    byte written last and its length is [out.w]. *)

(** The [".."] case with [out.w > dotdot]: [out.w--] and then the loop
    [for out.w > dotdot && !IsPathSeparator(out.index(out.w))]. *)
Fixpoint backtrack (out : list ascii) (dotdot : nat) : list ascii :=
  match out with
  | [] => []
  | c :: rest =>
      if (dotdot <? List.length rest)%nat && negb (is_sep c)
      then backtrack rest dotdot
      else rest
  end.

Definition at_end_or_sep (rest : list ascii) : bool :=
  match rest with
  | [] => true
  | c :: _ => is_sep c
  end.

(** The main loop [for r < n] of [Clean] over the unread part of the
    path.  [incomp] holds while the inner loop of the default case copies
    an element. *)
Fixpoint clean_loop (rooted : bool) (path : list ascii) (incomp : bool)
    (out : list ascii) (dotdot : nat) : list ascii :=
  match path with
  | [] => out
  | c :: rest =>
      let element :=
        let out1 :=
          if (rooted && negb (List.length out =? 1)%nat)
             || (negb rooted && negb (List.length out =? 0)%nat)
          then "/"%char :: out else out in
        clean_loop rooted rest true (c :: out1) dotdot in
      if incomp then
        if is_sep c then clean_loop rooted rest false out dotdot
        else clean_loop rooted rest true (c :: out) dotdot
      else if is_sep c then clean_loop rooted rest false out dotdot
      else if is_dot c && at_end_or_sep rest
      then clean_loop rooted rest false out dotdot
      else
        match rest with
        | c2 :: rest2 =>
            if is_dot c && is_dot c2 && at_end_or_sep rest2 then
              if (dotdot <? List.length out)%nat
              then clean_loop rooted rest2 false (backtrack out dotdot) dotdot
              else if negb rooted then
                let out1 := if (0 <? List.length out)%nat
                            then "/"%char :: out else out in
                let out2 := "."%char :: "."%char :: out1 in
                clean_loop rooted rest2 false out2 (List.length out2)
              else clean_loop rooted rest2 false out dotdot
            else element
        | [] => element
        end
  end.

(** [func Clean(path string) string] (no volume names on unix) *)
Definition Clean (path : string) : string :=
  match list_ascii_of_string path with
  | [] => "."
  | c :: rest =>
      let out :=
        if is_sep c then clean_loop true rest false ["/"%char] 1
        else clean_loop false (c :: rest) false [] 0 in
      match out with
      | [] => "."
      | _ => string_of_list_ascii (rev out)
      end
  end%string.

(** [func Join(elem ...string) string] for two elements *)
Definition Join (dir file : string) : string :=
  if negb (String.eqb dir "") then Clean (dir ++ "/" ++ file)
  else if negb (String.eqb file "") then Clean file
  else ""%string.

(** Removal of trailing slashes, on the reversed path. *)
Fixpoint strip_slashes (rpath : list ascii) : list ascii :=
  match rpath with
  | c :: rest => if is_sep c then strip_slashes rest else rpath
  | [] => []
  end.

(** The last element of a reversed path, itself reversed. *)
Fixpoint last_element (rpath : list ascii) : list ascii :=
  match rpath with
  | c :: rest => if is_sep c then [] else c :: last_element rest
  | [] => []
  end.

(** [func Base(path string) string] *)
Definition Base (path : string) : string :=
  if String.eqb path "" then "."%string
  else
    let stripped := strip_slashes (rev (list_ascii_of_string path)) in
    let elem := string_of_list_ascii (rev (last_element stripped)) in
    if String.eqb elem "" then "/"%string else elem.

End filepath.

(** [fs.FileMode]: the permission bits and the type bits of package
    [io/fs]. *)
Module FileMode.
Definition ModeDir : Z := 2 ^ 31.
Definition ModeSymlink : Z := 2 ^ 27.
Definition ModeDevice : Z := 2 ^ 26.
Definition ModeNamedPipe : Z := 2 ^ 25.
Definition ModeSocket : Z := 2 ^ 24.
Definition ModeCharDevice : Z := 2 ^ 21.
Definition ModeIrregular : Z := 2 ^ 19.
Definition ModeType : Z :=
  Z.lor ModeDir (Z.lor ModeSymlink (Z.lor ModeNamedPipe (Z.lor ModeSocket
    (Z.lor ModeDevice (Z.lor ModeCharDevice ModeIrregular))))).
Definition IsDir (m : Z) : bool := negb (Z.land m ModeDir =? 0).
Definition IsRegular (m : Z) : bool := Z.land m ModeType =? 0.
End FileMode.

(** What the process sees of its environment during one path lookup:
    the value of [$PATH] and the answers of [os.Stat] (the file mode, or
    the error). *)
Record FS : Type := {
  PATH : string;
  Stat : string -> error + Z
}.

(* ================================================================== *)
(** * lookpath.go                                                      *)
(* ================================================================== *)

(** [func findExecutable(file string) error] *)
Definition findExecutable (fs : FS) (file : string) : option error :=
  match Stat fs file with
  | inl err => Some err
  | inr m =>
      if FileMode.IsDir m then Some ErrPermission
      else if negb (Z.land m 73 =? 0) then None     (* m&0111 != 0 *)
      else Some ErrPermission
  end.

(** [func isExecutable(path string) bool] (errors.go) *)
Definition isExecutable (fs : FS) (path : string) : bool :=
  match Stat fs path with
  | inl _ => false
  | inr m => FileMode.IsRegular m && negb (Z.land m 73 =? 0)
  end.

(** The loop [for _, dir := range filepath.SplitList(path)] of
    [LookPath]. *)
Fixpoint LookPath_scan (fs : FS) (file : string) (dirs : list string)
  : string * option error :=
  match dirs with
  | [] => (""%string, Some (LookupError file ErrNotFound))
  | dir :: dirs' =>
      let dir := if String.eqb dir "" then "."%string else dir in
      let path := filepath.Join dir file in
      match findExecutable fs path with
      | None =>
          if negb (filepath.IsAbs path) && isExecutable fs path
          then (path, Some (LookupError file ErrDot))
          else (path, None)
      | Some _ => LookPath_scan fs file dirs'
      end
  end.

(** [func LookPath(file string) (string, error)] *)
Definition LookPath (fs : FS) (file : string) : string * option error :=
  if filepath.contains_slash file then
    match findExecutable fs file with
    | None => (file, None)
    | Some err => (""%string, Some (LookupError file err))
    end
  else LookPath_scan fs file (filepath.SplitList (PATH fs)).

(* ================================================================== *)
(** * exec.go: the command                                             *)
(* ================================================================== *)

(** An [*os.File]: its identity and its descriptor. *)
Record File : Type := { file_id : nat; Fd : Z }.

(** An [io.Reader] given as [Stdin]: a file, or another reader. *)
Inductive Reader : Type :=
| R_File (f : File)
| R_Other (id : nat).

(** An [io.Writer] given as [Stdout] or [Stderr]: a file, or a pointer
    to a writer object in memory. *)
Inductive Writer : Type :=
| W_File (f : File)
| W_Obj (addr : nat).

(** Comparison [c.Stderr == c.Stdout] of two non-nil interface values. *)
Definition Writer_eqb (a b : Writer) : bool :=
  match a, b with
  | W_File f, W_File g => (file_id f =? file_id g)%nat
  | W_Obj x, W_Obj y => (x =? y)%nat
  | _, _ => false
  end.

(** The closures appended to [c.goroutine]: which stream is copied and
    the parent's end of the pipe. *)
Inductive copyTask : Type :=
| copy_stdin (pw : File)      (* io.Copy(pw, c.Stdin) *)
| copy_stdout (pr : File)     (* io.Copy(c.Stdout, pr) *)
| copy_stderr (pr : File).    (* io.Copy(c.Stderr, pr) *)

(** The [*exec.Cmd] of the host library kept in [c.osCmd]. *)
Record hostCmd : Type := { host_pid : Z }.

Module SysProcAttr.
(** [type SysProcAttr struct] *)
Record t : Type := mk {
  Setpgid : bool; Setctty : bool; Noctty : bool; Ctty : Z;
  Foreground : bool; Pgid : Z
}.
End SysProcAttr.

Module Cmd.

(** [type Cmd struct] ([ctxCancel] and [goroutineMu] carry no data of
    the model). *)
Record t : Type := mk {
  Path : string;   (* path of the command to run *)
  Args : list string;   (* arguments, including the command as Args[0] *)
  Env : option (list string);   (* nil: inherit the environment *)
  Dir : string;   (* working directory *)
  Stdin : option Reader;
  Stdout : option Writer;
  Stderr : option Writer;
  ExtraFiles : list (option File);
  SysProcAttr : option SysProcAttr.t;
  Cancel : option nat;   (* the hook, by identity *)
  WaitDelay : Z;   (* not consulted *)
  Process : option Process.t;
  ProcessState : option ProcessState.t;
  ctx : option nat;   (* the context, by identity *)
  lookPathErr : option error;   (* LookPath error, if any *)
  finished : bool;   (* true after Wait returns *)
  childIOFiles : list File;
  parentIOPipes : list File;
  goroutine : list copyTask;
  goroutineErr : list (option error);
  stdinPipeUsed : bool;
  stdoutPipeUsed : bool;
  stderrPipeUsed : bool;
  osCmd : option hostCmd   (* the host command (fallback build) *)
}.

Definition set_Path (c : t) (v : string) : t :=
  mk v (Args c) (Env c) (Dir c) (Stdin c) (Stdout c) (Stderr c) (ExtraFiles c) (SysProcAttr c) (Cancel c) (WaitDelay c) (Process c) (ProcessState c) (ctx c) (lookPathErr c) (finished c) (childIOFiles c) (parentIOPipes c) (goroutine c) (goroutineErr c) (stdinPipeUsed c) (stdoutPipeUsed c) (stderrPipeUsed c) (osCmd c).
Definition set_Stdin (c : t) (v : option Reader) : t :=
  mk (Path c) (Args c) (Env c) (Dir c) v (Stdout c) (Stderr c) (ExtraFiles c) (SysProcAttr c) (Cancel c) (WaitDelay c) (Process c) (ProcessState c) (ctx c) (lookPathErr c) (finished c) (childIOFiles c) (parentIOPipes c) (goroutine c) (goroutineErr c) (stdinPipeUsed c) (stdoutPipeUsed c) (stderrPipeUsed c) (osCmd c).
Definition set_Stdout (c : t) (v : option Writer) : t :=
  mk (Path c) (Args c) (Env c) (Dir c) (Stdin c) v (Stderr c) (ExtraFiles c) (SysProcAttr c) (Cancel c) (WaitDelay c) (Process c) (ProcessState c) (ctx c) (lookPathErr c) (finished c) (childIOFiles c) (parentIOPipes c) (goroutine c) (goroutineErr c) (stdinPipeUsed c) (stdoutPipeUsed c) (stderrPipeUsed c) (osCmd c).
Definition set_Stderr (c : t) (v : option Writer) : t :=
  mk (Path c) (Args c) (Env c) (Dir c) (Stdin c) (Stdout c) v (ExtraFiles c) (SysProcAttr c) (Cancel c) (WaitDelay c) (Process c) (ProcessState c) (ctx c) (lookPathErr c) (finished c) (childIOFiles c) (parentIOPipes c) (goroutine c) (goroutineErr c) (stdinPipeUsed c) (stdoutPipeUsed c) (stderrPipeUsed c) (osCmd c).
Definition set_Process (c : t) (v : option Process.t) : t :=
  mk (Path c) (Args c) (Env c) (Dir c) (Stdin c) (Stdout c) (Stderr c) (ExtraFiles c) (SysProcAttr c) (Cancel c) (WaitDelay c) v (ProcessState c) (ctx c) (lookPathErr c) (finished c) (childIOFiles c) (parentIOPipes c) (goroutine c) (goroutineErr c) (stdinPipeUsed c) (stdoutPipeUsed c) (stderrPipeUsed c) (osCmd c).
Definition set_ProcessState (c : t) (v : option ProcessState.t) : t :=
  mk (Path c) (Args c) (Env c) (Dir c) (Stdin c) (Stdout c) (Stderr c) (ExtraFiles c) (SysProcAttr c) (Cancel c) (WaitDelay c) (Process c) v (ctx c) (lookPathErr c) (finished c) (childIOFiles c) (parentIOPipes c) (goroutine c) (goroutineErr c) (stdinPipeUsed c) (stdoutPipeUsed c) (stderrPipeUsed c) (osCmd c).
Definition set_ctx (c : t) (v : option nat) : t :=
  mk (Path c) (Args c) (Env c) (Dir c) (Stdin c) (Stdout c) (Stderr c) (ExtraFiles c) (SysProcAttr c) (Cancel c) (WaitDelay c) (Process c) (ProcessState c) v (lookPathErr c) (finished c) (childIOFiles c) (parentIOPipes c) (goroutine c) (goroutineErr c) (stdinPipeUsed c) (stdoutPipeUsed c) (stderrPipeUsed c) (osCmd c).
Definition set_lookPathErr (c : t) (v : option error) : t :=
  mk (Path c) (Args c) (Env c) (Dir c) (Stdin c) (Stdout c) (Stderr c) (ExtraFiles c) (SysProcAttr c) (Cancel c) (WaitDelay c) (Process c) (ProcessState c) (ctx c) v (finished c) (childIOFiles c) (parentIOPipes c) (goroutine c) (goroutineErr c) (stdinPipeUsed c) (stdoutPipeUsed c) (stderrPipeUsed c) (osCmd c).
Definition set_finished (c : t) (v : bool) : t :=
  mk (Path c) (Args c) (Env c) (Dir c) (Stdin c) (Stdout c) (Stderr c) (ExtraFiles c) (SysProcAttr c) (Cancel c) (WaitDelay c) (Process c) (ProcessState c) (ctx c) (lookPathErr c) v (childIOFiles c) (parentIOPipes c) (goroutine c) (goroutineErr c) (stdinPipeUsed c) (stdoutPipeUsed c) (stderrPipeUsed c) (osCmd c).
Definition set_childIOFiles (c : t) (v : list File) : t :=
  mk (Path c) (Args c) (Env c) (Dir c) (Stdin c) (Stdout c) (Stderr c) (ExtraFiles c) (SysProcAttr c) (Cancel c) (WaitDelay c) (Process c) (ProcessState c) (ctx c) (lookPathErr c) (finished c) v (parentIOPipes c) (goroutine c) (goroutineErr c) (stdinPipeUsed c) (stdoutPipeUsed c) (stderrPipeUsed c) (osCmd c).
Definition set_parentIOPipes (c : t) (v : list File) : t :=
  mk (Path c) (Args c) (Env c) (Dir c) (Stdin c) (Stdout c) (Stderr c) (ExtraFiles c) (SysProcAttr c) (Cancel c) (WaitDelay c) (Process c) (ProcessState c) (ctx c) (lookPathErr c) (finished c) (childIOFiles c) v (goroutine c) (goroutineErr c) (stdinPipeUsed c) (stdoutPipeUsed c) (stderrPipeUsed c) (osCmd c).
Definition set_goroutine (c : t) (v : list copyTask) : t :=
  mk (Path c) (Args c) (Env c) (Dir c) (Stdin c) (Stdout c) (Stderr c) (ExtraFiles c) (SysProcAttr c) (Cancel c) (WaitDelay c) (Process c) (ProcessState c) (ctx c) (lookPathErr c) (finished c) (childIOFiles c) (parentIOPipes c) v (goroutineErr c) (stdinPipeUsed c) (stdoutPipeUsed c) (stderrPipeUsed c) (osCmd c).
Definition set_goroutineErr (c : t) (v : list (option error)) : t :=
  mk (Path c) (Args c) (Env c) (Dir c) (Stdin c) (Stdout c) (Stderr c) (ExtraFiles c) (SysProcAttr c) (Cancel c) (WaitDelay c) (Process c) (ProcessState c) (ctx c) (lookPathErr c) (finished c) (childIOFiles c) (parentIOPipes c) (goroutine c) v (stdinPipeUsed c) (stdoutPipeUsed c) (stderrPipeUsed c) (osCmd c).
Definition set_stdinPipeUsed (c : t) (v : bool) : t :=
  mk (Path c) (Args c) (Env c) (Dir c) (Stdin c) (Stdout c) (Stderr c) (ExtraFiles c) (SysProcAttr c) (Cancel c) (WaitDelay c) (Process c) (ProcessState c) (ctx c) (lookPathErr c) (finished c) (childIOFiles c) (parentIOPipes c) (goroutine c) (goroutineErr c) v (stdoutPipeUsed c) (stderrPipeUsed c) (osCmd c).
Definition set_stdoutPipeUsed (c : t) (v : bool) : t :=
  mk (Path c) (Args c) (Env c) (Dir c) (Stdin c) (Stdout c) (Stderr c) (ExtraFiles c) (SysProcAttr c) (Cancel c) (WaitDelay c) (Process c) (ProcessState c) (ctx c) (lookPathErr c) (finished c) (childIOFiles c) (parentIOPipes c) (goroutine c) (goroutineErr c) (stdinPipeUsed c) v (stderrPipeUsed c) (osCmd c).
Definition set_stderrPipeUsed (c : t) (v : bool) : t :=
  mk (Path c) (Args c) (Env c) (Dir c) (Stdin c) (Stdout c) (Stderr c) (ExtraFiles c) (SysProcAttr c) (Cancel c) (WaitDelay c) (Process c) (ProcessState c) (ctx c) (lookPathErr c) (finished c) (childIOFiles c) (parentIOPipes c) (goroutine c) (goroutineErr c) (stdinPipeUsed c) (stdoutPipeUsed c) v (osCmd c).
Definition set_osCmd (c : t) (v : option hostCmd) : t :=
  mk (Path c) (Args c) (Env c) (Dir c) (Stdin c) (Stdout c) (Stderr c) (ExtraFiles c) (SysProcAttr c) (Cancel c) (WaitDelay c) (Process c) (ProcessState c) (ctx c) (lookPathErr c) (finished c) (childIOFiles c) (parentIOPipes c) (goroutine c) (goroutineErr c) (stdinPipeUsed c) (stdoutPipeUsed c) (stderrPipeUsed c) v.

End Cmd.

(** Writer objects in memory. *)
Inductive Obj : Type :=
| Buffer (data : list byte)                    (* bytes.Buffer *)
| SaverObj (s : Saver.prefixSuffixSaver)       (* prefixSuffixSaver *)
| OtherWriter.                                 (* a writer of the caller *)

Definition Heap : Type := list Obj.

Definition heap_set (h : Heap) (a : nat) (o : Obj) : Heap :=
  firstn a h ++ o :: skipn (S a) h.

(** The state the lifecycle operations act on: the command and the
    writer objects it points to. *)
Definition St : Type := (Cmd.t * Heap)%type.

(** [func isAbs(path string) bool] (spawn_darwin.go, spawn_other.go) *)
Definition isAbs (path : string) : bool :=
  match path with
  | String c _ => Ascii.eqb c "/"%char
  | EmptyString => false
  end.

(** [func joinPath(dir, file string) string] *)
Definition joinPath (dir file : string) : string :=
  if isAbs file then file else (dir ++ "/" ++ file)%string.

(** [func Command(name string, arg ...string) *Cmd] *)
Definition Command (fs : FS) (name : string) (arg : list string) : Cmd.t :=
  let cmd := Cmd.mk name (name :: arg) None ""%string None None None [] None
               None 0 None None None None false [] [] [] [] false false false
               None in
  if String.eqb (filepath.Base name) name then
    match LookPath fs name with
    | (lp, Some err) => Cmd.set_lookPathErr cmd (Some err)
    | (lp, None) => Cmd.set_Path cmd lp
    end
  else cmd.

(** [func CommandContext(ctx context.Context, name string, arg ...string) *Cmd]
    for a non-nil context. *)
Definition CommandContext (fs : FS) (ctx : nat) (name : string)
    (arg : list string) : Cmd.t :=
  Cmd.set_ctx (Command fs name arg) (Some ctx).

(* ================================================================== *)
(** * Steps that update the command and may fail                       *)
(* ================================================================== *)

(** A method body on [c *Cmd] that returns early with an error. *)
Definition M (A : Type) : Type := Cmd.t -> Cmd.t * (error + A).

Definition ret {A : Type} (a : A) : M A := fun c => (c, inr a).
Definition fail {A : Type} (e : error) : M A := fun c => (c, inl e).
Definition get : M Cmd.t := fun c => (c, inr c).
Definition modify (f : Cmd.t -> Cmd.t) : M unit := fun c => (f c, inr tt).
Definition bindM {A B : Type} (m : M A) (k : A -> M B) : M B :=
  fun c => match m c with
           | (c', inl e) => (c', inl e)
           | (c', inr a) => k a c'
           end.

Notation "x <-- m ;; k" := (bindM m (fun x => k))
  (at level 61, m at next level, right associativity).
Notation "m >>> k" := (bindM m (fun _ => k))
  (at level 61, right associativity).

(** [if cond { return e }] *)
Definition guard (cond : bool) (e : error) : M unit :=
  if cond then fail e else ret tt.

(** [if ret := call; ret != 0 { return syscall.Errno(ret) }] *)
Definition check (r : Z) : M unit := guard (negb (r =? 0)) (Errno r).

(** The error returned by a method, or nil. *)
Definition run (m : M unit) (c : Cmd.t) : Cmd.t * option error :=
  match m c with
  | (c', inl e) => (c', Some e)
  | (c', inr _) => (c', None)
  end.

Definition is_some {A : Type} (o : option A) : bool :=
  match o with Some _ => true | None => false end.

(** [for _, e := range c.goroutineErr { if e != nil && copyErr == nil
    { copyErr = e } }] *)
Fixpoint first_error (errs : list (option error)) : option error :=
  match errs with
  | [] => None
  | Some e :: _ => Some e
  | None :: rest => first_error rest
  end.

(* ================================================================== *)
(** * spawn_darwin.go                                                  *)
(* ================================================================== *)

Module Darwin.

(** Answers of the operating system to the calls of one [Start]:
    the return codes of the C helpers, the pipes handed out, the state of
    the context. *)
Record SpawnOS : Type := {
  ctx_Err : option string;          (* text of ctx.Err() once ctx.Done() is closed *)
  Environ : list string;            (* os.Environ() *)
  init_file_actions : Z;
  add_open_action : Z -> Z;         (* by child descriptor *)
  add_dup2_action : Z -> Z -> Z;    (* fd, newfd *)
  os_Pipe : Z -> string + (File * File);   (* for a child descriptor: pr, pw *)
  has_chdir_np : bool;
  add_chdir_action : string -> Z;
  init_spawnattr : Z;
  do_posix_spawn : string -> list string -> list string -> Z * Z
                                    (* path, argv, envp: return code and pid *)
}.

(** [func (c *Cmd) setupStdin(...)]: the descriptor to close after the
    spawn, or -1.  The [io.Closer] result is nil on every path. *)
Definition setupStdin (os : SpawnOS) : M Z :=
  c <-- get ;;
  match Cmd.Stdin c with
  | None => check (add_open_action os 0) >>> ret (-1)
  | Some (R_File f) => check (add_dup2_action os (Fd f) 0) >>> ret (-1)
  | Some (R_Other _) =>
      match os_Pipe os 0 with
      | inl text => fail (Foreign text)
      | inr (pr, pw) =>
          let fd := Fd pr in
          check (add_dup2_action os fd 0) >>>
          modify (fun c => Cmd.set_childIOFiles c (Cmd.childIOFiles c ++ [pr])) >>>
          modify (fun c => Cmd.set_goroutine c (Cmd.goroutine c ++ [copy_stdin pw])) >>>
          ret fd
      end
  end.

(** [func (c *Cmd) setupStdout(...)] *)
Definition setupStdout (os : SpawnOS) : M Z :=
  c <-- get ;;
  match Cmd.Stdout c with
  | None => check (add_open_action os 1) >>> ret (-1)
  | Some (W_File f) => check (add_dup2_action os (Fd f) 1) >>> ret (-1)
  | Some (W_Obj _) =>
      match os_Pipe os 1 with
      | inl text => fail (Foreign text)
      | inr (pr, pw) =>
          let fd := Fd pw in
          check (add_dup2_action os fd 1) >>>
          modify (fun c => Cmd.set_childIOFiles c (Cmd.childIOFiles c ++ [pw])) >>>
          modify (fun c => Cmd.set_goroutine c (Cmd.goroutine c ++ [copy_stdout pr])) >>>
          ret fd
      end
  end.

(** [func (c *Cmd) setupStderr(...)] *)
Definition setupStderr (os : SpawnOS) : M Z :=
  c <-- get ;;
  match Cmd.Stderr c with
  | None => check (add_open_action os 2) >>> ret (-1)
  | Some w =>
      if match Cmd.Stdout c with
         | Some w' => Writer_eqb w w'
         | None => false
         end
      then check (add_dup2_action os 1 2) >>> ret (-1)
      else
        match w with
        | W_File f => check (add_dup2_action os (Fd f) 2) >>> ret (-1)
        | W_Obj _ =>
            match os_Pipe os 2 with
            | inl text => fail (Foreign text)
            | inr (pr, pw) =>
                let fd := Fd pw in
                check (add_dup2_action os fd 2) >>>
                modify (fun c => Cmd.set_childIOFiles c (Cmd.childIOFiles c ++ [pw])) >>>
                modify (fun c => Cmd.set_goroutine c (Cmd.goroutine c ++ [copy_stderr pr])) >>>
                ret fd
            end
        end
  end.

(** [for i, f := range c.ExtraFiles] of [Start] *)
Fixpoint setupExtraFiles (os : SpawnOS) (i : Z) (files : list (option File))
  : M unit :=
  match files with
  | [] => ret tt
  | None :: rest => setupExtraFiles os (i + 1) rest
  | Some f :: rest =>
      check (add_dup2_action os (Fd f) (3 + i)) >>>
      setupExtraFiles os (i + 1) rest
  end.

(** A failing stream setup is returned as [wrapError("exec: ", err)]. *)
Definition wrapped {A : Type} (m : M A) : M A :=
  fun c => match m c with
           | (c', inl e) => (c', inl (wrappedError "exec: " e))
           | r => r
           end.

(** [func (c *Cmd) startGoroutines()]: the slice of outcomes, all nil;
    the tasks then run on their own. *)
Definition startGoroutines : M unit :=
  modify (fun c => Cmd.set_goroutineErr c
                     (map (fun _ => None) (Cmd.goroutine c))).

(** [func (c *Cmd) Start() error] up to the call of [posix_spawn]: the
    pid of the child, or the error returned.  Descriptors closed in the
    parent and memory of the C side are not part of the state. *)
Definition Start_spawn (os : SpawnOS) : M Z :=
  c <-- get ;;
  match Cmd.lookPathErr c with
  | Some e => fail e
  | None =>
      guard (is_some (Cmd.Process c)) (New "exec: already started") >>>
      guard (Cmd.finished c) (New "exec: already finished") >>>
      (* Check if context is already done *)
      match Cmd.ctx c, ctx_Err os with
      | Some _, Some text => fail (Foreign text)
      | _, _ =>
          (* Resolve path *)
          let path :=
            if negb (String.eqb (Cmd.Dir c) "") && negb (isAbs (Cmd.Path c))
            then joinPath (Cmd.Dir c) (Cmd.Path c) else Cmd.Path c in
          (* Setup environment *)
          let env := match Cmd.Env c with
                     | None => Environ os
                     | Some env => env
                     end in
          check (init_file_actions os) >>>
          stdinFd <-- wrapped (setupStdin os) ;;
          stdoutFd <-- wrapped (setupStdout os) ;;
          stderrFd <-- wrapped (setupStderr os) ;;
          setupExtraFiles os 0 (Cmd.ExtraFiles c) >>>
          (if negb (String.eqb (Cmd.Dir c) "") then
             guard (negb (has_chdir_np os))
               (New "exec: setting Dir requires macOS 10.15+") >>>
             check (add_chdir_action os (Cmd.Dir c))
           else ret tt) >>>
          check (init_spawnattr os) >>>
          (* Convert args to C strings *)
          let args := match Cmd.Args c with
                      | [] => [Cmd.Path c]
                      | args => args
                      end in
          (* Spawn the process *)
          let '(r, pid) := do_posix_spawn os path args env in
          guard (negb (r =? 0)) (LookupError (Cmd.Path c) (Errno r)) >>>
          ret pid
      end
  end.

(** The end of [Start], after a successful spawn. *)
Definition Start_spawned (pid : Z) : M unit :=
  modify (fun c => Cmd.set_childIOFiles c []) >>>
  modify (fun c => Cmd.set_Process c (Some (Process.mk pid))) >>>
  startGoroutines.

Definition Start_body (os : SpawnOS) : M unit :=
  pid <-- Start_spawn os ;; Start_spawned pid.

(** [func (c *Cmd) Start() error] *)
Definition Start (os : SpawnOS) (c : Cmd.t) : Cmd.t * option error :=
  run (Start_body os) c.

(** [func (c *Cmd) Wait() error].  [wait4] answers the reap; the slice
    [c.goroutineErr] is read as the copy tasks have left it when the lock
    is taken. *)
Definition Wait (wait4 : Z -> wait4_result) (c : Cmd.t) : Cmd.t * option error :=
  match Cmd.Process c with
  | None => (c, Some (New "exec: not started"))
  | Some p =>
      if Cmd.finished c then (c, Some (New "exec: Wait was already called"))
      else
        let c := Cmd.set_finished c true in
        (* Wait for the process *)
        let '(p', r) := Process.Wait wait4 p in
        let c := Cmd.set_Process c (Some p') in
        match r with
        | inl err => (c, Some err)
        | inr state =>
            let c := Cmd.set_ProcessState c (Some state) in
            (* Close parent side of pipes *)
            let c := Cmd.set_parentIOPipes c [] in
            let copyErr := first_error (Cmd.goroutineErr c) in
            if negb (ProcessState.Success state)
            then (c, Some (ExitErr (ExitError.mk state [])))
            else match copyErr with
                 | Some e => (c, Some e)
                 | None => (c, None)
                 end
        end
  end.

End Darwin.

(* ================================================================== *)
(** * spawn_other.go: the fallback on the host library                 *)
(* ================================================================== *)

Module Other.

(** Answer of [osCmd.Wait()] of the host library together with the
    [osCmd.ProcessState] it leaves. *)
Inductive host_wait : Type :=
| host_ok (state : option ProcessState.t)                 (* nil *)
| host_exit_error (state : ProcessState.t)                (* an exec.ExitError *)
| host_error (text : string) (state : option ProcessState.t).

(** Answers of the host to one launch. *)
Record HostOS : Type := {
  ctx_Err : option string;
  host_Start : string -> list string -> string + Z;   (* path, args: error text or pid *)
  host_Wait : host_wait
}.

(** [func (c *Cmd) Start() error]; the slice [c.Args[1:]] panics on an
    empty [Args]. *)
Definition Start (os : HostOS) (c : Cmd.t) : outcome (Cmd.t * option error) :=
  match Cmd.lookPathErr c with
  | Some e => Ret (c, Some e)
  | None =>
      if is_some (Cmd.Process c) then Ret (c, Some (New "exec: already started"))
      else if Cmd.finished c then Ret (c, Some (New "exec: already finished"))
      else
        match Cmd.ctx c, ctx_Err os with
        | Some _, Some text => Ret (c, Some (Foreign text))
        | _, _ =>
            args <- slice_from (Cmd.Args c) 1 ;;
            match host_Start os (Cmd.Path c) args with
            | inl text => Ret (c, Some (Foreign text))
            | inr pid =>
                let c := Cmd.set_Process c (Some (Process.mk pid)) in
                let c := Cmd.set_osCmd c (Some {| host_pid := pid |}) in
                Ret (c, None)
            end
        end
  end.

(** [func (c *Cmd) Wait() error] *)
Definition Wait (os : HostOS) (c : Cmd.t) : Cmd.t * option error :=
  match Cmd.Process c with
  | None => (c, Some (New "exec: not started"))
  | Some _ =>
      if Cmd.finished c then (c, Some (New "exec: Wait was already called"))
      else
        let c := Cmd.set_finished c true in
        match Cmd.osCmd c with
        | None =>
            (c, Some (New "exec: internal error: osCmd is nil or wrong type"))
        | Some _ =>
            match host_Wait os with
            | host_ok state =>
                let c := match state with
                         | Some st => Cmd.set_ProcessState c (Some st)
                         | None => c
                         end in
                (c, None)
            | host_exit_error st =>
                let c := Cmd.set_ProcessState c (Some st) in
                (c, Some (ExitErr (ExitError.mk st [])))
            | host_error text state =>
                let c := match state with
                         | Some st => Cmd.set_ProcessState c (Some st)
                         | None => c
                         end in
                (c, Some (Foreign text))
            end
        end
  end.

End Other.

(* ================================================================== *)
(** * The background copy tasks                                        *)
(* ================================================================== *)

(** What one copy task met: the chunks its reads returned, in order, and
    the read error that ended the copy (nil at end of input). *)
Record TaskRun : Type := {
  chunks : list (list byte);
  io_err : option string
}.

Section Copy.
Variable fuel : nat.   (* loop budget of [prefixSuffixSaver.Write] *)

(** The loop of [io.Copy] into a [prefixSuffixSaver]: it stops at the
    first write that returns an error or a short count. *)
Fixpoint copy_to_saver (s : Saver.prefixSuffixSaver) (cs : list (list byte))
  : outcome (Saver.prefixSuffixSaver * option error) :=
  match cs with
  | [] => Ret (s, None)
  | p :: cs' =>
      '(s', (n, err)) <- Saver.Write fuel s p ;;
      match err with
      | Some text => Ret (s', Some (Foreign text))
      | None =>
          if n =? len p then copy_to_saver s' cs'
          else Ret (s', Some (Foreign "short write"))
      end
  end.

(** [io.Copy(w, pr)] for the writer [w] of the command: the new memory
    and the error of the copy.  A [bytes.Buffer] takes every chunk; what
    a writer of the caller does is not followed. *)
Definition copy_to (h : Heap) (w : option Writer) (r : TaskRun)
  : outcome (Heap * option error) :=
  let read_err := option_map Foreign (io_err r) in
  match w with
  | Some (W_Obj a) =>
      match nth_error h a with
      | Some (Buffer data) =>
          Ret (heap_set h a (Buffer (data ++ List.concat (chunks r))), read_err)
      | Some (SaverObj s) =>
          '(s', werr) <- copy_to_saver s (chunks r) ;;
          Ret (heap_set h a (SaverObj s'),
               match werr with Some e => Some e | None => read_err end)
      | _ => Ret (h, read_err)
      end
  | _ => Ret (h, read_err)
  end.

(** One closure of [c.goroutine]. *)
Definition run_task (c : Cmd.t) (h : Heap) (t : copyTask) (r : TaskRun)
  : outcome (Heap * option error) :=
  match t with
  | copy_stdin _ => Ret (h, option_map Foreign (io_err r))
  | copy_stdout _ => copy_to h (Cmd.Stdout c) r
  | copy_stderr _ => copy_to h (Cmd.Stderr c) r
  end.

(** The tasks started by [startGoroutines], as far as they have come
    when [Wait] takes [goroutineMu]: a task runs its whole closure under
    the lock, so each one has either stored its outcome in its slot of
    [c.goroutineErr] ([Some] run) or not begun ([None]). *)
Fixpoint run_tasks (c : Cmd.t) (h : Heap) (tasks : list copyTask)
    (runs : list (option TaskRun)) (slots : list (option error))
  : outcome (Heap * list (option error)) :=
  match tasks, slots with
  | [], _ => Ret (h, slots)
  | _ :: _, [] => Panic
  | t :: tasks', slot :: slots' =>
      '(h1, e) <- match hd None runs with
                  | None => Ret (h, slot)
                  | Some r => run_task c h t r
                  end ;;
      '(h2, es) <- run_tasks c h1 tasks' (tl runs) slots' ;;
      Ret (h2, e :: es)
  end.

(** The copy tasks of a started command. *)
Definition background (runs : list (option TaskRun)) (st : St) : outcome St :=
  let '(c, h) := st in
  if is_some (Cmd.Process c) then
    '(h', errs) <- run_tasks c h (Cmd.goroutine c) runs (Cmd.goroutineErr c) ;;
    Ret (Cmd.set_goroutineErr c errs, h')
  else Ret st.

(** The copying done by the host library for a started command: one
    stream per distinct writer. *)
Definition host_background (out err : TaskRun) (st : St) : outcome St :=
  let '(c, h) := st in
  if is_some (Cmd.Process c) then
    '(h1, _) <- copy_to h (Cmd.Stdout c) out ;;
    if match Cmd.Stderr c, Cmd.Stdout c with
       | Some w, Some w' => Writer_eqb w w'
       | _, _ => false
       end
    then Ret (c, h1)
    else '(h2, _) <- copy_to h1 (Cmd.Stderr c) err ;; Ret (c, h2)
  else Ret st.
End Copy.

(* ================================================================== *)
(** * exec.go: Run, Output, CombinedOutput                             *)
(* ================================================================== *)

Section Lifecycle.
(** [c.Start()] and [c.Wait()] as the build selects them. *)
Variables Start Wait : St -> outcome (St * option error).

(** [func (c *Cmd) Run() error] *)
Definition Run (st : St) : outcome (St * option error) :=
  '(st1, err) <- Start st ;;
  match err with
  | Some e => Ret (st1, Some e)
  | None => Wait st1
  end.

(** [stdout.Bytes()] of the buffer at [a]. *)
Definition buffer_Bytes (h : Heap) (a : nat) : outcome (list byte) :=
  match nth_error h a with
  | Some (Buffer data) => Ret data
  | _ => Panic
  end.

(** [Bytes()] of [c.Stderr] asserted to be a [prefixSuffixSaver]: the
    assertion panics on another writer. *)
Definition saver_Bytes (h : Heap) (w : option Writer) : outcome (list byte) :=
  match w with
  | Some (W_Obj a) =>
      match nth_error h a with
      | Some (SaverObj s) => Saver.Bytes s
      | _ => Panic
      end
  | _ => Panic
  end.

(** [func (c *Cmd) Output() ([]byte, error)] *)
Definition Output (st : St) : outcome (St * (list byte * option error)) :=
  let '(c, h) := st in
  if is_some (Cmd.Stdout c)
  then Ret (st, ([], Some (New "exec: Stdout already set")))
  else
    let stdout := List.length h in
    let h := h ++ [Buffer []] in
    let c := Cmd.set_Stdout c (Some (W_Obj stdout)) in
    let captureErr := negb (is_some (Cmd.Stderr c)) in
    let '(c, h) :=
      if captureErr
      then (Cmd.set_Stderr c (Some (W_Obj (List.length h))),
            h ++ [SaverObj (Saver.new (Z.shiftl 32 10))])
      else (c, h) in
    '((c, h), err) <- Run (c, h) ;;
    err <- match err with
           | Some e =>
               match as_ExitError e with
               | Some ee =>
                   if captureErr then
                     captured <- saver_Bytes h (Cmd.Stderr c) ;;
                     Ret (Some (ExitErr
                                  (ExitError.mk (ExitError.ProcessState ee)
                                     captured)))
                   else Ret (Some e)
               | None => Ret (Some e)
               end
           | None => Ret None
           end ;;
    out <- buffer_Bytes h stdout ;;
    Ret ((c, h), (out, err)).

(** [func (c *Cmd) CombinedOutput() ([]byte, error)] *)
Definition CombinedOutput (st : St)
  : outcome (St * (list byte * option error)) :=
  let '(c, h) := st in
  if is_some (Cmd.Stdout c)
  then Ret (st, ([], Some (New "exec: Stdout already set")))
  else if is_some (Cmd.Stderr c)
  then Ret (st, ([], Some (New "exec: Stderr already set")))
  else
    let b := List.length h in
    let h := h ++ [Buffer []] in
    let c := Cmd.set_Stdout c (Some (W_Obj b)) in
    let c := Cmd.set_Stderr c (Some (W_Obj b)) in
    '((c, h), err) <- Run (c, h) ;;
    out <- buffer_Bytes h b ;;
    Ret ((c, h), (out, err)).
End Lifecycle.

(** What the system and the child do during one launch on darwin. *)
Record DarwinWorld : Type := {
  spawn : Darwin.SpawnOS;
  wait4 : Z -> wait4_result;
  runs : list (option TaskRun)     (* per entry of c.goroutine *)
}.

(** What the host library and the child do during one launch of the
    fallback build. *)
Record OtherWorld : Type := {
  host : Other.HostOS;
  host_out : TaskRun;
  host_err : TaskRun
}.

Section Builds.
Variable fuel : nat.

Definition Darwin_Start (w : DarwinWorld) (st : St) : outcome (St * option error) :=
  let '(c, h) := st in
  let '(c', err) := Darwin.Start (spawn w) c in
  Ret ((c', h), err).

Definition Darwin_Wait (w : DarwinWorld) (st : St) : outcome (St * option error) :=
  '(c, h) <- background fuel (runs w) st ;;
  let '(c', err) := Darwin.Wait (wait4 w) c in
  Ret ((c', h), err).

Definition Darwin_Run (w : DarwinWorld) := Run (Darwin_Start w) (Darwin_Wait w).
Definition Darwin_Output (w : DarwinWorld) := Output (Darwin_Start w) (Darwin_Wait w).

Definition Other_Start (w : OtherWorld) (st : St) : outcome (St * option error) :=
  let '(c, h) := st in
  '(c', err) <- Other.Start (host w) c ;;
  Ret ((c', h), err).

Definition Other_Wait (w : OtherWorld) (st : St) : outcome (St * option error) :=
  '(c, h) <- host_background fuel (host_out w) (host_err w) st ;;
  let '(c', err) := Other.Wait (host w) c in
  Ret ((c', h), err).

Definition Other_Run (w : OtherWorld) := Run (Other_Start w) (Other_Wait w).
Definition Other_Output (w : OtherWorld) := Output (Other_Start w) (Other_Wait w).
Definition Other_CombinedOutput (w : OtherWorld) :=
  CombinedOutput (Other_Start w) (Other_Wait w).
End Builds.

(* ================================================================== *)
(** * exec.go: String, Environ and the pipes                           *)
(* ================================================================== *)

(** [strings.Join(elems, sep)] *)
Definition strings_Join (elems : list string) (sep : string) : string :=
  match elems with
  | [] => ""%string
  | e :: rest => fold_left (fun b s => (b ++ sep ++ s)%string) rest e
  end.

(** [func (c *Cmd) String() string]; the slice [c.Args[1:]] panics on
    an empty [Args]. *)
Definition Cmd_String (c : Cmd.t) : outcome string :=
  match Cmd.lookPathErr c with
  | Some _ => Ret (strings_Join (Cmd.Args c) " ")
  | None =>
      rest <- slice_from (Cmd.Args c) 1 ;;
      Ret (fold_left (fun b a => (b ++ " " ++ a)%string) rest (Cmd.Path c))
  end.

(** [func (c *Cmd) Environ() []string]; [environ] is [os.Environ()]. *)
Definition Cmd_Environ (environ : list string) (c : Cmd.t) : list string :=
  match Cmd.Env c with
  | None => environ
  | Some env => env
  end.

(** [func (c *Cmd) StdinPipe() (io.WriteCloser, error)]; [pipe] is the
    answer of [os.Pipe()]: an error, or the read end and the write
    end. *)
Definition StdinPipe (pipe : string + (File * File)) : M File :=
  c <-- get ;;
  guard (is_some (Cmd.Stdin c)) (New "exec: Stdin already set") >>>
  guard (is_some (Cmd.Process c))
    (New "exec: StdinPipe after process started") >>>
  guard (Cmd.stdinPipeUsed c) (New "exec: StdinPipe already called") >>>
  modify (fun c => Cmd.set_stdinPipeUsed c true) >>>
  match pipe with
  | inl text => fail (Foreign text)
  | inr (pr, pw) =>
      modify (fun c => Cmd.set_Stdin c (Some (R_File pr))) >>>
      modify (fun c => Cmd.set_childIOFiles c (Cmd.childIOFiles c ++ [pr])) >>>
      modify (fun c => Cmd.set_parentIOPipes c (Cmd.parentIOPipes c ++ [pw])) >>>
      ret pw
  end.

(** [func (c *Cmd) StdoutPipe() (io.ReadCloser, error)] *)
Definition StdoutPipe (pipe : string + (File * File)) : M File :=
  c <-- get ;;
  guard (is_some (Cmd.Stdout c)) (New "exec: Stdout already set") >>>
  guard (is_some (Cmd.Process c))
    (New "exec: StdoutPipe after process started") >>>
  guard (Cmd.stdoutPipeUsed c) (New "exec: StdoutPipe already called") >>>
  modify (fun c => Cmd.set_stdoutPipeUsed c true) >>>
  match pipe with
  | inl text => fail (Foreign text)
  | inr (pr, pw) =>
      modify (fun c => Cmd.set_Stdout c (Some (W_File pw))) >>>
      modify (fun c => Cmd.set_childIOFiles c (Cmd.childIOFiles c ++ [pw])) >>>
      modify (fun c => Cmd.set_parentIOPipes c (Cmd.parentIOPipes c ++ [pr])) >>>
      ret pr
  end.

(** [func (c *Cmd) StderrPipe() (io.ReadCloser, error)] *)
Definition StderrPipe (pipe : string + (File * File)) : M File :=
  c <-- get ;;
  guard (is_some (Cmd.Stderr c)) (New "exec: Stderr already set") >>>
  guard (is_some (Cmd.Process c))
    (New "exec: StderrPipe after process started") >>>
  guard (Cmd.stderrPipeUsed c) (New "exec: StderrPipe already called") >>>
  modify (fun c => Cmd.set_stderrPipeUsed c true) >>>
  match pipe with
  | inl text => fail (Foreign text)
  | inr (pr, pw) =>
      modify (fun c => Cmd.set_Stderr c (Some (W_File pw))) >>>
      modify (fun c => Cmd.set_childIOFiles c (Cmd.childIOFiles c ++ [pw])) >>>
      modify (fun c => Cmd.set_parentIOPipes c (Cmd.parentIOPipes c ++ [pr])) >>>
      ret pr
  end.

(* ================================================================== *)
(** * errors.go: messages and wrapped errors                           *)
(* ================================================================== *)

Section ErrorText.
(** [syscall.Signal.String] and [syscall.Errno.Error], whose tables
    belong to the Go runtime. *)
Variable sigName : Z -> string.
Variable errnoText : Z -> string.

(** The method [Error() string] of the error values: of the package's
    variables and types as errors.go has them, of [os.ErrInvalid] and
    [os.ErrPermission] as package [os] has them. *)
Fixpoint Error_text (e : error) : string :=
  match e with
  | ErrNotFound => "executable file not found in $PATH"
  | ErrDot => "cannot run executable found relative to current directory"
  | ErrWaitDelay => "exec: WaitDelay expired before I/O complete"
  | ErrInvalid => "invalid argument"
  | ErrPermission => "permission denied"
  | New text => text
  | Errno n => errnoText n
  | Foreign text => text
  | LookupError name err => "exec: " ++ name ++ ": " ++ Error_text err
  | wrappedError prefix err => prefix ++ Error_text err
  | ExitErr ee => ExitError.Error sigName ee
  end%string.
End ErrorText.

(** The method [Unwrap() error] of [*Error] and [*wrappedError]; the
    other errors have none. *)
Definition Unwrap (e : error) : option error :=
  match e with
  | LookupError _ err => Some err
  | wrappedError _ err => Some err
  | _ => None
  end.

(* ================================================================== *)
(** * Definitions used by the statements                               *)
(* ================================================================== *)

(** Shape of every saver built from [new n], [0 <= n], by [Write]. *)
Definition wf (w : Saver.prefixSuffixSaver) : Prop :=
  0 <= Saver.N w /\ len (Saver.prefix w) <= Saver.N w
  /\ len (Saver.suffix w) <= Saver.N w /\ 0 <= Saver.suffixOff w
  /\ (Saver.suffixOff w = 0
      \/ (Saver.suffixOff w < Saver.N w /\ len (Saver.suffix w) = Saver.N w))
  /\ Saver.skipped w < 9223372036854775808.

(** The number of dropped bytes as the specification words it: the
    bytes that are neither among the first [n] nor among the last [n]
    written. *)
Definition spec_dropped (n : Z) (written : list byte) : Z :=
  Z.max 0 (len written - 2 * n).

(** The rendering as the specification words it: the first [n] bytes
    written; the marker with the dropped count, present when a byte was
    dropped; the most recent [n] bytes written, in write order. *)
Definition spec_Bytes (n : Z) (written : list byte) : outcome (list byte) :=
  let pre := firstn (Z.to_nat n) written in
  let rest := skipn (Z.to_nat n) written in
  let dropped := spec_dropped n written in
  if dropped >? 0 then
    digits <- Saver.itoa dropped ;;
    Ret (pre ++ Saver.omitting digits ++ skipn (Z.to_nat dropped) rest)
  else Ret (pre ++ rest).

(** A command that no Start has touched: not started, no copy task
    registered, and what is stored as lookup failure is not an exit
    failure ([Command] stores only what [LookPath] returns). *)
Definition fresh (c : Cmd.t) : Prop :=
  Cmd.Process c = None /\ Cmd.goroutine c = []
  /\ forall ee, Cmd.lookPathErr c <> Some (ExitErr ee).

(** The number of copy tasks [setupStdin] registers. *)
Definition stdin_tasks (c : Cmd.t) : nat :=
  match Cmd.Stdin c with
  | Some (R_Other _) => 1%nat
  | _ => 0%nat
  end.


(** [c'] is [c] with other [childIOFiles] and with more tasks. *)
Definition io_frame (c c' : Cmd.t) : Prop :=
  exists files tasks,
    c' = Cmd.set_goroutine (Cmd.set_childIOFiles c files)
           (Cmd.goroutine c ++ tasks).

(** A step that changes nothing but [childIOFiles] and [goroutine]. *)
Definition io_only {A : Type} (m : M A) : Prop :=
  forall c c' r, m c = (c', r) -> io_frame c c'.

(** Steps that leave the command as it is. *)
Definition pure_step {A : Type} (m : M A) : Prop :=
  forall c c' r, m c = (c', r) -> c' = c.

(** The errors of a step are not exit failures. *)
Definition not_exit (e : error) : Prop := forall ee, e <> ExitErr ee.

Definition fails_plainly {A : Type} (m : M A) : Prop :=
  forall c c' e, m c = (c', inl e) -> not_exit e.


(** The candidate [LookPath] tries for an entry of [$PATH]. *)
Definition candidate (file dir : string) : string :=
  filepath.Join (if String.eqb dir "" then "."%string else dir) file.

(** The candidate passes [findExecutable]. *)
Definition passes (fs : FS) (path : string) : bool :=
  match findExecutable fs path with
  | None => true
  | Some _ => false
  end.

(** The last [n] elements of a list (all of it when it is shorter). *)
Definition lastn {A : Type} (n : Z) (l : list A) : list A :=
  skipn (Z.to_nat (len l - n)) l.

(** The ring buffer of a saver read in write order: from the offset to
    the end, then from the start to the offset. *)
Definition ring_view (w : Saver.prefixSuffixSaver) : list byte :=
  skipn (Z.to_nat (Saver.suffixOff w)) (Saver.suffix w)
    ++ firstn (Z.to_nat (Saver.suffixOff w)) (Saver.suffix w).

(** The ring of [w] holds the last [N] bytes of [rest], and its offset
    stays 0 until the ring is full. *)
Definition ring_holds (w : Saver.prefixSuffixSaver) (rest : list byte) : Prop :=
  ring_view w = lastn (Saver.N w) rest
  /\ 0 <= Saver.suffixOff w < Saver.N w
  /\ (len (Saver.suffix w) < Saver.N w -> Saver.suffixOff w = 0).

(** [w] is a saver of capacity [n] that keeps the first [n] bytes of
    [all] as its prefix and the last [n] of the others in its ring. *)
Definition retains (n : Z) (w : Saver.prefixSuffixSaver) (all : list byte)
  : Prop :=
  Saver.N w = n
  /\ Saver.prefix w = firstn (Z.to_nat n) all
  /\ ring_holds w (skipn (Z.to_nat n) all).

(** [w] is a saver of capacity [n] that holds all of [all]: no byte was
    dropped, and the ring has not been written through its offset. *)
Definition holds_all (n : Z) (w : Saver.prefixSuffixSaver) (all : list byte)
  : Prop :=
  Saver.N w = n
  /\ Saver.prefix w = firstn (Z.to_nat n) all
  /\ Saver.suffix w = skipn (Z.to_nat n) all
  /\ Saver.suffixOff w = 0 /\ Saver.skipped w = 0.

(** The value of a string of decimal digits. *)
Definition digit_value (b : byte) : Z := Z.of_N (Byte.to_N b) - 48.

Definition digits_value (ds : list byte) : Z :=
  fold_left (fun acc b => acc * 10 + digit_value b) ds 0.

Definition is_digit (b : byte) : Prop := 0 <= digit_value b <= 9.

(** The streams of [c] for which [Start] creates a pipe and a copy
    task: those that are set to something other than a file, stderr
    counting only when it is not the writer of stdout. *)
Definition piped_streams (c : Cmd.t) : nat :=
  (match Cmd.Stdin c with Some (R_Other _) => 1 | _ => 0 end
   + match Cmd.Stdout c with Some (W_Obj _) => 1 | _ => 0 end
   + match Cmd.Stderr c with
     | Some (W_Obj b) =>
         match Cmd.Stdout c with
         | Some (W_Obj a) => if (b =? a)%nat then 0 else 1
         | _ => 1
         end
     | _ => 0
     end)%nat.

(** [e] is reached from [err] by calls of [Unwrap]. *)
Inductive unwraps_to (e : error) : error -> Prop :=
| unwraps_here : unwraps_to e e
| unwraps_next err inner :
    Unwrap err = Some inner -> unwraps_to e inner -> unwraps_to e err.

(** Every error of the step [m] satisfies [P]. *)
Definition fails_in {A : Type} (P : error -> Prop) (m : M A) : Prop :=
  forall c c' e, m c = (c', inl e) -> P e.

(** A failed call of a C helper: its return code, which is not 0. *)
Definition errno_error (e : error) : Prop := exists r, e = Errno r /\ r <> 0.

(** What a stream setup fails with: a return code, or the error of
    [os.Pipe]. *)
Definition setup_error (e : error) : Prop :=
  errno_error e \/ exists text, e = Foreign text.

(** The errors [Start] returns on darwin, by the place they come from. *)
Inductive StartError (os : Darwin.SpawnOS) (c : Cmd.t) : error -> Prop :=
| SE_lookup e :
    Cmd.lookPathErr c = Some e -> StartError os c e
| SE_started :
    StartError os c (New "exec: already started")
| SE_finished :
    StartError os c (New "exec: already finished")
| SE_context text :
    Darwin.ctx_Err os = Some text -> StartError os c (Foreign text)
| SE_errno e :                  (* file actions, extra files, chdir, attributes *)
    errno_error e -> StartError os c e
| SE_stream inner :             (* wrapError("exec: ", err) *)
    setup_error inner -> StartError os c (wrappedError "exec: " inner)
| SE_chdir :
    StartError os c (New "exec: setting Dir requires macOS 10.15+")
| SE_spawn r :                  (* &Error{Name: c.Path, Err: errno} *)
    r <> 0 -> StartError os c (LookupError (Cmd.Path c) (Errno r)).

(** A bare file name: not empty and without a path separator. *)
Definition bare (name : string) : Prop :=
  name <> ""%string /\ filepath.contains_slash name = false.

(* ================================================================== *)
(** * Sample inputs                                                    *)
(* ================================================================== *)

Definition usage0 : Rusage :=
  {| Utime := {| Sec := 0; Usec := 0 |};
     Stime := {| Sec := 0; Usec := 0 |};
     counters := [] |}.

(** A file system in which nothing can be looked up. *)
Definition no_files : FS :=
  {| PATH := "/bin"%string; Stat := fun _ => inl ErrPermission |}.

(** A working directory that holds a named pipe [x] with mode 0755,
    searched through the relative entry ["."] of [$PATH]. *)
Definition pipe_in_cwd : FS :=
  {| PATH := "."%string;
     Stat := fun p => if String.eqb p "x"
                      then inr (Z.lor FileMode.ModeNamedPipe 493)
                      else inl (Foreign "no such file or directory") |}.

(** Five bytes written in two calls, the second one wrapping around a
    ring of two bytes. *)
Definition five_bytes : list (list byte) :=
  [["a"; "b"; "c"; "d"]; ["e"]]%byte.

(** A reap that reports exit code [code] for every pid. *)
Definition reap_exit (code : Z) : Z -> wait4_result :=
  fun pid => wait4_ok pid (WaitStatus.of_exit code) usage0.

(** A file system with a shell in [/bin]. *)
Definition shell_fs : FS :=
  {| PATH := "/bin"%string;
     Stat := fun p => if String.eqb p "/bin/sh" then inr 493
                      else inl (Foreign "no such file or directory") |}.

(** [Command("sh", "-c", "echo out; echo err >&2; exit 3")] *)
Definition shell_cmd : Cmd.t :=
  Command shell_fs "sh"%string ["-c"; "echo out; echo err >&2; exit 3"]%string.

(** A launch in which every call succeeds, the child gets pid 4242,
    writes "out" and a newline to stdout, "err" and a newline to stderr,
    and exits with code 3; both copy tasks have finished when Wait takes
    the lock. *)
Definition shell_world : DarwinWorld :=
  {| spawn :=
       {| Darwin.ctx_Err := None;
          Darwin.Environ := ["HOME=/"%string];
          Darwin.init_file_actions := 0;
          Darwin.add_open_action := fun _ => 0;
          Darwin.add_dup2_action := fun _ _ => 0;
          Darwin.os_Pipe := fun fd =>
            inr ({| file_id := Z.to_nat (10 + 2 * fd); Fd := 10 + 2 * fd |},
                 {| file_id := Z.to_nat (11 + 2 * fd); Fd := 11 + 2 * fd |});
          Darwin.has_chdir_np := true;
          Darwin.add_chdir_action := fun _ => 0;
          Darwin.init_spawnattr := 0;
          Darwin.do_posix_spawn := fun _ _ _ => (0, 4242) |};
     wait4 := reap_exit 3;
     runs := [Some {| chunks := [["o"; "u"; "t"; "010"]%byte]; io_err := None |};
              Some {| chunks := [["e"; "r"]; ["r"; "010"]]%byte; io_err := None |}]
  |}.

(** The same system, except that [posix_spawn] fails with ENOENT (2). *)
Definition enoent_spawn : Darwin.SpawnOS :=
  {| Darwin.ctx_Err := None;
     Darwin.Environ := ["HOME=/"%string];
     Darwin.init_file_actions := 0;
     Darwin.add_open_action := fun _ => 0;
     Darwin.add_dup2_action := fun _ _ => 0;
     Darwin.os_Pipe := Darwin.os_Pipe (spawn shell_world);
     Darwin.has_chdir_np := true;
     Darwin.add_chdir_action := fun _ => 0;
     Darwin.init_spawnattr := 0;
     Darwin.do_posix_spawn := fun _ _ _ => (2, 0) |}.

(** A command given by a struct literal with a path that does not
    exist, and with two distinct writers of the caller for stdout and
    stderr. *)
Definition literal_cmd : Cmd.t :=
  Cmd.mk "/no/such"%string [] None ""%string None (Some (W_Obj 0))
    (Some (W_Obj 1)) [] None None 0 None None None None false [] [] [] []
    false false false None.

(** The same launch seen through the host library of the fallback
    build. *)
Definition shell_host : OtherWorld :=
  {| host :=
       {| Other.ctx_Err := None;
          Other.host_Start := fun _ _ => inr 4242;
          Other.host_Wait :=
            Other.host_exit_error
              (ProcessState.mk 4242 (WaitStatus.of_exit 3) (Some usage0)) |};
     host_out := {| chunks := [["o"; "u"; "t"; "010"]%byte]; io_err := None |};
     host_err := {| chunks := [["e"; "r"]; ["r"; "010"]]%byte; io_err := None |}
  |}.

(** A command with a working directory and with an open file as second
    extra file, the first entry being nil. *)
Definition extra_cmd : Cmd.t :=
  Cmd.mk "/bin/sh"%string ["sh"%string] None "/tmp"%string None None None
    [None; Some {| file_id := 9; Fd := 9 |}] None None 0 None None None None
    false [] [] [] [] false false false None.

(** A command as it is after a successful [Start] with pid 77, one copy
    task of which has recorded a broken pipe. *)
Definition started77 : Cmd.t :=
  Cmd.mk "/bin/false"%string ["false"%string] None ""%string None None None
    [] None None 0 (Some (Process.mk 77)) None None None false [] []
    [copy_stdout {| file_id := 5; Fd := 5 |}]
    [Some (Foreign "write: broken pipe")] false false false None.

(* ================================================================== *)
(** * Facts about slices                                               *)
(* ================================================================== *)

Section SliceFacts.
Context {A : Type}.
Implicit Types s t : list A.

Lemma len_nonneg s : 0 <= len s.
Proof. unfold len; lia. Qed.

Lemma len_nil : len (@nil A) = 0.
Proof. reflexivity. Qed.

Lemma len_app s t : len (s ++ t) = len s + len t.
Proof. unfold len; rewrite length_app; lia. Qed.

Lemma len_firstn s k : 0 <= k -> len (firstn (Z.to_nat k) s) = Z.min k (len s).
Proof. intros Hk; unfold len; rewrite length_firstn; lia. Qed.

Lemma len_skipn s k : 0 <= k -> len (skipn (Z.to_nat k) s) = Z.max 0 (len s - k).
Proof. intros Hk; unfold len; rewrite length_skipn; lia. Qed.

Lemma len_zero_nil s : len s = 0 -> s = [].
Proof. destruct s; [reflexivity | unfold len; simpl; lia]. Qed.

Lemma slice_from_ok s lo :
  0 <= lo <= len s -> slice_from s lo = Ret (skipn (Z.to_nat lo) s).
Proof.
  intros H; unfold slice_from.
  destruct (lo <? 0) eqn:E1; [apply Z.ltb_lt in E1; lia |].
  destruct (len s <? lo) eqn:E2; [apply Z.ltb_lt in E2; lia | reflexivity].
Qed.

Lemma slice_to_ok s hi :
  0 <= hi <= len s -> slice_to s hi = Ret (firstn (Z.to_nat hi) s).
Proof.
  intros H; unfold slice_to.
  destruct (hi <? 0) eqn:E1; [apply Z.ltb_lt in E1; lia |].
  destruct (len s <? hi) eqn:E2; [apply Z.ltb_lt in E2; lia | reflexivity].
Qed.

Lemma copy_at_ok (buf : list A) off (src : list A) :
  0 <= off <= len buf ->
  copy_at buf off src =
    let n := Z.min (len buf - off) (len src) in
    Ret (firstn (Z.to_nat off) buf ++ firstn (Z.to_nat n) src
           ++ skipn (Z.to_nat n) (skipn (Z.to_nat off) buf), n).
Proof.
  intros H; unfold copy_at. rewrite slice_from_ok by assumption. simpl.
  rewrite len_skipn by lia.
  replace (Z.max 0 (len buf - off)) with (len buf - off) by lia.
  reflexivity.
Qed.
End SliceFacts.

(* ================================================================== *)
(** * prefixSuffixSaver: Write never fails                             *)
(* ================================================================== *)

Section SaverTotal.
Import Saver.

Lemma wf_new n : 0 <= n -> wf (new n).
Proof. intros H; unfold wf, new, len; simpl; lia. Qed.

Lemma wrap64_below z : wrap64 z < 9223372036854775808.
Proof.
  unfold wrap64. pose proof (Z.mod_pos_bound (z + 2 ^ 63) (2 ^ 64)) as H.
  change (2 ^ 63) with 9223372036854775808 in *.
  change (2 ^ 64) with 18446744073709551616 in *. lia.
Qed.

Lemma fill_ok w dst p :
  len dst <= N w ->
  let k := Z.min (len p) (N w - len dst) in
  fill w dst p = Ret (dst ++ firstn (Z.to_nat k) p, skipn (Z.to_nat k) p).
Proof.
  intros H k; unfold fill.
  pose proof (len_nonneg p) as Hp.
  destruct (N w - len dst >? 0) eqn:E.
  - apply Z.gtb_lt in E. fold k.
    rewrite slice_to_ok by lia. simpl.
    rewrite slice_from_ok by lia. reflexivity.
  - assert (k = 0) as -> by (rewrite Z.gtb_ltb in E; apply Z.ltb_ge in E; lia).
    simpl. rewrite app_nil_r. reflexivity.
Qed.

(** One turn of the loop on a full ring buffer. *)
Lemma Write_loop_step fuel w p :
  0 < len p -> len (suffix w) = N w -> 0 <= suffixOff w < N w ->
  Write_loop (S fuel) w p =
    let n := Z.min (N w - suffixOff w) (len p) in
    let suf := firstn (Z.to_nat (suffixOff w)) (suffix w)
                 ++ firstn (Z.to_nat n) p
                 ++ skipn (Z.to_nat n) (skipn (Z.to_nat (suffixOff w)) (suffix w)) in
    let off := if suffixOff w + n =? N w then 0 else suffixOff w + n in
    Write_loop fuel (mk (N w) (prefix w) suf off (skipped w))
      (skipn (Z.to_nat n) p).
Proof.
  intros Hp Hs Ho. simpl.
  destruct (len p >? 0) eqn:E; [| rewrite Z.gtb_ltb in E; apply Z.ltb_ge in E; lia].
  rewrite copy_at_ok by lia. rewrite Hs. simpl.
  rewrite slice_from_ok by lia. simpl.
  destruct (suffixOff w + Z.min (N w - suffixOff w) (len p) =? N w); reflexivity.
Qed.

Lemma Write_loop_done fuel w p : len p = 0 -> Write_loop fuel w p = Ret w.
Proof.
  intros H. destruct fuel; simpl; rewrite H; reflexivity.
Qed.

Lemma Write_loop_ok fuel w p :
  (2 <= fuel)%nat -> wf w ->
  len p = 0 \/ (len p <= N w /\ len (suffix w) = N w) ->
  exists w', Write_loop fuel w p = Ret w' /\ wf w'.
Proof.
  intros Hf Hw [Hz | [Hp Hs]].
  { exists w. split; [apply Write_loop_done; assumption | assumption]. }
  destruct (Z.eq_dec (len p) 0) as [Hz | Hnz].
  { exists w. split; [apply Write_loop_done; assumption | assumption]. }
  pose proof (len_nonneg p) as Hp0.
  destruct Hw as (HN & Hpre & _ & Ho & Hoff).
  assert (0 <= suffixOff w < N w) as Hrange by lia.
  destruct fuel as [| [| fuel]]; try lia.
  rewrite Write_loop_step by lia. cbv zeta.
  set (n := Z.min (N w - suffixOff w) (len p)).
  set (suf := _ ++ _ ++ _).
  assert (len suf = N w) as Hsuf.
  { unfold suf. rewrite !len_app, !len_firstn, !len_skipn by lia. lia. }
  destruct (Z.le_gt_cases (len p) (N w - suffixOff w)) as [Hfit | Hwrap].
  - (* the input fits behind the offset: one turn *)
    rewrite Write_loop_done by (rewrite len_skipn by lia; lia).
    eexists; split; [reflexivity |].
    unfold wf; simpl. rewrite Hsuf.
    destruct (suffixOff w + n =? N w) eqn:E; lia.
  - (* the input wraps around: a second turn from offset 0 *)
    assert (n = N w - suffixOff w) as Hn by lia.
    replace (suffixOff w + n =? N w) with true by (symmetry; apply Z.eqb_eq; lia).
    rewrite Write_loop_step; simpl; rewrite ?len_skipn; try lia.
    rewrite Write_loop_done.
    2:{ rewrite len_skipn by (rewrite ?len_skipn; lia). rewrite len_skipn by lia. lia. }
    eexists; split; [reflexivity |].
    unfold wf; simpl.
    rewrite !len_app, !len_firstn, !len_skipn; rewrite ?len_skipn; try lia.
    simpl. rewrite Hsuf.
    destruct (Z.min (N w - 0) (Z.max 0 (len p - n)) =? N w) eqn:E;
      [apply Z.eqb_eq in E | apply Z.eqb_neq in E]; lia.
Qed.

(** The second half of [Write]: filling the suffix, then the ring. *)
Lemma Write_rest_ok fuel w p (lenp : Z) :
  (2 <= fuel)%nat -> wf w -> len p <= N w ->
  exists w',
    ('(suf, p3) <- fill w (suffix w) p ;;
     w4 <- Write_loop fuel (set_suffix w suf) p3 ;;
     Ret (w4, (lenp, @None string))) = Ret (w', (lenp, None)) /\ wf w'.
Proof.
  intros Hf Hw Hp. pose proof Hw as (HN & Hpre & Hsuf & Ho & Hoff).
  pose proof (len_nonneg p) as Hp0.
  rewrite fill_ok by assumption. simpl.
  set (j := Z.min (len p) (N w - len (suffix w))).
  destruct (Write_loop_ok fuel
              (set_suffix w (suffix w ++ firstn (Z.to_nat j) p))
              (skipn (Z.to_nat j) p)) as (w' & Hloop & Hw'); try assumption.
  - unfold wf; simpl. rewrite len_app, len_firstn by lia.
    repeat split; try lia.
  - simpl. rewrite len_skipn, len_app, len_firstn by lia. lia.
  - rewrite Hloop. simpl. exists w'. split; [reflexivity | assumption].
Qed.

Lemma Write_ok fuel w p :
  (2 <= fuel)%nat -> wf w ->
  exists w', Write fuel w p = Ret (w', (len p, None)) /\ wf w'.
Proof.
  intros Hf Hw. pose proof Hw as (HN & Hpre & Hsuf & Ho & Hoff).
  pose proof (len_nonneg p) as Hp0.
  unfold Write. rewrite fill_ok by assumption. cbn [bind].
  set (k := Z.min (len p) (N w - len (prefix w))).
  set (p1 := skipn (Z.to_nat k) p).
  assert (len p1 = len p - k) as Hp1 by (unfold p1; rewrite len_skipn by lia; lia).
  set (pre := prefix w ++ firstn (Z.to_nat k) p).
  assert (len pre <= N w) as Hpre'.
  { unfold pre. rewrite len_app, len_firstn by lia. lia. }
  cbn [N skipped set_prefix].
  destruct (len p1 - N w >? 0) eqn:E.
  - apply Z.gtb_lt in E. rewrite slice_from_ok by lia. cbn [bind].
    pose proof (wrap64_below (skipped w + (len p1 - N w))) as Hwrap.
    apply (Write_rest_ok fuel (set_skipped (set_prefix w pre) _) _ (len p));
      [assumption | unfold wf; simpl; lia |].
    simpl. rewrite len_skipn by lia. lia.
  - rewrite Z.gtb_ltb in E; apply Z.ltb_ge in E. cbn [bind].
    apply (Write_rest_ok fuel (set_prefix w pre) p1 (len p));
      [assumption | unfold wf; simpl; lia | simpl; lia].
Qed.

Lemma Writes_ok fuel ps : forall w,
  (2 <= fuel)%nat -> wf w -> exists w', Writes fuel w ps = Ret w' /\ wf w'.
Proof.
  induction ps as [| p ps IH]; intros w Hf Hw; simpl.
  - exists w; split; [reflexivity | assumption].
  - destruct (Write_ok fuel w p Hf Hw) as (w1 & -> & Hw1). simpl.
    apply IH; assumption.
Qed.
End SaverTotal.

(* ================================================================== *)
(** * ProcessState: decoding of the wait status                        *)
(* ================================================================== *)

Section StatusFacts.

Lemma Exited_ExitStatus w :
  WaitStatus.ExitStatus w =
    if WaitStatus.Exited w then Z.shiftr w 8 else -1.
Proof.
  unfold WaitStatus.ExitStatus, WaitStatus.Exited, WaitStatus.shift.
  destruct (Z.land w WaitStatus.mask =? WaitStatus.exited); reflexivity.
Qed.

Lemma Signaled_not_Exited w :
  WaitStatus.Signaled w = true -> WaitStatus.Exited w = false.
Proof.
  unfold WaitStatus.Signaled, WaitStatus.Exited, WaitStatus.exited.
  destruct (Z.land w WaitStatus.mask =? 0); [| reflexivity].
  rewrite andb_false_r. discriminate.
Qed.




End StatusFacts.

(** C9.  A [ProcessState] is successful exactly when the process exited
    normally with exit code 0: [Success] implies [Exited] and
    [ExitCode() = 0], and a status that describes termination by a signal
    is never successful. *)
Theorem Success_iff_exited_zero (p : ProcessState.t) :
  (ProcessState.Success p = true <->
     ProcessState.Exited p = true /\ ProcessState.ExitCode p = 0)
  /\ (ProcessState.Success p = true ->
        ProcessState.Exited p = true /\ ProcessState.ExitCode p = 0)
  /\ (WaitStatus.Signaled (ProcessState.status p) = true ->
        ProcessState.Success p = false).
Proof.
  assert (ProcessState.Success p = true <->
            ProcessState.Exited p = true /\ ProcessState.ExitCode p = 0) as Hiff.
  { unfold ProcessState.Success, ProcessState.Exited, ProcessState.ExitCode.
    rewrite Exited_ExitStatus.
    destruct (WaitStatus.Exited (ProcessState.status p)); simpl.
    - rewrite Z.eqb_eq. tauto.
    - split; [discriminate | intros [H _]; discriminate]. }
  split; [exact Hiff |]. split; [apply Hiff |].
  intros Hsig. apply Signaled_not_Exited in Hsig.
  apply not_true_is_false. intros E.
  apply Hiff in E. destruct E as [E _].
  unfold ProcessState.Exited in E. congruence.
Qed.

Lemma Success_iff_exited_zero_witness :
  ProcessState.Success (ProcessState.mk 7 (WaitStatus.of_signal 9 false) None)
    = false.
Proof.
  apply (Success_iff_exited_zero
           (ProcessState.mk 7 (WaitStatus.of_signal 9 false) None)).
  reflexivity.
Defined.





(* ================================================================== *)
(** * Process: the handle                                              *)
(* ================================================================== *)

(** [Release] stores the sentinel -1. *)
Lemma Release_sentinel (p : Process.t) :
  Process.Pid (fst (Process.Release p)) = -1 /\ snd (Process.Release p) = None.
Proof. split; reflexivity. Qed.

(** On a handle whose id is not positive, [Signal] and [Wait] fail with
    [os.ErrInvalid] and reach neither [kill] nor [wait4]. *)
Lemma invalid_handle_rejected (p : Process.t) kill wait4 sig :
  Process.Pid p <= 0 ->
  Process.Signal kill p sig = Some ErrInvalid
  /\ Process.Wait wait4 p = (p, inl ErrInvalid).
Proof.
  intros H. unfold Process.Signal, Process.Wait.
  destruct (Process.Pid p <=? 0) eqn:E; [split; reflexivity |].
  apply Z.leb_gt in E. lia.
Qed.

Lemma invalid_handle_rejected_witness :
  Process.Signal (fun _ _ => None) (Process.mk (-1))
    (syscall_Signal WaitStatus.SIGKILL) = Some ErrInvalid
  /\ Process.Wait (reap_exit 0) (Process.mk (-1))
     = (Process.mk (-1), inl ErrInvalid).
Proof.
  apply (invalid_handle_rejected (Process.mk (-1))). simpl. lia.
Defined.

(** [Wait] returns the handle as it was given: the id is never replaced. *)
Lemma Process_Wait_handle (p : Process.t) wait4 :
  fst (Process.Wait wait4 p) = p.
Proof.
  unfold Process.Wait. destruct (Process.Pid p <=? 0); [reflexivity |].
  destruct (wait4 (Process.Pid p)); reflexivity.
Qed.

(** C4, at the failing input.  A handle with id 42 whose process is
    reaped by [Wait] still holds 42 afterwards, not a sentinel; a later
    [Signal] on it is not refused with [ErrInvalid] but reaches [kill]
    (here answering ESRCH, errno 3), and a second [Wait] reaches [wait4]
    again (here answering ECHILD, errno 10), where [Release] would have
    stored -1. *)
Theorem Process_Wait_leaves_Pid_positive :
  let usage := Build_Rusage (Build_Timeval 0 0) (Build_Timeval 0 0) [] in
  let reap := fun _ : Z => wait4_ok 42 (WaitStatus.of_exit 0) usage in
  let gone := fun _ : Z => wait4_err 10 in
  let kill := fun _ _ : Z => Some 3 in
  let p := Process.mk 42 in
  let p' := fst (Process.Wait reap p) in
  snd (Process.Wait reap p)
    = inr (ProcessState.mk 42 (WaitStatus.of_exit 0) (Some usage))
  /\ Process.Pid p' = 42
  /\ Process.Signal kill p' (syscall_Signal WaitStatus.SIGKILL) = Some (Errno 3)
  /\ Process.Wait gone p' = (p', inl (Errno 10))
  /\ Process.Pid (fst (Process.Release p)) = -1.
Proof. cbv zeta. repeat split. Qed.

(* ================================================================== *)
(** * Wait: which failure is returned                                  *)
(* ================================================================== *)

(** C2.  On a started command whose Wait has not been called, a failure
    of the reap (invalid handle, or an error of wait4) is returned
    whatever else is recorded; otherwise an unsuccessful exit status is
    returned as an exit failure whatever the copy tasks recorded; and the
    first recorded copy error is returned only when the reap succeeded
    and the status is successful.  On the fallback build the exit failure
    of the host is returned as an exit failure. *)
Theorem Wait_precedence (wait4 : Z -> wait4_result) (c : Cmd.t) (p : Process.t) :
  Cmd.Process c = Some p ->
  Cmd.finished c = false ->
  (Process.Pid p <= 0 -> snd (Darwin.Wait wait4 c) = Some ErrInvalid)
  /\ (forall errno, 0 < Process.Pid p ->
        wait4 (Process.Pid p) = wait4_err errno ->
        snd (Darwin.Wait wait4 c) = Some (Errno errno))
  /\ (forall pid status usage, 0 < Process.Pid p ->
        wait4 (Process.Pid p) = wait4_ok pid status usage ->
        let state := ProcessState.mk pid status (Some usage) in
        (ProcessState.Success state = false ->
           snd (Darwin.Wait wait4 c) = Some (ExitErr (ExitError.mk state [])))
        /\ (ProcessState.Success state = true ->
              snd (Darwin.Wait wait4 c) = first_error (Cmd.goroutineErr c)))
  /\ (forall (os : Other.HostOS) (hc : hostCmd) (state : ProcessState.t),
        Cmd.osCmd c = Some hc ->
        Other.host_Wait os = Other.host_exit_error state ->
        snd (Other.Wait os c) = Some (ExitErr (ExitError.mk state []))).
Proof.
  intros HP Hfin.
  assert (forall r, snd (Process.Wait wait4 p) = r ->
            snd (Darwin.Wait wait4 c) =
              match r with
              | inl err => Some err
              | inr state =>
                  if negb (ProcessState.Success state)
                  then Some (ExitErr (ExitError.mk state []))
                  else first_error (Cmd.goroutineErr c)
              end) as HW.
  { intros r <-. unfold Darwin.Wait. rewrite HP, Hfin.
    destruct (Process.Wait wait4 p) as [p' [err | state]]; simpl; [reflexivity |].
    destruct (negb (ProcessState.Success state)); [reflexivity |].
    destruct (first_error (Cmd.goroutineErr c)); reflexivity. }
  split; [| split; [| split]].
  - intros Hle. apply (HW (inl ErrInvalid)).
    unfold Process.Wait. destruct (Process.Pid p <=? 0) eqn:E; [reflexivity |].
    apply Z.leb_gt in E. lia.
  - intros errno Hpos Hw. apply (HW (inl (Errno errno))).
    unfold Process.Wait. destruct (Process.Pid p <=? 0) eqn:E;
      [apply Z.leb_le in E; lia |]. rewrite Hw. reflexivity.
  - intros pid status usage Hpos Hw state.
    assert (snd (Process.Wait wait4 p) = inr state) as Hr.
    { unfold Process.Wait. destruct (Process.Pid p <=? 0) eqn:E;
        [apply Z.leb_le in E; lia |]. rewrite Hw. reflexivity. }
    split; intros Hs; rewrite (HW _ Hr), Hs; reflexivity.
  - intros os hc state Hos Hhw. unfold Other.Wait.
    rewrite HP, Hfin. simpl. rewrite Hos, Hhw. reflexivity.
Qed.

Lemma Wait_precedence_witness :
  snd (Darwin.Wait (reap_exit 1) started77)
  = Some (ExitErr
            (ExitError.mk
               (ProcessState.mk 77 (WaitStatus.of_exit 1) (Some usage0)) [])).
Proof.
  destruct (Wait_precedence (reap_exit 1) started77 (Process.mk 77)
              eq_refl eq_refl) as (_ & _ & H & _).
  apply (H 77 (WaitStatus.of_exit 1) usage0); reflexivity.
Defined.

(* ================================================================== *)
(** * Start: what it changes                                           *)
(* ================================================================== *)

Section StartFacts.

Lemma io_frame_refl c : io_frame c c.
Proof.
  exists (Cmd.childIOFiles c), []. destruct c; unfold Cmd.set_goroutine,
    Cmd.set_childIOFiles; simpl. rewrite app_nil_r. reflexivity.
Qed.

Lemma io_frame_trans c1 c2 c3 : io_frame c1 c2 -> io_frame c2 c3 -> io_frame c1 c3.
Proof.
  intros (f1 & t1 & ->) (f2 & t2 & ->). exists f2, (t1 ++ t2).
  destruct c1; unfold Cmd.set_goroutine, Cmd.set_childIOFiles; simpl.
  rewrite app_assoc. reflexivity.
Qed.

Lemma io_ret {A} (a : A) : io_only (ret a).
Proof. intros c c' r [= <- _]. apply io_frame_refl. Qed.

Lemma io_fail {A} e : io_only (@fail A e).
Proof. intros c c' r [= <- _]. apply io_frame_refl. Qed.

Lemma io_guard b e : io_only (guard b e).
Proof. destruct b; [apply io_fail | apply io_ret]. Qed.

Lemma io_check r : io_only (check r).
Proof. apply io_guard. Qed.

Lemma io_bind {A B} (m : M A) (k : A -> M B) :
  io_only m -> (forall a, io_only (k a)) -> io_only (bindM m k).
Proof.
  intros Hm Hk c c' r H. unfold bindM in H.
  destruct (m c) as [c1 [e | a]] eqn:E.
  - injection H as <- _. eapply Hm, E.
  - eapply io_frame_trans; [eapply Hm, E | eapply Hk, H].
Qed.

Lemma io_get_bind {B} (k : Cmd.t -> M B) :
  (forall a, io_only (k a)) -> io_only (bindM get k).
Proof. intros Hk c c' r H. eapply Hk, H. Qed.

Lemma io_wrapped {A} (m : M A) : io_only m -> io_only (Darwin.wrapped m).
Proof.
  intros Hm c c' r H. unfold Darwin.wrapped in H.
  destruct (m c) as [c1 [e | a]] eqn:E; injection H as <- _; eapply Hm, E.
Qed.

Lemma io_add_file f :
  io_only (modify (fun c => Cmd.set_childIOFiles c (Cmd.childIOFiles c ++ [f]))).
Proof.
  intros c c' r [= <- _]. exists (Cmd.childIOFiles c ++ [f]), [].
  destruct c; unfold Cmd.set_goroutine, Cmd.set_childIOFiles; simpl.
  rewrite app_nil_r. reflexivity.
Qed.

Lemma io_add_task t :
  io_only (modify (fun c => Cmd.set_goroutine c (Cmd.goroutine c ++ [t]))).
Proof.
  intros c c' r [= <- _]. exists (Cmd.childIOFiles c), [t].
  destruct c; reflexivity.
Qed.

Ltac io_step :=
  lazymatch goal with
  | |- io_only (bindM get _) => apply io_get_bind; intros ?; cbv beta
  | |- io_only (bindM _ _) => apply io_bind; [| intros ?; cbv beta]
  | |- io_only (ret _) => apply io_ret
  | |- io_only (fail _) => apply io_fail
  | |- io_only (guard _ _) => apply io_guard
  | |- io_only (check _) => apply io_check
  | |- io_only (Darwin.wrapped _) => apply io_wrapped
  | |- io_only (modify (fun c => Cmd.set_childIOFiles c (_ ++ _))) =>
      apply io_add_file
  | |- io_only (modify (fun c => Cmd.set_goroutine c _)) => apply io_add_task
  | |- io_only (match ?x with _ => _ end) => destruct x
  end.

Lemma io_setupStdin os : io_only (Darwin.setupStdin os).
Proof. unfold Darwin.setupStdin. repeat io_step. Qed.

Lemma io_setupStdout os : io_only (Darwin.setupStdout os).
Proof. unfold Darwin.setupStdout. repeat io_step. Qed.

Lemma io_setupStderr os : io_only (Darwin.setupStderr os).
Proof. unfold Darwin.setupStderr. repeat io_step. Qed.

Lemma io_setupExtraFiles os files : forall i, io_only (Darwin.setupExtraFiles os i files).
Proof.
  induction files as [| [f |] files IH]; intros i; simpl.
  - apply io_ret.
  - apply io_bind; [apply io_check | intros _; apply IH].
  - apply IH.
Qed.

Lemma io_Start_spawn os : io_only (Darwin.Start_spawn os).
Proof.
  unfold Darwin.Start_spawn.
  repeat first [ apply io_setupStdin | apply io_setupStdout
               | apply io_setupStderr | apply io_setupExtraFiles | io_step ].
Qed.

(** A spawn is attempted only on a command without stored lookup
    failure, never started and never waited for. *)
Lemma Start_spawn_guards os c c' pid :
  Darwin.Start_spawn os c = (c', inr pid) ->
  Cmd.lookPathErr c = None /\ Cmd.Process c = None /\ Cmd.finished c = false.
Proof.
  unfold Darwin.Start_spawn, bindM at 1, get.
  destruct (Cmd.lookPathErr c); [discriminate |].
  destruct (Cmd.Process c); [discriminate |].
  destruct (Cmd.finished c); [discriminate |].
  auto.
Qed.

(** The guards of [Start], in their order. *)
Lemma Start_stored_failure os c e :
  Cmd.lookPathErr c = Some e -> Darwin.Start os c = (c, Some e).
Proof.
  intros H. unfold Darwin.Start, run, Darwin.Start_body, bindM at 1,
    Darwin.Start_spawn, bindM at 1, get. rewrite H. reflexivity.
Qed.

Lemma Start_already_started os c p :
  Cmd.lookPathErr c = None -> Cmd.Process c = Some p ->
  Darwin.Start os c = (c, Some (New "exec: already started")).
Proof.
  intros H1 H2. unfold Darwin.Start, run, Darwin.Start_body, bindM at 1,
    Darwin.Start_spawn, bindM at 1, get. rewrite H1, H2. reflexivity.
Qed.

Lemma Start_success os c c' :
  Darwin.Start os c = (c', None) ->
  exists c1 pid,
    Darwin.Start_spawn os c = (c1, inr pid) /\ io_frame c c1
    /\ c' = Cmd.set_goroutineErr
              (Cmd.set_Process (Cmd.set_childIOFiles c1 []) (Some (Process.mk pid)))
              (map (fun _ => None) (Cmd.goroutine c1)).
Proof.
  unfold Darwin.Start, run, Darwin.Start_body, bindM at 1.
  destruct (Darwin.Start_spawn os c) as [c1 [e | pid]] eqn:E; [discriminate |].
  intros H. exists c1, pid. split; [reflexivity |].
  split; [eapply io_Start_spawn, E |].
  cbv in H. injection H as <-. destruct c1; reflexivity.
Qed.

Lemma Start_failure os c c' e :
  Darwin.Start os c = (c', Some e) ->
  Darwin.Start_spawn os c = (c', inl e) /\ io_frame c c'.
Proof.
  unfold Darwin.Start, run, Darwin.Start_body, bindM at 1.
  destruct (Darwin.Start_spawn os c) as [c1 [e1 | pid]] eqn:E.
  - intros [= <- <-]. split; [reflexivity | eapply io_Start_spawn, E].
  - cbv. discriminate.
Qed.

Lemma io_frame_fields c c' :
  io_frame c c' ->
  Cmd.Process c' = Cmd.Process c /\ Cmd.lookPathErr c' = Cmd.lookPathErr c
  /\ Cmd.finished c' = Cmd.finished c /\ Cmd.Stdin c' = Cmd.Stdin c
  /\ Cmd.Stdout c' = Cmd.Stdout c /\ Cmd.Stderr c' = Cmd.Stderr c
  /\ Cmd.goroutineErr c' = Cmd.goroutineErr c
  /\ Cmd.osCmd c' = Cmd.osCmd c /\ Cmd.Path c' = Cmd.Path c
  /\ Cmd.Args c' = Cmd.Args c.
Proof. intros (f & t & ->). destruct c; repeat split. Qed.

End StartFacts.

(* ================================================================== *)
(** * Misuse of Start and Wait                                         *)
(* ================================================================== *)

Lemma Command_not_started fs name arg : Cmd.Process (Command fs name arg) = None.
Proof.
  unfold Command. destruct (String.eqb (filepath.Base name) name); [| reflexivity].
  destruct (LookPath fs name) as [lp [err |]]; reflexivity.
Qed.

Lemma Other_Start_cases os c c' r :
  Other.Start os c = Ret (c', r) ->
  match r with
  | None => Cmd.lookPathErr c = None /\ Cmd.Process c = None
            /\ exists pid, c' = Cmd.set_osCmd
                                  (Cmd.set_Process c (Some (Process.mk pid)))
                                  (Some {| host_pid := pid |})
  | Some _ => c' = c
  end.
Proof.
  intros H. unfold Other.Start in H.
  destruct (Cmd.lookPathErr c); [injection H as <- <-; reflexivity |].
  destruct (Cmd.Process c); simpl in H; [injection H as <- <-; reflexivity |].
  destruct (Cmd.finished c); [injection H as <- <-; reflexivity |].
  destruct (Cmd.ctx c); [destruct (Other.ctx_Err os) |];
    try (injection H as <- <-; reflexivity).
  all: destruct (slice_from (Cmd.Args c) 1) as [args | |]; simpl in H;
    try discriminate.
  all: destruct (Other.host_Start os (Cmd.Path c) args); injection H as <- <-;
    [reflexivity | repeat split; eexists; reflexivity].
Qed.

(** C5.  On both builds: a Start after a successful Start fails with
    "exec: already started"; a command is not started until a Start
    succeeds, and Wait on a command that is not started fails with
    "exec: not started"; a Wait after a first Wait of a started command
    fails with "exec: Wait was already called". *)
Theorem lifecycle_misuse :
  (forall os os' c c',
      Darwin.Start os c = (c', None) ->
      Darwin.Start os' c' = (c', Some (New "exec: already started")))
  /\ (forall os os' c c',
        Other.Start os c = Ret (c', None) ->
        Other.Start os' c' = Ret (c', Some (New "exec: already started")))
  /\ (forall fs name arg, Cmd.Process (Command fs name arg) = None)
  /\ (forall os c c' e,
        Darwin.Start os c = (c', Some e) -> Cmd.Process c' = Cmd.Process c)
  /\ (forall os c c' e,
        Other.Start os c = Ret (c', Some e) -> Cmd.Process c' = Cmd.Process c)
  /\ (forall wait4 c,
        Cmd.Process c = None ->
        Darwin.Wait wait4 c = (c, Some (New "exec: not started")))
  /\ (forall os c,
        Cmd.Process c = None ->
        Other.Wait os c = (c, Some (New "exec: not started")))
  /\ (forall wait4 wait4' c p c1 e1,
        Cmd.Process c = Some p ->
        Darwin.Wait wait4 c = (c1, e1) ->
        Darwin.Wait wait4' c1 = (c1, Some (New "exec: Wait was already called")))
  /\ (forall os os' c p c1 e1,
        Cmd.Process c = Some p ->
        Other.Wait os c = (c1, e1) ->
        Other.Wait os' c1 = (c1, Some (New "exec: Wait was already called"))).
Proof.
  repeat match goal with |- _ /\ _ => split end.
  - intros os os' c c' H.
    destruct (Start_success os c c' H) as (c1 & pid & Hs & Hf & ->).
    destruct (Start_spawn_guards _ _ _ _ Hs) as (Hl & _ & _).
    destruct (io_frame_fields _ _ Hf) as (_ & Hl1 & _).
    apply Start_already_started with (p := Process.mk pid).
    + destruct c1; simpl in *. congruence.
    + destruct c1; reflexivity.
  - intros os os' c c' H. apply Other_Start_cases in H.
    destruct H as (Hl & _ & pid & ->).
    unfold Other.Start. destruct c; simpl in *. rewrite Hl. reflexivity.
  - apply Command_not_started.
  - intros os c c' e H. apply Start_failure in H. destruct H as [_ H].
    apply io_frame_fields in H. apply H.
  - intros os c c' e H. apply Other_Start_cases in H. subst. reflexivity.
  - intros wait4 c H. unfold Darwin.Wait. rewrite H. reflexivity.
  - intros os c H. unfold Other.Wait. rewrite H. reflexivity.
  - intros wait4 wait4' c p c1 e1 HP H. unfold Darwin.Wait in H.
    rewrite HP in H.
    assert (Cmd.Process c1 <> None /\ Cmd.finished c1 = true) as [H1 H2].
    { destruct (Cmd.finished c) eqn:Ef.
      - injection H as <- _. rewrite HP. split; [discriminate | assumption].
      - destruct (Process.Wait wait4 p) as [p' [err | state]].
        + injection H as <- _. destruct c; split; [discriminate | reflexivity].
        + destruct (negb (ProcessState.Success state)).
          * injection H as <- _. destruct c; split; [discriminate | reflexivity].
          * destruct (first_error _); injection H as <- _;
              destruct c; split; (discriminate || reflexivity). }
    unfold Darwin.Wait. destruct (Cmd.Process c1); [| congruence].
    rewrite H2. reflexivity.
  - intros os os' c p c1 e1 HP H. unfold Other.Wait in H.
    rewrite HP in H.
    assert (Cmd.Process c1 <> None /\ Cmd.finished c1 = true) as [H1 H2].
    { destruct (Cmd.finished c) eqn:Ef.
      - injection H as <- _. rewrite HP. split; [discriminate | assumption].
      - destruct c; simpl in *.
        destruct osCmd; [| injection H as <- _; split; [subst; discriminate | reflexivity]].
        destruct (Other.host_Wait os) as [[st |] | st | text [st |]];
          injection H as <- _; split; subst; (discriminate || reflexivity). }
    unfold Other.Wait. destruct (Cmd.Process c1); [| congruence].
    rewrite H2. reflexivity.
Qed.

Lemma lifecycle_misuse_witness :
  Darwin.Wait (reap_exit 0) (Command no_files "ls"%string [])
  = (Command no_files "ls"%string [], Some (New "exec: not started")).
Proof.
  destruct lifecycle_misuse as (_ & _ & Hfresh & _ & _ & Hwait & _).
  apply Hwait, Hfresh.
Defined.

(* ================================================================== *)
(** * Command                                                          *)
(* ================================================================== *)

Section BaseFacts.

Lemma contains_slash_chars (s : string) :
  filepath.contains_slash s = false ->
  forall c, In c (list_ascii_of_string s) -> filepath.is_sep c = false.
Proof.
  induction s as [| a s IH]; simpl; intros H c Hin; [contradiction |].
  apply orb_false_elim in H. destruct H as [Ha Hs].
  destruct Hin as [<- | Hin]; [assumption | apply IH; assumption].
Qed.

Lemma strip_slashes_id (r : list ascii) :
  (forall c, In c r -> filepath.is_sep c = false) -> filepath.strip_slashes r = r.
Proof.
  destruct r as [| c r]; simpl; intros H; [reflexivity |].
  rewrite (H c) by (left; reflexivity). reflexivity.
Qed.

Lemma last_element_id (r : list ascii) :
  (forall c, In c r -> filepath.is_sep c = false) -> filepath.last_element r = r.
Proof.
  induction r as [| c r IH]; simpl; intros H; [reflexivity |].
  rewrite (H c) by (left; reflexivity).
  rewrite IH by (intros d Hd; apply H; right; assumption). reflexivity.
Qed.

(** [filepath.Base] is the identity on bare names. *)
Lemma Base_bare (name : string) : bare name -> filepath.Base name = name.
Proof.
  intros [Hne Hns]. unfold filepath.Base.
  destruct (String.eqb_spec name ""%string) as [-> | _]; [congruence |].
  assert (forall c, In c (rev (list_ascii_of_string name)) ->
                    filepath.is_sep c = false) as Hrev.
  { intros c Hc. apply in_rev in Hc. eapply contains_slash_chars; eassumption. }
  rewrite strip_slashes_id, last_element_id by assumption.
  rewrite rev_involutive, string_of_list_ascii_of_string.
  destruct (String.eqb_spec name ""%string) as [-> | _]; [congruence |].
  reflexivity.
Qed.

End BaseFacts.

(** C6.  Command always returns a command whose Args[0] is the name as
    given.  For a bare name whose lookup fails, the failure is stored
    and the command keeps the name as Path; Start, and so Run, return
    that failure and leave the command as it is, on both builds.  For a
    bare name whose lookup succeeds, Path is the resolved path and
    Args[0] is still the name. *)
Theorem Command_defers_lookup_failure
    (fs : FS) (name : string) (arg : list string) :
  let c := Command fs name arg in
  Cmd.Args c = name :: arg
  /\ hd_error (Cmd.Args c) = Some name
  /\ (bare name -> forall lp e,
        LookPath fs name = (lp, Some e) ->
        Cmd.lookPathErr c = Some e /\ Cmd.Path c = name
        /\ (forall os, Darwin.Start os c = (c, Some e))
        /\ (forall os, Other.Start os c = Ret (c, Some e))
        /\ (forall fuel w h, Darwin_Run fuel w (c, h) = Ret ((c, h), Some e))
        /\ (forall fuel w h, Other_Run fuel w (c, h) = Ret ((c, h), Some e)))
  /\ (bare name -> forall lp,
        LookPath fs name = (lp, None) ->
        Cmd.Path c = lp /\ Cmd.lookPathErr c = None
        /\ hd_error (Cmd.Args c) = Some name).
Proof.
  cbv zeta.
  assert (Cmd.Args (Command fs name arg) = name :: arg) as HA.
  { unfold Command. destruct (String.eqb (filepath.Base name) name); [| reflexivity].
    destruct (LookPath fs name) as [lp [err |]]; reflexivity. }
  split; [exact HA |]. split; [rewrite HA; reflexivity |]. split.
  - intros Hb lp e HL.
    assert (Cmd.lookPathErr (Command fs name arg) = Some e
            /\ Cmd.Path (Command fs name arg) = name) as [Hl Hp].
    { unfold Command. rewrite (Base_bare name Hb), String.eqb_refl, HL.
      split; reflexivity. }
    assert (forall os, Darwin.Start os (Command fs name arg)
                       = (Command fs name arg, Some e)) as HD
      by (intros os; apply Start_stored_failure, Hl).
    assert (forall os, Other.Start os (Command fs name arg)
                       = Ret (Command fs name arg, Some e)) as HO
      by (intros os; unfold Other.Start; rewrite Hl; reflexivity).
    split; [exact Hl |]. split; [exact Hp |].
    split; [exact HD |]. split; [exact HO |]. split.
    + intros fuel w h. unfold Darwin_Run, Run, Darwin_Start.
      rewrite HD. reflexivity.
    + intros fuel w h. unfold Other_Run, Run, Other_Start.
      rewrite HO. reflexivity.
  - intros Hb lp HL. rewrite HA.
    unfold Command. rewrite (Base_bare name Hb), String.eqb_refl, HL.
    split; [reflexivity |]. split; reflexivity.
Qed.

Lemma Command_defers_lookup_failure_witness :
  Cmd.lookPathErr (Command no_files "ls"%string ["-l"%string])
  = Some (LookupError "ls" ErrNotFound)
  /\ Cmd.Path (Command no_files "ls"%string ["-l"%string]) = "ls"%string.
Proof.
  destruct (Command_defers_lookup_failure no_files "ls"%string ["-l"%string])
    as (_ & _ & H & _).
  assert (bare "ls"%string) as Hb by (split; [discriminate | reflexivity]).
  assert (LookPath no_files "ls"%string
          = (""%string, Some (LookupError "ls" ErrNotFound))) as HL
    by reflexivity.
  destruct (H Hb _ _ HL) as (H1 & H2 & _).
  split; assumption.
Defined.

(* ================================================================== *)
(** * LookPath                                                         *)
(* ================================================================== *)

(** For a name without separator, [LookPath] returns the candidate of
    the first entry of [$PATH] whose candidate passes [findExecutable],
    entries after it are not looked at; the result carries [ErrDot]
    exactly when that candidate is not absolute and is a regular file
    with an execute bit; without a passing candidate the result is
    [ErrNotFound]. *)
Theorem LookPath_first_match (fs : FS) (file : string) :
  filepath.contains_slash file = false ->
  LookPath fs file =
    match find (fun dir => passes fs (candidate file dir))
               (filepath.SplitList (PATH fs)) with
    | Some dir =>
        let path := candidate file dir in
        (path,
         if negb (filepath.IsAbs path) && isExecutable fs path
         then Some (LookupError file ErrDot) else None)
    | None => (""%string, Some (LookupError file ErrNotFound))
    end.
Proof.
  intros Hns. unfold LookPath. rewrite Hns.
  induction (filepath.SplitList (PATH fs)) as [| dir dirs IH]; simpl;
    [reflexivity |].
  unfold passes at 1. fold (candidate file dir).
  destruct (findExecutable fs (candidate file dir)); [exact IH |].
  destruct (negb (filepath.IsAbs (candidate file dir))
            && isExecutable fs (candidate file dir)); reflexivity.
Qed.

Lemma LookPath_first_match_witness :
  LookPath shell_fs "sh" = ("/bin/sh"%string, None).
Proof.
  rewrite (LookPath_first_match shell_fs "sh" eq_refl). reflexivity.
Defined.

(** C3, at the failing input.  With [$PATH] set to ["."] and a named
    pipe [x] of mode 0755 in the working directory, the candidate [x]
    passes [findExecutable] and is not absolute, yet [LookPath] returns
    it with a nil error: [isExecutable] rejects what is not a regular
    file, so no [ErrDot] is attached. *)
Theorem LookPath_relative_pipe_plain_success :
  filepath.contains_slash "x" = false
  /\ filepath.SplitList (PATH pipe_in_cwd) = ["."%string]
  /\ filepath.Join "." "x" = "x"%string
  /\ findExecutable pipe_in_cwd "x" = None
  /\ filepath.IsAbs "x" = false
  /\ isExecutable pipe_in_cwd "x" = false
  /\ LookPath pipe_in_cwd "x" = ("x"%string, None).
Proof. repeat split. Qed.

(* ================================================================== *)
(** * prefixSuffixSaver: the skipped counter                           *)
(* ================================================================== *)

(** C1, at the failing input.  With capacity 2, after writing "abcd"
    and then "e", the saver holds prefix "ab" and the ring "ed" with
    offset 1, and its counter is still 0 although "c" was dropped: the
    loop that overwrites the ring does not count.  [Bytes] then returns
    "abed", with no marker and the suffix out of write order, where the
    specification asks for "ab", the marker for 1 byte, "de". *)
Theorem Saver_ring_overwrite_not_counted :
  Saver.Writes 2 (Saver.new 2) five_bytes
    = Ret (Saver.mk 2 ["a"; "b"] ["e"; "d"] 1 0)%byte
  /\ spec_dropped 2 (List.concat five_bytes) = 1
  /\ Saver.Bytes (Saver.mk 2 ["a"; "b"] ["e"; "d"] 1 0)%byte
     = Ret ["a"; "b"; "e"; "d"]%byte
  /\ spec_Bytes 2 (List.concat five_bytes)
     = Ret (["a"; "b"] ++ Saver.omitting ["1"] ++ ["d"; "e"])%byte.
Proof. repeat split. Qed.

(* ================================================================== *)
(** * prefixSuffixSaver: no write fails                                *)
(* ================================================================== *)

Lemma copy_to_saver_ok fuel cs : forall s,
  (2 <= fuel)%nat -> wf s ->
  exists s', copy_to_saver fuel s cs = Ret (s', None)
             /\ Saver.Writes fuel s cs = Ret s' /\ wf s'.
Proof.
  induction cs as [| p cs IH]; intros s Hf Hs; simpl.
  - exists s. split; [reflexivity |]. split; [reflexivity | assumption].
  - destruct (Write_ok fuel s p Hf Hs) as (s1 & -> & Hs1). simpl.
    rewrite Z.eqb_refl. apply IH; assumption.
Qed.

(** C10.  For every capacity [n >= 0], in every state reached from the
    new saver by writes, and for every input, Write returns the full
    length of the input and a nil error (two turns of its loop suffice);
    a copier that writes chunk after chunk into the saver never meets a
    write error or a short write. *)
Theorem Write_total (n : Z) (ps : list (list byte)) (p : list byte) (fuel : nat) :
  0 <= n -> (2 <= fuel)%nat ->
  exists w w',
    Saver.Writes fuel (Saver.new n) ps = Ret w
    /\ Saver.Write fuel w p = Ret (w', (len p, None))
    /\ forall cs, exists w'', copy_to_saver fuel w cs = Ret (w'', None).
Proof.
  intros Hn Hf.
  destruct (Writes_ok fuel ps (Saver.new n) Hf (wf_new n Hn)) as (w & HW & Hw).
  destruct (Write_ok fuel w p Hf Hw) as (w' & HW' & _).
  exists w, w'. split; [exact HW |]. split; [exact HW' |].
  intros cs. destruct (copy_to_saver_ok fuel cs w Hf Hw) as (w'' & H & _).
  exists w''. exact H.
Qed.

Lemma Write_total_witness :
  exists w w',
    Saver.Writes 2 (Saver.new 2) five_bytes = Ret w
    /\ Saver.Write 2 w ["f"; "g"; "h"]%byte = Ret (w', (3, None))
    /\ forall cs, exists w'', copy_to_saver 2 w cs = Ret (w'', None).
Proof.
  apply (Write_total 2 five_bytes ["f"; "g"; "h"]%byte 2); lia.
Defined.

(* ================================================================== *)
(** * Output: what is returned and what is captured                    *)
(* ================================================================== *)

Section OutputFacts.

Lemma bindM_inr {A B} (m : M A) (k : A -> M B) c c' b :
  bindM m k c = (c', inr b) ->
  exists c1 a, m c = (c1, inr a) /\ k a c1 = (c', inr b).
Proof.
  unfold bindM. destruct (m c) as [c1 [e | a]]; [discriminate |].
  intros H. exists c1, a. split; [reflexivity | exact H].
Qed.

Lemma guard_inr b e c c' u :
  guard b e c = (c', inr u) -> c' = c /\ b = false.
Proof. destruct b; simpl; [discriminate |]. intros [= <- _]. auto. Qed.

Lemma check_inr r c c' u : check r c = (c', inr u) -> c' = c.
Proof. intros H. apply guard_inr in H. apply H. Qed.

Lemma wrapped_inr {A} (m : M A) c c' a :
  Darwin.wrapped m c = (c', inr a) -> m c = (c', inr a).
Proof.
  unfold Darwin.wrapped. destruct (m c) as [c1 [e | a1]]; [discriminate |].
  intros H. exact H.
Qed.

Lemma pure_ret {A} (a : A) : pure_step (ret a).
Proof. intros c c' r [= <- _]. reflexivity. Qed.

Lemma pure_fail {A} e : pure_step (@fail A e).
Proof. intros c c' r [= <- _]. reflexivity. Qed.

Lemma pure_guard b e : pure_step (guard b e).
Proof. destruct b; [apply pure_fail | apply pure_ret]. Qed.

Lemma pure_bind {A B} (m : M A) (k : A -> M B) :
  pure_step m -> (forall a, pure_step (k a)) -> pure_step (bindM m k).
Proof.
  intros Hm Hk c c' r H. unfold bindM in H.
  destruct (m c) as [c1 [e | a]] eqn:E.
  - injection H as <- _. eapply Hm, E.
  - apply Hk in H. apply Hm in E. congruence.
Qed.

Lemma pure_setupExtraFiles os files : forall i,
  pure_step (Darwin.setupExtraFiles os i files).
Proof.
  induction files as [| [f |] files IH]; intros i; simpl.
  - apply pure_ret.
  - apply pure_bind; [apply pure_guard | intros _; apply IH].
  - apply IH.
Qed.




Lemma pure_after_streams os c path args env :
  pure_step
    (Darwin.setupExtraFiles os 0 (Cmd.ExtraFiles c) >>>
     (if negb (String.eqb (Cmd.Dir c) "") then
        guard (negb (Darwin.has_chdir_np os))
          (New "exec: setting Dir requires macOS 10.15+") >>>
        check (Darwin.add_chdir_action os (Cmd.Dir c))
      else ret tt) >>>
     check (Darwin.init_spawnattr os) >>>
     (let '(r, pid) := Darwin.do_posix_spawn os path args env in
      guard (negb (r =? 0)) (LookupError (Cmd.Path c) (Errno r)) >>>
      ret pid)).
Proof.
  apply pure_bind; [apply pure_setupExtraFiles | intros _].
  apply pure_bind.
  { destruct (negb (String.eqb (Cmd.Dir c) "")); [| apply pure_ret].
    apply pure_bind; [apply pure_guard | intros _; apply pure_guard]. }
  intros _. apply pure_bind; [apply pure_guard | intros _].
  destruct (Darwin.do_posix_spawn os path args env) as [r pid].
  apply pure_bind; [apply pure_guard | intros _; apply pure_ret].
Qed.





Lemma fp_modify f : fails_plainly (modify f).
Proof. intros c c' e H. discriminate. Qed.






Lemma not_exit_as_ExitError e : not_exit e -> as_ExitError e = None.
Proof.
  intros H. destruct e; try reflexivity. exfalso. eapply H. reflexivity.
Qed.




(** Memory: the two objects [Output] allocates behind the heap [h]. *)
Lemma heap_nth_first (h : Heap) x y : nth_error (h ++ [x; y]) (List.length h) = Some x.
Proof. rewrite nth_error_app2, Nat.sub_diag by lia. reflexivity. Qed.

Lemma heap_nth_second (h : Heap) x y :
  nth_error (h ++ [x; y]) (S (List.length h)) = Some y.
Proof.
  rewrite nth_error_app2 by lia.
  replace (S (List.length h) - List.length h)%nat with 1%nat by lia. reflexivity.
Qed.

Lemma heap_set_here (h : Heap) x t x' :
  heap_set (h ++ x :: t) (List.length h) x' = h ++ x' :: t.
Proof.
  unfold heap_set. induction h as [| a h IH]; simpl; [reflexivity |].
  f_equal. exact IH.
Qed.

Lemma heap_set_first (h : Heap) x y x' :
  heap_set (h ++ [x; y]) (List.length h) x' = h ++ [x'; y].
Proof. apply heap_set_here. Qed.

Lemma heap_set_second (h : Heap) x y y' :
  heap_set (h ++ [x; y]) (S (List.length h)) y' = h ++ [x; y'].
Proof.
  replace (h ++ [x; y]) with ((h ++ [x]) ++ [y]) by (rewrite <- app_assoc; reflexivity).
  replace (S (List.length h)) with (List.length (h ++ [x]))
    by (rewrite length_app; simpl; lia).
  rewrite heap_set_here, <- app_assoc. reflexivity.
Qed.





(** [itoa] has room for every number below 10^20. *)
Lemma itoa_loop_ok bp : forall i acc,
  i < 10 ^ Z.of_nat bp -> exists ds, Saver.itoa_loop bp i acc = Ret ds.
Proof.
  induction bp as [| bp IH]; intros i acc Hi; simpl Saver.itoa_loop.
  - destruct (i >? 0) eqn:E; [| eexists; reflexivity].
    apply Z.gtb_lt in E. simpl in Hi. lia.
  - destruct (i >? 0) eqn:E; [| eexists; reflexivity].
    apply Z.gtb_lt in E. apply IH.
    rewrite Z.quot_div_nonneg by lia.
    apply Z.div_lt_upper_bound; [lia |].
    rewrite Nat2Z.inj_succ, Z.pow_succ_r in Hi by lia. exact Hi.
Qed.

(** [Bytes] returns on every saver built by [Write]. *)
Lemma Bytes_ok (w : Saver.prefixSuffixSaver) :
  wf w -> exists bs, Saver.Bytes w = Ret bs.
Proof.
  intros (HN & Hpre & Hsuf & Ho & Hoff & Hsk). unfold Saver.Bytes.
  destruct (Saver.suffix w) as [| x suf] eqn:Es; [eexists; reflexivity |].
  destruct (Saver.skipped w =? 0); [eexists; reflexivity |].
  destruct (itoa_loop_ok 20 (Saver.skipped w) []) as (ds & Hds).
  { change (10 ^ Z.of_nat 20) with 100000000000000000000. lia. }
  unfold Saver.itoa. rewrite Hds. cbn [bind].
  rewrite <- Es in *. pose proof (len_nonneg (Saver.suffix w)) as Hlen.
  rewrite slice_from_ok by lia. cbn [bind].
  rewrite slice_to_ok by lia. cbn [bind].
  eexists; reflexivity.
Qed.







End OutputFacts.



(** The sample launch, computed: Output returns "out" and the newline,
    and an exit failure with code 3 whose Stderr is "err" and the
    newline. *)
Example Output_sample :
  exists st,
    Darwin_Output 2 shell_world (shell_cmd, [])
    = Ret (st, (["o"; "u"; "t"; "010"]%byte,
                Some (ExitErr
                        (ExitError.mk
                           (ProcessState.mk 4242 (WaitStatus.of_exit 3) (Some usage0))
                           ["e"; "r"; "r"; "010"]%byte)))).
Proof. eexists. vm_compute. reflexivity. Qed.

(* ================================================================== *)
(** * Lists: windows and rings                                         *)
(* ================================================================== *)

Section Retention.
Context {A : Type}.
Implicit Types a b l : list A.

Lemma skipn_past a b k : skipn (List.length a + k) (a ++ b) = skipn k b.
Proof.
  rewrite skipn_app, skipn_all2 by lia.
  replace (List.length a + k - List.length a)%nat with k by lia. reflexivity.
Qed.

Lemma firstn_past a b k : firstn (List.length a + k) (a ++ b) = a ++ firstn k b.
Proof.
  rewrite firstn_app, firstn_all2 by lia.
  replace (List.length a + k - List.length a)%nat with k by lia. reflexivity.
Qed.

Lemma skipn_within a b k :
  (k <= List.length a)%nat -> skipn k (a ++ b) = skipn k a ++ b.
Proof.
  intros H. rewrite skipn_app.
  replace (k - List.length a)%nat with 0%nat by lia. reflexivity.
Qed.

Lemma to_nat_len l : Z.to_nat (len l) = List.length l.
Proof. unfold len. apply Nat2Z.id. Qed.

Lemma lastn_short (n : Z) l : len l <= n -> lastn n l = l.
Proof.
  intros H. unfold lastn. replace (Z.to_nat (len l - n)) with 0%nat by lia.
  reflexivity.
Qed.

Lemma lastn_app_long (n : Z) a b : n <= len b -> lastn n (a ++ b) = lastn n b.
Proof.
  intros H. unfold lastn. rewrite len_app.
  destruct (Z.le_gt_cases 0 n) as [Hn | Hn].
  - replace (Z.to_nat (len a + len b - n))
      with (List.length a + Z.to_nat (len b - n))%nat by (unfold len in *; lia).
    apply skipn_past.
  - pose proof (len_nonneg a). pose proof (len_nonneg b).
    rewrite !skipn_all2; [reflexivity | unfold len in *; lia |].
    rewrite length_app. unfold len in *; lia.
Qed.

Lemma len_lastn (n : Z) l : 0 <= n -> len (lastn n l) = Z.min n (len l).
Proof.
  intros H. unfold lastn. pose proof (len_nonneg l).
  destruct (Z.le_gt_cases (len l) n).
  - replace (Z.to_nat (len l - n)) with 0%nat by lia. simpl. lia.
  - rewrite len_skipn by lia. lia.
Qed.

Lemma lastn_lastn_app (n : Z) a b :
  0 <= n -> lastn n (lastn n a ++ b) = lastn n (a ++ b).
Proof.
  intros Hn. pose proof (len_nonneg a). pose proof (len_nonneg b).
  destruct (Z.le_gt_cases (len a) n) as [Ha | Ha].
  - rewrite (lastn_short n a Ha). reflexivity.
  - assert (len (lastn n a) = n) as Hl by (rewrite len_lastn by lia; lia).
    unfold lastn at 1 3. rewrite !len_app, Hl.
    replace (Z.to_nat (n + len b - n)) with (Z.to_nat (len b)) by lia.
    replace (Z.to_nat (len a + len b - n))
      with (Z.to_nat (len b) + Z.to_nat (len a - n))%nat by lia.
    rewrite <- skipn_skipn.
    rewrite (skipn_within a b) by (unfold len in *; lia). reflexivity.
Qed.

Lemma skipn_exact a b : skipn (List.length a) (a ++ b) = b.
Proof.
  rewrite <- (Nat.add_0_r (List.length a)), skipn_past. reflexivity.
Qed.

Lemma firstn_exact a b : firstn (List.length a) (a ++ b) = a.
Proof.
  rewrite <- (Nat.add_0_r (List.length a)), firstn_past. simpl.
  apply app_nil_r.
Qed.

(** Writing [d] into a full ring [B1 ++ B2] at offset [length B1],
    without wrapping: the view from the new offset drops the oldest
    [length d] elements and ends with [d]. *)
Lemma view_fit (B1 B2 d : list A) :
  (List.length d <= List.length B2)%nat ->
  let suf := B1 ++ d ++ skipn (List.length d) B2 in
  skipn (List.length B1 + List.length d) suf
    ++ firstn (List.length B1 + List.length d) suf
  = skipn (List.length d) (B2 ++ B1) ++ d.
Proof.
  intros H suf. unfold suf.
  rewrite skipn_past, firstn_past, skipn_exact, firstn_exact.
  rewrite skipn_within by lia.
  rewrite <- !app_assoc. reflexivity.
Qed.

(** The same write when it fills the ring to its end and the offset
    returns to 0. *)
Lemma view_fit_end (B1 B2 d : list A) :
  List.length d = List.length B2 ->
  B1 ++ d ++ skipn (List.length d) B2
  = skipn (List.length d) (B2 ++ B1) ++ d.
Proof.
  intros H. rewrite H, skipn_exact, skipn_all. rewrite app_nil_r. reflexivity.
Qed.

(** A write that wraps around: [d1] fills the ring to its end, [d2] is
    written from offset 0. *)
Lemma view_wrap (B1 B2 d1 d2 : list A) :
  List.length d1 = List.length B2 ->
  (List.length d2 <= List.length B1)%nat ->
  let suf1 := B1 ++ d1 ++ skipn (List.length d1) B2 in
  let suf2 := d2 ++ skipn (List.length d2) suf1 in
  skipn (List.length d2) suf2 ++ firstn (List.length d2) suf2
  = skipn (List.length (d1 ++ d2)) (B2 ++ B1) ++ d1 ++ d2.
Proof.
  intros H1 H2 suf1 suf2. unfold suf2, suf1.
  rewrite skipn_exact, firstn_exact.
  rewrite H1, skipn_all, app_nil_r.
  rewrite skipn_within by lia.
  rewrite length_app, H1, skipn_past.
  rewrite <- !app_assoc. reflexivity.
Qed.

Lemma lastn_app_lastn (n : Z) a b :
  0 <= n -> lastn n (a ++ lastn n b) = lastn n (a ++ b).
Proof.
  intros Hn. destruct (Z.le_gt_cases (len b) n) as [Hb | Hb].
  - rewrite (lastn_short n b Hb). reflexivity.
  - assert (len (lastn n b) = n) as Hl by (rewrite len_lastn by lia; lia).
    rewrite !lastn_app_long by lia. apply lastn_short. lia.
Qed.

(** Pushing [d] behind a full window of [n] elements. *)
Lemma lastn_push (n : Z) (v d : list A) :
  len v = n -> len d <= n -> skipn (List.length d) v ++ d = lastn n (v ++ d).
Proof.
  intros Hv Hd. unfold lastn. rewrite len_app, Hv.
  replace (Z.to_nat (n + len d - n)) with (List.length d)
    by (unfold len; lia).
  rewrite skipn_within by (unfold len in *; lia). reflexivity.
Qed.

Lemma firstn_min l k : firstn (Nat.min (List.length l) k) l = firstn k l.
Proof.
  destruct (Nat.le_gt_cases k (List.length l)) as [H | H].
  - rewrite Nat.min_r by lia. reflexivity.
  - rewrite Nat.min_l by lia. rewrite firstn_all, firstn_all2 by lia.
    reflexivity.
Qed.

Lemma skipn_min l k : skipn (Nat.min (List.length l) k) l = skipn k l.
Proof.
  destruct (Nat.le_gt_cases k (List.length l)) as [H | H].
  - rewrite Nat.min_r by lia. reflexivity.
  - rewrite Nat.min_l by lia. rewrite skipn_all, skipn_all2 by lia.
    reflexivity.
Qed.

(** What [fill] takes of [p] for a prefix that is the first [n] elements
    of [a], and what it leaves. *)
Lemma fill_split (n : Z) a p :
  let k := Z.to_nat (Z.min (len p) (n - len (firstn (Z.to_nat n) a))) in
  firstn (Z.to_nat n) a ++ firstn k p = firstn (Z.to_nat n) (a ++ p)
  /\ skipn (Z.to_nat n) a ++ skipn k p = skipn (Z.to_nat n) (a ++ p).
Proof.
  intros k.
  assert (k = Nat.min (List.length p)
                (Z.to_nat n - List.length (firstn (Z.to_nat n) a))) as ->
    by (unfold k, len; lia).
  rewrite firstn_min, skipn_min, firstn_app, skipn_app, length_firstn.
  split; f_equal; f_equal; lia.
Qed.

End Retention.

(** One call of the loop of [Write] on a full ring: the ring, read in
    write order, loses its oldest bytes and ends with the bytes written;
    nothing else changes, the counter included. *)
Lemma ring_write fuel w d :
  (2 <= fuel)%nat -> len (Saver.suffix w) = Saver.N w ->
  0 <= Saver.suffixOff w < Saver.N w -> len d <= Saver.N w ->
  exists w',
    Saver.Write_loop fuel w d = Ret w'
    /\ Saver.N w' = Saver.N w /\ Saver.prefix w' = Saver.prefix w
    /\ Saver.skipped w' = Saver.skipped w
    /\ len (Saver.suffix w') = Saver.N w
    /\ 0 <= Saver.suffixOff w' < Saver.N w
    /\ ring_view w' = skipn (List.length d) (ring_view w) ++ d.
Proof.
  intros Hf HB Ho Hd. destruct w as [N pre B off sk]. simpl in *.
  pose proof (len_nonneg d) as Hd0.
  destruct (Z.eq_dec (len d) 0) as [Hz | Hnz].
  { rewrite Write_loop_done by assumption.
    apply len_zero_nil in Hz. subst d. eexists. split; [reflexivity |].
    simpl. repeat split; try lia. rewrite app_nil_r. reflexivity. }
  destruct fuel as [| [| fuel]]; try lia.
  rewrite Write_loop_step by (simpl; lia). cbv zeta.
  cbn [Saver.N Saver.prefix Saver.suffix Saver.suffixOff Saver.skipped].
  set (o := Z.to_nat off).
  assert (B = firstn o B ++ skipn o B) as HBs by (symmetry; apply firstn_skipn).
  set (B1 := firstn o B) in *. set (B2 := skipn o B) in *.
  assert (List.length B1 = o) as HB1
    by (unfold B1; rewrite length_firstn; unfold len in *; lia).
  assert (List.length B2 = Z.to_nat (N - off)) as HB2
    by (unfold B2; rewrite length_skipn; unfold len in *; lia).
  unfold ring_view. cbn [Saver.N Saver.prefix Saver.suffix Saver.suffixOff Saver.skipped].
  fold o. fold B1. fold B2.
  destruct (Z.le_gt_cases (len d) (N - off)) as [Hfit | Hwrap].
  - replace (Z.min (N - off) (len d)) with (len d) by lia.
    rewrite to_nat_len, firstn_all.
    rewrite Write_loop_done by (rewrite skipn_all; reflexivity).
    eexists. split; [reflexivity |]. cbn [Saver.N Saver.prefix Saver.suffix Saver.suffixOff Saver.skipped].
    assert (len (B1 ++ d ++ skipn (List.length d) B2) = N) as Hlen.
    { rewrite !len_app. unfold len in *. rewrite length_skipn. lia. }
    destruct (Z.eqb_spec (off + len d) N) as [He | Hne].
    + repeat split; try lia. simpl. rewrite app_nil_r.
      apply view_fit_end. unfold len in *; lia.
    + repeat split; try lia.
      replace (Z.to_nat (off + len d)) with (List.length B1 + List.length d)%nat
        by (unfold len in *; lia).
      apply view_fit. unfold len in *; lia.
  - replace (Z.min (N - off) (len d)) with (N - off) by lia.
    replace (off + (N - off) =? N) with true by (symmetry; apply Z.eqb_eq; lia).
    set (d1 := firstn (Z.to_nat (N - off)) d).
    set (d2 := skipn (Z.to_nat (N - off)) d).
    assert (List.length d1 = List.length B2) as Hd1
      by (unfold d1; rewrite length_firstn; unfold len in *; lia).
    assert (len d2 = len d - (N - off)) as Hd2
      by (unfold d2; rewrite len_skipn by lia; lia).
    assert (len (B1 ++ d1 ++ skipn (Z.to_nat (N - off)) B2) = N) as Hlen1.
    { rewrite !len_app. unfold len in *. rewrite length_skipn. lia. }
    rewrite Write_loop_step by (simpl; lia). cbv zeta.
    cbn [Saver.N Saver.prefix Saver.suffix Saver.suffixOff Saver.skipped].
    replace (Z.min (N - 0) (len d2)) with (len d2) by lia.
    rewrite to_nat_len, firstn_all.
    rewrite Write_loop_done by (rewrite skipn_all; reflexivity).
    eexists. split; [reflexivity |]. cbn [Saver.N Saver.prefix Saver.suffix Saver.suffixOff Saver.skipped].
    replace (0 + len d2) with (len d2) by lia.
    destruct (Z.eqb_spec (len d2) N) as [He | Hne]; [lia |].
    change (Z.to_nat 0) with 0%nat. cbn [firstn skipn app].
    rewrite to_nat_len, <- HB2, <- Hd1.
    assert (d = d1 ++ d2) as Hdd by (symmetry; apply firstn_skipn).
    repeat split; try lia.
    + rewrite Hd1, skipn_all, app_nil_r.
      rewrite !len_app. unfold len in *. rewrite length_skipn, !length_app.
      lia.
    + rewrite Hdd at 1 2.
      apply (view_wrap B1 B2 d1 d2); [exact Hd1 | unfold len in *; lia].
Qed.

(* ================================================================== *)
(** * prefixSuffixSaver: what is retained                              *)
(* ================================================================== *)

Section SaverRetains.
Import Saver.

Lemma len_ring_view w : len (ring_view w) = len (suffix w).
Proof.
  unfold ring_view. rewrite len_app. unfold len.
  rewrite length_skipn, length_firstn. lia.
Qed.

(** The second half of [Write] on the ring: the bytes [p] (at most [N])
    are pushed behind what the ring held. *)
Lemma Write_rest_view fuel w p rest (lenp : Z) :
  (2 <= fuel)%nat -> 0 < N w -> ring_holds w rest -> len p <= N w ->
  exists w',
    ('(suf, p3) <- fill w (suffix w) p ;;
     w4 <- Write_loop fuel (set_suffix w suf) p3 ;;
     Ret (w4, (lenp, @None string))) = Ret (w', (lenp, None))
    /\ N w' = N w /\ prefix w' = prefix w
    /\ ring_holds w' (rest ++ p).
Proof.
  intros Hf HN (Hv & Ho & Hz) Hp.
  pose proof (len_nonneg p) as Hp0. pose proof (len_nonneg rest) as HR0.
  pose proof (len_ring_view w) as Hlv. rewrite Hv, len_lastn in Hlv by lia.
  rewrite fill_ok by lia. cbn [bind].
  set (j := Z.min (len p) (N w - len (suffix w))).
  destruct (Z.eq_dec (len (suffix w)) (N w)) as [Hfull | Hnot].
  - (* the ring is full: everything goes through the loop *)
    replace j with 0 by lia. change (Z.to_nat 0) with 0%nat.
    cbn [firstn skipn]. rewrite app_nil_r.
    destruct (ring_write fuel (set_suffix w (suffix w)) p)
      as (w' & Hl & HN' & Hpre & _ & Hlen & Hoff & Hview);
      try assumption.
    rewrite Hl. cbn [bind]. exists w'.
    split; [reflexivity |]. cbn [N prefix set_suffix] in *.
    split; [assumption |]. split; [assumption |].
    unfold ring_holds. rewrite HN'.
    split; [| split; [assumption | lia]].
    rewrite Hview. unfold ring_view at 1. cbn [suffix suffixOff set_suffix].
    fold (ring_view w). rewrite Hv.
    rewrite (lastn_push (N w)) by (rewrite ?len_lastn by lia; lia).
    apply lastn_lastn_app. lia.
  - (* the ring is still filling up *)
    assert (suffixOff w = 0) as Hoff0 by (apply Hz; lia).
    assert (suffix w = rest) as Hsuf.
    { unfold ring_view in Hv. rewrite Hoff0 in Hv.
      change (Z.to_nat 0) with 0%nat in Hv. cbn [firstn skipn] in Hv.
      rewrite app_nil_r in Hv. rewrite Hv. apply lastn_short. lia. }
    destruct (Z.le_gt_cases (len p) (N w - len (suffix w))) as [Hfit | Hmore].
    + replace j with (len p) by lia.
      rewrite to_nat_len, firstn_all, skipn_all.
      rewrite Write_loop_done by reflexivity. cbn [bind].
      eexists. split; [reflexivity |]. cbn [N prefix set_suffix].
      split; [reflexivity |]. split; [reflexivity |].
      unfold ring_holds, ring_view. cbn [N suffix suffixOff set_suffix].
      rewrite Hoff0. change (Z.to_nat 0) with 0%nat. cbn [firstn skipn].
      rewrite app_nil_r, Hsuf.
      split; [| split; [lia | reflexivity]].
      symmetry. apply lastn_short. rewrite len_app. lia.
    + replace j with (N w - len (suffix w)) by lia.
      set (m := Z.to_nat (N w - len (suffix w))).
      assert (len (suffix w ++ firstn m p) = N w) as Hlen1.
      { rewrite len_app. unfold m. rewrite len_firstn by lia. lia. }
      assert (len (skipn m p) <= N w) as Hlen2.
      { unfold m. rewrite len_skipn by lia. pose proof (len_nonneg (suffix w)).
        lia. }
      destruct (ring_write fuel (set_suffix w (suffix w ++ firstn m p))
                  (skipn m p))
        as (w' & Hl & HN' & Hpre & _ & Hlen & Hoff & Hview);
        try assumption.
      rewrite Hl. cbn [bind]. exists w'.
      split; [reflexivity |]. cbn [N prefix set_suffix] in *.
      split; [assumption |]. split; [assumption |].
      unfold ring_holds. rewrite HN'.
      split; [| split; [assumption | lia]].
      rewrite Hview. unfold ring_view at 1. cbn [suffix suffixOff set_suffix].
      rewrite Hoff0. change (Z.to_nat 0) with 0%nat. cbn [firstn skipn].
      rewrite app_nil_r.
      rewrite (lastn_push (N w)) by assumption.
      rewrite <- app_assoc, firstn_skipn, Hsuf. reflexivity.
Qed.

(** One [Write]: what is retained follows the bytes written. *)
Lemma Write_retains fuel n w all p :
  (2 <= fuel)%nat -> 0 < n -> retains n w all ->
  exists w',
    Write fuel w p = Ret (w', (len p, None)) /\ retains n w' (all ++ p).
Proof.
  intros Hf Hn (HN & Hpre & Hring).
  pose proof (len_nonneg p) as Hp0. pose proof (len_nonneg all) as Ha0.
  assert (len (prefix w) = Z.min n (len all)) as Hlp
    by (rewrite Hpre; apply len_firstn; lia).
  unfold Write. rewrite fill_ok by lia. cbn [bind].
  destruct (fill_split n all p) as [Hpre' Hrest].
  set (k := Z.min (len p) (N w - len (prefix w))).
  replace (Z.min _ _) with k in Hpre', Hrest
    by (unfold k; rewrite HN, Hpre; reflexivity).
  rewrite <- Hpre in Hpre'.
  set (p1 := skipn (Z.to_nat k) p) in *.
  set (pre := prefix w ++ firstn (Z.to_nat k) p) in *.
  assert (len p1 = len p - k) as Hp1
    by (unfold p1; rewrite len_skipn by lia; lia).
  assert (forall w2,
            N w2 = n -> prefix w2 = pre -> suffix w2 = suffix w ->
            suffixOff w2 = suffixOff w ->
            exists w',
              ('(suf, p3) <- fill w2 (suffix w2) (lastn n p1) ;;
               w4 <- Write_loop fuel (set_suffix w2 suf) p3 ;;
               Ret (w4, (len p, @None string))) = Ret (w', (len p, None))
              /\ retains n w' (all ++ p)) as Hthen.
  { intros w2 H1 H2 H3 H4.
    destruct (Write_rest_view fuel w2 (lastn n p1) (skipn (Z.to_nat n) all)
                (len p)) as (w' & HW & HN' & Hpre2 & Hv & Ho & Hz).
    - assumption.
    - lia.
    - unfold ring_holds, ring_view in *. rewrite H1, H3, H4.
      rewrite HN in Hring. exact Hring.
    - rewrite H1, len_lastn by lia. lia.
    - exists w'. split; [exact HW |].
      unfold retains, ring_holds. rewrite HN', H1 in *.
      split; [reflexivity |]. split; [congruence |].
      rewrite <- Hrest. split; [| split; assumption].
      rewrite Hv. apply lastn_app_lastn. lia. }
  cbn [N skipped set_prefix]. rewrite HN.
  destruct (len p1 - n >? 0) eqn:E.
  - apply Z.gtb_lt in E. rewrite slice_from_ok by lia. cbn [bind].
    change (skipn (Z.to_nat (len p1 - n)) p1) with (lastn n p1).
    apply Hthen; reflexivity || assumption.
  - rewrite Z.gtb_ltb in E; apply Z.ltb_ge in E. cbn [bind].
    pose proof (Hthen (set_prefix w pre) HN eq_refl eq_refl eq_refl) as H.
    rewrite (lastn_short n p1) in H by lia. exact H.
Qed.

(** A sequence of writes. *)
Lemma Writes_retains fuel n ps : forall w all,
  (2 <= fuel)%nat -> 0 < n -> retains n w all ->
  exists w', Writes fuel w ps = Ret w' /\ retains n w' (all ++ List.concat ps).
Proof.
  induction ps as [| p ps IH]; intros w all Hf Hn Hw; simpl.
  - exists w. rewrite app_nil_r. split; [reflexivity | assumption].
  - destruct (Write_retains fuel n w all p Hf Hn Hw) as (w1 & -> & Hw1).
    simpl. rewrite app_assoc. apply IH; assumption.
Qed.

Lemma retains_new n : 0 < n -> retains n (new n) [].
Proof.
  intros Hn. unfold retains, ring_holds, ring_view, new, lastn.
  cbn [N prefix suffix suffixOff]. rewrite firstn_nil, !skipn_nil.
  repeat split; try reflexivity; lia.
Qed.

(** One [Write] while everything written still fits: nothing is dropped
    and the loop over the ring is not entered. *)
Lemma Write_holds_all fuel n w all p :
  0 < n -> holds_all n w all -> len all + len p <= 2 * n ->
  exists w',
    Write fuel w p = Ret (w', (len p, None)) /\ holds_all n w' (all ++ p).
Proof.
  intros Hn (HN & Hpre & Hsuf & Hoff & Hsk) Hfit.
  pose proof (len_nonneg p) as Hp0. pose proof (len_nonneg all) as Ha0.
  assert (len (prefix w) = Z.min n (len all)) as Hlp
    by (rewrite Hpre; apply len_firstn; lia).
  assert (len (suffix w) = Z.max 0 (len all - n)) as Hls
    by (rewrite Hsuf; apply len_skipn; lia).
  unfold Write. rewrite fill_ok by lia. cbn [bind].
  destruct (fill_split n all p) as [Hpre' Hrest].
  set (k := Z.min (len p) (N w - len (prefix w))).
  replace (Z.min _ _) with k in Hpre', Hrest
    by (unfold k; rewrite HN, Hpre; reflexivity).
  rewrite <- Hpre in Hpre'. rewrite <- Hsuf in Hrest.
  set (p1 := skipn (Z.to_nat k) p) in *.
  set (pre := prefix w ++ firstn (Z.to_nat k) p) in *.
  assert (len p1 = len p - k) as Hp1
    by (unfold p1; rewrite len_skipn by lia; lia).
  cbn [N skipped set_prefix]. rewrite HN.
  replace (len p1 - n >? 0) with false
    by (symmetry; rewrite Z.gtb_ltb; apply Z.ltb_ge; lia).
  cbn [bind]. rewrite fill_ok by (cbn [N suffix set_prefix]; lia).
  cbn [bind N suffix set_prefix].
  replace (Z.min (len p1) (N w - len (suffix w))) with (len p1) by lia.
  rewrite to_nat_len, firstn_all, skipn_all.
  rewrite Write_loop_done by reflexivity. cbn [bind].
  eexists. split; [reflexivity |].
  unfold holds_all.
  cbn [N prefix suffix suffixOff skipped set_prefix set_suffix].
  repeat split; assumption.
Qed.

Lemma Writes_holds_all fuel n ps : forall w all,
  0 < n -> holds_all n w all -> len all + len (List.concat ps) <= 2 * n ->
  exists w',
    Writes fuel w ps = Ret w' /\ holds_all n w' (all ++ List.concat ps).
Proof.
  induction ps as [| p ps IH]; intros w all Hn Hw Hfit;
    cbn [Writes List.concat] in *.
  - exists w. rewrite app_nil_r. split; [reflexivity | assumption].
  - rewrite len_app in Hfit. pose proof (len_nonneg (List.concat ps)).
    destruct (Write_holds_all fuel n w all p Hn Hw) as (w1 & -> & Hw1);
      [lia |].
    simpl. rewrite app_assoc. apply IH; [assumption | assumption |].
    rewrite len_app. lia.
Qed.

Lemma holds_all_new n : holds_all n (new n) [].
Proof.
  unfold holds_all, new. cbn [N prefix suffix suffixOff skipped].
  rewrite firstn_nil, skipn_nil. repeat split.
Qed.

(** [Bytes] of a saver that holds everything is everything. *)
Lemma Bytes_holds_all n w all : holds_all n w all -> Bytes w = Ret all.
Proof.
  intros (HN & Hpre & Hsuf & Hoff & Hsk). unfold Bytes.
  rewrite Hsk, Hpre, Hsuf. cbn [Z.eqb].
  destruct (skipn (Z.to_nat n) all) eqn:E.
  - rewrite <- (firstn_skipn (Z.to_nat n) all) at 2. rewrite E, app_nil_r.
    reflexivity.
  - rewrite <- E, firstn_skipn. reflexivity.
Qed.

Lemma wrap64_id z :
  -9223372036854775808 <= z < 9223372036854775808 -> wrap64 z = z.
Proof.
  intros H. unfold wrap64.
  change (2 ^ 63) with 9223372036854775808.
  change (2 ^ 64) with 18446744073709551616.
  rewrite Z.mod_small by lia. lia.
Qed.

(** A first [Write] of more than twice the capacity: the overage is cut
    off and counted, and the ring is filled without being entered. *)
Lemma Write_new_overage fuel n p :
  0 < n -> 2 * n < len p -> len p < 9223372036854775808 ->
  Write fuel (new n) p
  = Ret (mk n (firstn (Z.to_nat n) p) (skipn (Z.to_nat (len p - n)) p)
           0 (len p - 2 * n),
         (len p, None)).
Proof.
  intros Hn Hlong Hmax. unfold Write, new.
  rewrite fill_ok by (unfold len; simpl; lia).
  cbn [bind N prefix suffix suffixOff skipped set_prefix app].
  change (len (@nil byte)) with 0.
  replace (Z.min (len p) (n - 0)) with n by lia.
  set (p1 := skipn (Z.to_nat n) p).
  assert (len p1 = len p - n) as Hp1
    by (unfold p1; rewrite len_skipn by lia; lia).
  replace (len p1 - n >? 0) with true
    by (symmetry; apply Z.gtb_lt; lia).
  rewrite slice_from_ok by lia. cbn [bind].
  set (p2 := skipn (Z.to_nat (len p1 - n)) p1).
  assert (len p2 = n) as Hp2
    by (unfold p2; rewrite len_skipn by lia; lia).
  assert (p2 = skipn (Z.to_nat (len p - n)) p) as Hp2'.
  { unfold p2. rewrite Hp1. unfold p1. rewrite skipn_skipn. f_equal. lia. }
  rewrite fill_ok by (unfold len; simpl; lia).
  cbn [bind N prefix suffix suffixOff skipped set_prefix set_skipped
       set_suffix app].
  change (len (@nil byte)) with 0.
  replace (Z.min (len p2) (n - 0)) with (len p2) by lia.
  rewrite to_nat_len, firstn_all, skipn_all.
  rewrite Write_loop_done by reflexivity. cbn [bind].
  rewrite wrap64_id by lia.
  unfold set_suffix, set_skipped, set_prefix.
  cbn [N prefix suffix suffixOff skipped].
  rewrite Hp2'. replace (0 + (len p1 - n)) with (len p - 2 * n) by lia.
  reflexivity.
Qed.

End SaverRetains.

(** [prefixSuffixSaver], retention.  After any sequence of writes to a
    saver of capacity [n > 0], [prefix] is the first [n] bytes written
    and the ring buffer, read from [suffixOff] around, is the last [n]
    of the bytes written after those. *)
Theorem Saver_retains_first_and_last n fuel ps :
  0 < n -> (2 <= fuel)%nat ->
  exists w,
    Saver.Writes fuel (Saver.new n) ps = Ret w
    /\ Saver.prefix w = firstn (Z.to_nat n) (List.concat ps)
    /\ ring_view w = lastn n (skipn (Z.to_nat n) (List.concat ps)).
Proof.
  intros Hn Hf.
  destruct (Writes_retains fuel n ps (Saver.new n) [] Hf Hn (retains_new n Hn))
    as (w & HW & HN & Hpre & Hv & _).
  exists w. simpl in *. rewrite HN in Hv.
  split; [exact HW |]. split; [exact Hpre | exact Hv].
Qed.

Lemma Saver_retains_first_and_last_witness :
  exists w,
    Saver.Writes 2 (Saver.new 2) five_bytes = Ret w
    /\ Saver.prefix w = ["a"; "b"]%byte
    /\ ring_view w = ["d"; "e"]%byte.
Proof.
  destruct (Saver_retains_first_and_last 2 2 five_bytes)
    as (w & H1 & H2 & H3); [lia | lia |].
  exists w. split; [exact H1 |]. split; [exact H2 | exact H3].
Defined.

(** [prefixSuffixSaver], below the bound.  While the bytes written to a
    saver of capacity [n > 0] number at most [2 * n], whatever the
    writes they came in, [Bytes] returns exactly the bytes written, as
    the rendering of the specification does. *)
Theorem Saver_exact_within_capacity n fuel ps :
  0 < n -> len (List.concat ps) <= 2 * n ->
  exists w,
    Saver.Writes fuel (Saver.new n) ps = Ret w
    /\ Saver.Bytes w = Ret (List.concat ps)
    /\ spec_Bytes n (List.concat ps) = Ret (List.concat ps).
Proof.
  intros Hn Hfit.
  destruct (Writes_holds_all fuel n ps (Saver.new n) [] Hn (holds_all_new n))
    as (w & HW & Hw); [exact Hfit |].
  exists w. simpl in Hw. split; [exact HW |].
  split; [exact (Bytes_holds_all n w _ Hw) |].
  unfold spec_Bytes, spec_dropped.
  replace (Z.max 0 (len (List.concat ps) - 2 * n)) with 0 by lia.
  cbn [Z.gtb Z.compare]. rewrite firstn_skipn. reflexivity.
Qed.

Lemma Saver_exact_within_capacity_witness :
  exists w,
    Saver.Writes 0 (Saver.new 3) five_bytes = Ret w
    /\ Saver.Bytes w = Ret ["a"; "b"; "c"; "d"; "e"]%byte
    /\ spec_Bytes 3 (List.concat five_bytes)
       = Ret ["a"; "b"; "c"; "d"; "e"]%byte.
Proof.
  apply (Saver_exact_within_capacity 3 0 five_bytes);
    [lia | unfold len; simpl; lia].
Defined.

(** [prefixSuffixSaver], one write.  Whatever the size of the first
    [Write] to a saver of capacity [n > 0], [Bytes] renders it as the
    specification words it: the first [n] bytes, the marker with the
    number of dropped bytes when some were dropped, and the last [n]
    bytes. *)
Theorem Saver_single_write_rendered fuel n p :
  0 < n -> len p < 9223372036854775808 ->
  exists w bs,
    Saver.Write fuel (Saver.new n) p = Ret (w, (len p, None))
    /\ Saver.Bytes w = Ret bs
    /\ spec_Bytes n p = Ret bs.
Proof.
  intros Hn Hmax.
  destruct (Z.le_gt_cases (len p) (2 * n)) as [Hfit | Hlong].
  - destruct (Write_holds_all fuel n (Saver.new n) [] p Hn (holds_all_new n))
      as (w & HW & Hw); [change (len (@nil byte)) with 0; lia |].
    exists w, p. simpl in Hw. split; [exact HW |].
    split; [exact (Bytes_holds_all n w _ Hw) |].
    unfold spec_Bytes, spec_dropped.
    replace (Z.max 0 (len p - 2 * n)) with 0 by lia.
    cbn [Z.gtb Z.compare]. rewrite firstn_skipn. reflexivity.
  - rewrite (Write_new_overage fuel n p Hn Hlong Hmax).
    destruct (itoa_loop_ok 20 (len p - 2 * n) []) as (ds & Hds).
    { change (10 ^ Z.of_nat 20) with 100000000000000000000. lia. }
    eexists. exists (firstn (Z.to_nat n) p ++ Saver.omitting ds
                       ++ skipn (Z.to_nat (len p - n)) p).
    split; [reflexivity |].
    pose proof (len_nonneg p) as Hp0.
    split.
    + unfold Saver.Bytes. cbn [Saver.suffix Saver.skipped Saver.prefix
                               Saver.suffixOff].
      destruct (skipn (Z.to_nat (len p - n)) p) as [| x suf] eqn:E.
      { apply (f_equal len) in E. rewrite len_skipn in E by lia.
        change (len (@nil byte)) with 0 in E. lia. }
      replace (len p - 2 * n =? 0) with false
        by (symmetry; apply Z.eqb_neq; lia).
      unfold Saver.itoa. rewrite Hds. cbn [bind].
      rewrite slice_from_ok, slice_to_ok
        by (pose proof (len_nonneg (x :: suf)); lia).
      cbn [bind]. change (Z.to_nat 0) with 0%nat. cbn [firstn skipn].
      rewrite app_nil_r. reflexivity.
    + unfold spec_Bytes, spec_dropped.
      replace (Z.max 0 (len p - 2 * n)) with (len p - 2 * n) by lia.
      replace (len p - 2 * n >? 0) with true
        by (symmetry; apply Z.gtb_lt; lia).
      unfold Saver.itoa. rewrite Hds. cbn [bind].
      rewrite skipn_skipn.
      replace (Z.to_nat (len p - 2 * n) + Z.to_nat n)%nat
        with (Z.to_nat (len p - n)) by lia.
      reflexivity.
Qed.

Lemma Saver_single_write_rendered_witness :
  exists w bs,
    Saver.Write 0 (Saver.new 2) ["a"; "b"; "c"; "d"; "e"]%byte
      = Ret (w, (5, None))
    /\ Saver.Bytes w = Ret bs
    /\ spec_Bytes 2 ["a"; "b"; "c"; "d"; "e"]%byte = Ret bs.
Proof.
  apply (Saver_single_write_rendered 0 2 ["a"; "b"; "c"; "d"; "e"]%byte);
    [lia | unfold len; simpl; lia].
Defined.

(* ================================================================== *)
(** * itoa: the decimal digits                                         *)
(* ================================================================== *)

Section ItoaFacts.

Lemma digit_value_byte r : 0 <= r <= 9 -> digit_value (byte_of_Z (48 + r)) = r.
Proof.
  intros H.
  assert (r = 0 \/ r = 1 \/ r = 2 \/ r = 3 \/ r = 4 \/ r = 5 \/ r = 6
          \/ r = 7 \/ r = 8 \/ r = 9) as Hr by lia.
  repeat (destruct Hr as [-> | Hr]; [reflexivity |]). subst r. reflexivity.
Qed.

Lemma digits_value_snoc ds b :
  digits_value (ds ++ [b]) = digits_value ds * 10 + digit_value b.
Proof. unfold digits_value. rewrite fold_left_app. reflexivity. Qed.

(** The loop of [itoa] puts the digits of [i] in front of what the
    array holds already, the most significant one first. *)
Lemma itoa_loop_digits bp : forall i acc,
  0 <= i < 10 ^ Z.of_nat bp ->
  exists ds,
    Saver.itoa_loop bp i acc = Ret (ds ++ acc)
    /\ Forall is_digit ds /\ digits_value ds = i
    /\ (i = 0 -> ds = [])
    /\ (0 < i -> exists d rest, ds = d :: rest /\ digit_value d <> 0).
Proof.
  induction bp as [| bp IH]; intros i acc Hi.
  - assert (i = 0) as -> by (simpl in Hi; lia).
    exists []. repeat split; try constructor; try reflexivity. lia.
  - destruct (Z.eq_dec i 0) as [-> | Hnz].
    { exists []. destruct bp; repeat split; try constructor; try reflexivity;
        lia. }
    assert (0 < i) as Hpos by lia.
    cbn [Saver.itoa_loop].
    replace (i >? 0) with true by (symmetry; apply Z.gtb_lt; lia).
    rewrite Z.quot_div_nonneg, Z.rem_mod_nonneg by lia.
    pose proof (Z.mod_pos_bound i 10 ltac:(lia)) as Hm.
    pose proof (Z.div_mod i 10 ltac:(lia)) as Hdm.
    assert (0 <= i / 10 < 10 ^ Z.of_nat bp) as Hq.
    { split; [apply Z.div_pos; lia |].
      apply Z.div_lt_upper_bound; [lia |].
      rewrite Nat2Z.inj_succ, Z.pow_succ_r in Hi by lia. lia. }
    set (d := byte_of_Z (48 + i mod 10)).
    assert (digit_value d = i mod 10) as Hd by (apply digit_value_byte; lia).
    destruct (IH (i / 10) (d :: acc) Hq) as (ds & Hl & Hdig & Hv & Hz & Hlead).
    exists (ds ++ [d]). rewrite <- app_assoc. split; [exact Hl |].
    split. { apply Forall_app. split; [exact Hdig |].
             constructor; [unfold is_digit; lia | constructor]. }
    split. { rewrite digits_value_snoc, Hv, Hd. lia. }
    split; [lia |]. intros _.
    destruct (Z.eq_dec (i / 10) 0) as [Hq0 | Hq0].
    + rewrite (Hz Hq0). exists d, []. split; [reflexivity |]. lia.
    + destruct Hlead as (d0 & rest & -> & Hd0); [lia |].
      exists d0, (rest ++ [d]). split; [reflexivity | exact Hd0].
Qed.

End ItoaFacts.

(** [itoa].  For every positive [int], [itoa] returns its decimal
    digits: at least one digit, only digits, no leading zero, and their
    value is the number; for zero and for negative numbers it returns
    the empty string. *)
Theorem itoa_decimal_digits i :
  i < 9223372036854775808 ->
  (i <= 0 -> Saver.itoa i = Ret [])
  /\ (0 < i ->
      exists d rest,
        Saver.itoa i = Ret (d :: rest)
        /\ Forall is_digit (d :: rest)
        /\ digit_value d <> 0
        /\ digits_value (d :: rest) = i).
Proof.
  intros Hmax. split.
  - intros Hle. unfold Saver.itoa. cbn [Saver.itoa_loop].
    replace (i >? 0) with false; [reflexivity |].
    symmetry. rewrite Z.gtb_ltb. apply Z.ltb_ge. lia.
  - intros Hpos.
    destruct (itoa_loop_digits 20 i []) as (ds & Hl & Hdig & Hv & _ & Hlead).
    { change (10 ^ Z.of_nat 20) with 100000000000000000000. lia. }
    destruct (Hlead Hpos) as (d & rest & -> & Hd).
    exists d, rest. rewrite app_nil_r in Hl.
    split; [exact Hl |]. split; [exact Hdig |]. split; [exact Hd | exact Hv].
Qed.

Lemma itoa_decimal_digits_witness :
  Saver.itoa 0 = Ret []
  /\ Saver.itoa 1234 = Ret ["1"; "2"; "3"; "4"]%byte
  /\ digits_value ["1"; "2"; "3"; "4"]%byte = 1234.
Proof.
  destruct (itoa_decimal_digits 0 ltac:(lia)) as [H0 _].
  destruct (itoa_decimal_digits 1234 ltac:(lia)) as [_ H1].
  destruct (H1 ltac:(lia)) as (d & rest & Hr & _ & _ & Hv).
  split; [apply H0; lia |].
  assert (Saver.itoa 1234 = Ret ["1"; "2"; "3"; "4"]%byte) as E by reflexivity.
  rewrite E in Hr. injection Hr as <- <-.
  split; [reflexivity | exact Hv].
Defined.

(* ================================================================== *)
(** * Cmd.String                                                       *)
(* ================================================================== *)

Lemma Command_Args fs name arg : Cmd.Args (Command fs name arg) = name :: arg.
Proof.
  unfold Command. destruct (String.eqb (filepath.Base name) name); [| reflexivity].
  destruct (LookPath fs name) as [lp [err |]]; reflexivity.
Qed.

(** [Cmd.String].  On a command built by [Command], [String] returns:
    it is the arguments joined by spaces behind the path that [LookPath]
    found for a bare name, or behind the name as given when the lookup
    failed or the name is not bare.  On any command it panics exactly
    when no lookup failure is stored and [Args] is empty. *)
Theorem Cmd_String_of_Command (c : Cmd.t) fs name arg :
  (Cmd_String c = Panic <-> Cmd.lookPathErr c = None /\ Cmd.Args c = [])
  /\ Cmd_String (Command fs name arg)
     = Ret (strings_Join
              ((if String.eqb (filepath.Base name) name
                then match LookPath fs name with
                     | (lp, None) => lp
                     | (_, Some _) => name
                     end
                else name) :: arg) " ").
Proof.
  split.
  - unfold Cmd_String. destruct (Cmd.lookPathErr c) as [e |].
    + split; [discriminate | intros [H _]; discriminate].
    + destruct (Cmd.Args c) as [| a rest].
      * split; [intros _; split; reflexivity | reflexivity].
      * rewrite slice_from_ok by (unfold len; simpl; lia).
        split; [discriminate | intros [_ H]; discriminate].
  - assert (forall p, slice_from (p :: arg) 1 = Ret arg) as Hs
      by (intros p; apply slice_from_ok; unfold len; simpl; lia).
    unfold Cmd_String, Command.
    destruct (String.eqb (filepath.Base name) name);
      [destruct (LookPath fs name) as [lp [err |]] |];
      simpl; rewrite ?Hs; reflexivity.
Qed.

(* ================================================================== *)
(** * StdinPipe, StdoutPipe, StderrPipe                                *)
(* ================================================================== *)

Section PipeFacts.

Lemma StdinPipe_taken c pr pw :
  Cmd.Stdin c = None -> Cmd.Process c = None -> Cmd.stdinPipeUsed c = false ->
  exists c1,
    StdinPipe (inr (pr, pw)) c = (c1, inr pw)
    /\ Cmd.Stdin c1 = Some (R_File pr)
    /\ Cmd.childIOFiles c1 = Cmd.childIOFiles c ++ [pr]
    /\ Cmd.parentIOPipes c1 = Cmd.parentIOPipes c ++ [pw]
    /\ Cmd.goroutine c1 = Cmd.goroutine c
    /\ forall pipe,
         StdinPipe pipe c1 = (c1, inl (New "exec: Stdin already set")).
Proof.
  intros H1 H2 H3. eexists. unfold StdinPipe at 1.
  cbv [bindM get guard modify ret fail]. rewrite H1, H2, H3. cbn [is_some].
  split; [reflexivity |]. destruct c; cbn.
  repeat (split; [reflexivity |]). intros pipe. reflexivity.
Qed.

Lemma StdoutPipe_taken c pr pw :
  Cmd.Stdout c = None -> Cmd.Process c = None -> Cmd.stdoutPipeUsed c = false ->
  exists c1,
    StdoutPipe (inr (pr, pw)) c = (c1, inr pr)
    /\ Cmd.Stdout c1 = Some (W_File pw)
    /\ Cmd.childIOFiles c1 = Cmd.childIOFiles c ++ [pw]
    /\ Cmd.parentIOPipes c1 = Cmd.parentIOPipes c ++ [pr]
    /\ Cmd.goroutine c1 = Cmd.goroutine c
    /\ forall pipe,
         StdoutPipe pipe c1 = (c1, inl (New "exec: Stdout already set")).
Proof.
  intros H1 H2 H3. eexists. unfold StdoutPipe at 1.
  cbv [bindM get guard modify ret fail]. rewrite H1, H2, H3. cbn [is_some].
  split; [reflexivity |]. destruct c; cbn.
  repeat (split; [reflexivity |]). intros pipe. reflexivity.
Qed.

Lemma StderrPipe_taken c pr pw :
  Cmd.Stderr c = None -> Cmd.Process c = None -> Cmd.stderrPipeUsed c = false ->
  exists c1,
    StderrPipe (inr (pr, pw)) c = (c1, inr pr)
    /\ Cmd.Stderr c1 = Some (W_File pw)
    /\ Cmd.Stdout c1 = Cmd.Stdout c
    /\ Cmd.childIOFiles c1 = Cmd.childIOFiles c ++ [pw]
    /\ Cmd.parentIOPipes c1 = Cmd.parentIOPipes c ++ [pr]
    /\ Cmd.goroutine c1 = Cmd.goroutine c
    /\ forall pipe,
         StderrPipe pipe c1 = (c1, inl (New "exec: Stderr already set")).
Proof.
  intros H1 H2 H3. eexists. unfold StderrPipe at 1.
  cbv [bindM get guard modify ret fail]. rewrite H1, H2, H3. cbn [is_some].
  split; [reflexivity |]. destruct c; cbn in *.
  repeat (split; [reflexivity |]). intros pipe. reflexivity.
Qed.

End PipeFacts.

(** The pipes, taken once.  On a command not yet started whose stream
    is unset, each of [StdinPipe], [StdoutPipe] and [StderrPipe]
    returns the parent's end of the pipe, sets the stream to the
    child's end, and registers the child's end in [childIOFiles] and
    the parent's end in [parentIOPipes].  Any later call of the same
    method is refused with the "already set" error of the stream (the
    "already called" error is not the one returned), whatever [os.Pipe]
    would answer, and leaves the command as it is; after [StdoutPipe],
    [Output] and [CombinedOutput] are refused in the same way on either
    build, after [StderrPipe] [CombinedOutput] is. *)
Theorem Pipes_taken_once (c : Cmd.t) (pr pw : File) :
  Cmd.Process c = None ->
  (Cmd.Stdin c = None -> Cmd.stdinPipeUsed c = false ->
   exists c1,
     StdinPipe (inr (pr, pw)) c = (c1, inr pw)
     /\ Cmd.Stdin c1 = Some (R_File pr)
     /\ Cmd.childIOFiles c1 = Cmd.childIOFiles c ++ [pr]
     /\ Cmd.parentIOPipes c1 = Cmd.parentIOPipes c ++ [pw]
     /\ forall pipe,
          StdinPipe pipe c1 = (c1, inl (New "exec: Stdin already set")))
  /\ (Cmd.Stdout c = None -> Cmd.stdoutPipeUsed c = false ->
      exists c1,
        StdoutPipe (inr (pr, pw)) c = (c1, inr pr)
        /\ Cmd.Stdout c1 = Some (W_File pw)
        /\ Cmd.childIOFiles c1 = Cmd.childIOFiles c ++ [pw]
        /\ Cmd.parentIOPipes c1 = Cmd.parentIOPipes c ++ [pr]
        /\ (forall pipe,
              StdoutPipe pipe c1 = (c1, inl (New "exec: Stdout already set")))
        /\ forall Start Wait h,
             Output Start Wait (c1, h)
             = Ret ((c1, h), ([], Some (New "exec: Stdout already set")))
             /\ CombinedOutput Start Wait (c1, h)
                = Ret ((c1, h), ([], Some (New "exec: Stdout already set"))))
  /\ (Cmd.Stderr c = None -> Cmd.stderrPipeUsed c = false ->
      exists c1,
        StderrPipe (inr (pr, pw)) c = (c1, inr pr)
        /\ Cmd.Stderr c1 = Some (W_File pw)
        /\ Cmd.childIOFiles c1 = Cmd.childIOFiles c ++ [pw]
        /\ Cmd.parentIOPipes c1 = Cmd.parentIOPipes c ++ [pr]
        /\ (forall pipe,
              StderrPipe pipe c1 = (c1, inl (New "exec: Stderr already set")))
        /\ forall Start Wait h,
             Cmd.Stdout c = None ->
             CombinedOutput Start Wait (c1, h)
             = Ret ((c1, h), ([], Some (New "exec: Stderr already set")))).
Proof.
  intros HP. split; [| split].
  - intros H1 H3.
    destruct (StdinPipe_taken c pr pw H1 HP H3)
      as (c1 & E & Hs & Hc & Hp & _ & Hagain).
    exists c1. repeat (split; [assumption |]). exact Hagain.
  - intros H1 H3.
    destruct (StdoutPipe_taken c pr pw H1 HP H3)
      as (c1 & E & Hs & Hc & Hp & _ & Hagain).
    exists c1. repeat (split; [assumption |]).
    intros Start Wait h. unfold Output, CombinedOutput. rewrite Hs.
    split; reflexivity.
  - intros H1 H3.
    destruct (StderrPipe_taken c pr pw H1 HP H3)
      as (c1 & E & Hs & Ho & Hc & Hp & _ & Hagain).
    exists c1. repeat (split; [assumption |]).
    intros Start Wait h Hout. unfold CombinedOutput. rewrite Hs, Ho, Hout.
    reflexivity.
Qed.

Lemma Pipes_taken_once_witness :
  exists c1,
    StdoutPipe (inr ({| file_id := 1; Fd := 5 |}, {| file_id := 2; Fd := 6 |}))
      (Command no_files "ls" []) = (c1, inr {| file_id := 1; Fd := 5 |})
    /\ StdoutPipe (inl "too many open files"%string) c1
       = (c1, inl (New "exec: Stdout already set")).
Proof.
  destruct (Pipes_taken_once (Command no_files "ls" [])
              {| file_id := 1; Fd := 5 |} {| file_id := 2; Fd := 6 |}
              eq_refl) as (_ & H & _).
  destruct (H eq_refl eq_refl) as (c1 & E & _ & _ & _ & Hagain & _).
  exists c1. split; [exact E | apply Hagain].
Defined.

(** The pipes, when [os.Pipe] fails.  The "used" flag is set before the
    pipe is created: a call whose [os.Pipe] fails returns that error,
    changes nothing but the flag, and every later call of the method is
    refused with "already called", although no pipe was handed out. *)
Theorem Pipe_failure_is_final (c : Cmd.t) (text : string) :
  Cmd.Process c = None ->
  (Cmd.Stdin c = None -> Cmd.stdinPipeUsed c = false ->
   StdinPipe (inl text) c
   = (Cmd.set_stdinPipeUsed c true, inl (Foreign text))
   /\ forall pipe,
        StdinPipe pipe (Cmd.set_stdinPipeUsed c true)
        = (Cmd.set_stdinPipeUsed c true,
           inl (New "exec: StdinPipe already called")))
  /\ (Cmd.Stdout c = None -> Cmd.stdoutPipeUsed c = false ->
      StdoutPipe (inl text) c
      = (Cmd.set_stdoutPipeUsed c true, inl (Foreign text))
      /\ forall pipe,
           StdoutPipe pipe (Cmd.set_stdoutPipeUsed c true)
           = (Cmd.set_stdoutPipeUsed c true,
              inl (New "exec: StdoutPipe already called")))
  /\ (Cmd.Stderr c = None -> Cmd.stderrPipeUsed c = false ->
      StderrPipe (inl text) c
      = (Cmd.set_stderrPipeUsed c true, inl (Foreign text))
      /\ forall pipe,
           StderrPipe pipe (Cmd.set_stderrPipeUsed c true)
           = (Cmd.set_stderrPipeUsed c true,
              inl (New "exec: StderrPipe already called"))).
Proof.
  intros HP. split; [| split]; intros H1 H3; split; try intros pipe.
  - unfold StdinPipe. cbv [bindM get guard modify ret fail].
    rewrite H1, HP, H3. reflexivity.
  - unfold StdinPipe. cbv [bindM get guard modify ret fail].
    destruct c; cbn in *. rewrite H1, HP. reflexivity.
  - unfold StdoutPipe. cbv [bindM get guard modify ret fail].
    rewrite H1, HP, H3. reflexivity.
  - unfold StdoutPipe. cbv [bindM get guard modify ret fail].
    destruct c; cbn in *. rewrite H1, HP. reflexivity.
  - unfold StderrPipe. cbv [bindM get guard modify ret fail].
    rewrite H1, HP, H3. reflexivity.
  - unfold StderrPipe. cbv [bindM get guard modify ret fail].
    destruct c; cbn in *. rewrite H1, HP. reflexivity.
Qed.

Lemma Pipe_failure_is_final_witness :
  StdinPipe (inl "too many open files"%string) (Command no_files "ls" [])
  = (Cmd.set_stdinPipeUsed (Command no_files "ls" []) true,
     inl (Foreign "too many open files"))
  /\ StdinPipe (inr ({| file_id := 1; Fd := 5 |}, {| file_id := 2; Fd := 6 |}))
       (Cmd.set_stdinPipeUsed (Command no_files "ls" []) true)
     = (Cmd.set_stdinPipeUsed (Command no_files "ls" []) true,
        inl (New "exec: StdinPipe already called")).
Proof.
  destruct (Pipe_failure_is_final (Command no_files "ls" [])
              "too many open files" eq_refl) as (H & _).
  destruct (H eq_refl eq_refl) as (E & Hagain).
  split; [exact E | apply Hagain].
Defined.

(* ================================================================== *)
(** * Start on darwin: the streams and the spawn                       *)
(* ================================================================== *)

Section SpawnFacts.

Lemma bindM_inl {A B} (m : M A) (k : A -> M B) c c' e :
  bindM m k c = (c', inl e) ->
  m c = (c', inl e) \/ exists c1 a, m c = (c1, inr a) /\ k a c1 = (c', inl e).
Proof.
  unfold bindM. destruct (m c) as [c1 [e1 | a]].
  - intros [= <- <-]. left. reflexivity.
  - intros H. right. exists c1, a. split; [reflexivity | exact H].
Qed.

Lemma guard_inl b e c c' e' : guard b e c = (c', inl e') -> e' = e.
Proof. destruct b; simpl; [| discriminate]. intros [= _ <-]. reflexivity. Qed.

Lemma wrapped_inl {A} (m : M A) c c' e :
  Darwin.wrapped m c = (c', inl e) -> exists e', e = wrappedError "exec: " e'.
Proof.
  unfold Darwin.wrapped. destruct (m c) as [c1 [e1 | a]]; [| discriminate].
  intros [= _ <-]. eexists. reflexivity.
Qed.

(** What a stream setup that returns has done: nothing to the command
    and no descriptor to close, or one pipe, whose end for the child is
    appended to [childIOFiles] and is the one whose descriptor is
    returned, and one copy task. *)
Lemma setupStdin_result os c c' fd :
  Darwin.setupStdin os c = (c', inr fd) ->
  (fd = -1 /\ c' = c /\ stdin_tasks c = 0%nat)
  \/ (exists pr pw,
        Darwin.os_Pipe os 0 = inr (pr, pw) /\ fd = Fd pr
        /\ stdin_tasks c = 1%nat
        /\ c' = Cmd.set_goroutine
                  (Cmd.set_childIOFiles c (Cmd.childIOFiles c ++ [pr]))
                  (Cmd.goroutine c ++ [copy_stdin pw])).
Proof.
  unfold Darwin.setupStdin, stdin_tasks, bindM at 1, get.
  destruct (Cmd.Stdin c) as [[f | id] |].
  - intros H. apply bindM_inr in H. destruct H as (c1 & u & H1 & H2).
    apply check_inr in H1. injection H2 as <- <-. subst c1. left. auto.
  - destruct (Darwin.os_Pipe os 0) as [text | [pr pw]]; [discriminate |].
    intros H. apply bindM_inr in H. destruct H as (c1 & u & H1 & H2).
    apply check_inr in H1. subst c1.
    cbv [bindM modify ret] in H2. injection H2 as <- <-.
    right. exists pr, pw. destruct c; simpl. auto.
  - intros H. apply bindM_inr in H. destruct H as (c1 & u & H1 & H2).
    apply check_inr in H1. injection H2 as <- <-. subst c1. left. auto.
Qed.

Lemma setupStdout_result os c c' fd :
  Darwin.setupStdout os c = (c', inr fd) ->
  (fd = -1 /\ c' = c
   /\ match Cmd.Stdout c with Some (W_Obj _) => False | _ => True end)
  \/ (exists a pr pw,
        Cmd.Stdout c = Some (W_Obj a)
        /\ Darwin.os_Pipe os 1 = inr (pr, pw) /\ fd = Fd pw
        /\ c' = Cmd.set_goroutine
                  (Cmd.set_childIOFiles c (Cmd.childIOFiles c ++ [pw]))
                  (Cmd.goroutine c ++ [copy_stdout pr])).
Proof.
  unfold Darwin.setupStdout, bindM at 1, get.
  destruct (Cmd.Stdout c) as [[f | a] |].
  - intros H. apply bindM_inr in H. destruct H as (c1 & u & H1 & H2).
    apply check_inr in H1. injection H2 as <- <-. subst c1. left. auto.
  - destruct (Darwin.os_Pipe os 1) as [text | [pr pw]]; [discriminate |].
    intros H. apply bindM_inr in H. destruct H as (c1 & u & H1 & H2).
    apply check_inr in H1. subst c1.
    cbv [bindM modify ret] in H2. injection H2 as <- <-.
    right. exists a, pr, pw. destruct c; simpl. auto.
  - intros H. apply bindM_inr in H. destruct H as (c1 & u & H1 & H2).
    apply check_inr in H1. injection H2 as <- <-. subst c1. left. auto.
Qed.

(** Whether [setupStderr] needs a pipe of its own. *)
Lemma setupStderr_result os c c' fd :
  Darwin.setupStderr os c = (c', inr fd) ->
  (fd = -1 /\ c' = c
   /\ match Cmd.Stderr c with
      | Some (W_Obj b) =>
          match Cmd.Stdout c with
          | Some (W_Obj a) => b = a
          | _ => False
          end
      | _ => True
      end)
  \/ (exists b pr pw,
        Cmd.Stderr c = Some (W_Obj b)
        /\ match Cmd.Stdout c with
           | Some (W_Obj a) => b <> a
           | _ => True
           end
        /\ Darwin.os_Pipe os 2 = inr (pr, pw) /\ fd = Fd pw
        /\ c' = Cmd.set_goroutine
                  (Cmd.set_childIOFiles c (Cmd.childIOFiles c ++ [pw]))
                  (Cmd.goroutine c ++ [copy_stderr pr])).
Proof.
  unfold Darwin.setupStderr, bindM at 1, get.
  destruct (Cmd.Stderr c) as [w |].
  2:{ intros H. apply bindM_inr in H. destruct H as (c1 & u & H1 & H2).
      apply check_inr in H1. injection H2 as <- <-. subst c1. left. auto. }
  destruct (match Cmd.Stdout c with
            | Some w' => Writer_eqb w w'
            | None => false
            end) eqn:Esame.
  { intros H. apply bindM_inr in H. destruct H as (c1 & u & H1 & H2).
    apply check_inr in H1. injection H2 as <- <-. subst c1. left.
    split; [reflexivity |]. split; [reflexivity |].
    destruct w as [f | b]; [exact I |].
    destruct (Cmd.Stdout c) as [[g | a] |]; simpl in Esame;
      try discriminate.
    apply Nat.eqb_eq in Esame. exact Esame. }
  destruct w as [f | b].
  - intros H. apply bindM_inr in H. destruct H as (c1 & u & H1 & H2).
    apply check_inr in H1. injection H2 as <- <-. subst c1. left. auto.
  - destruct (Darwin.os_Pipe os 2) as [text | [pr pw]]; [discriminate |].
    intros H. apply bindM_inr in H. destruct H as (c1 & u & H1 & H2).
    apply check_inr in H1. subst c1.
    cbv [bindM modify ret] in H2. injection H2 as <- <-.
    right. exists b, pr, pw. split; [reflexivity |].
    split.
    { destruct (Cmd.Stdout c) as [[g | a] |]; try exact I.
      simpl in Esame. apply Nat.eqb_neq in Esame. exact Esame. }
    destruct c; simpl. auto.
Qed.

(** [Start] behind the stream setups: the extra files, the working
    directory, the attributes and the spawn. *)
Let tail (os : Darwin.SpawnOS) (c : Cmd.t) (path : string)
    (args env : list string) : M Z :=
  Darwin.setupExtraFiles os 0 (Cmd.ExtraFiles c) >>>
  (if negb (String.eqb (Cmd.Dir c) "") then
     guard (negb (Darwin.has_chdir_np os))
       (New "exec: setting Dir requires macOS 10.15+") >>>
     check (Darwin.add_chdir_action os (Cmd.Dir c))
   else ret tt) >>>
  check (Darwin.init_spawnattr os) >>>
  (let '(r, pid) := Darwin.do_posix_spawn os path args env in
   guard (negb (r =? 0)) (LookupError (Cmd.Path c) (Errno r)) >>>
   ret pid).

(** [Start] from the file actions on. *)
Let streams (os : Darwin.SpawnOS) (c : Cmd.t) (path : string)
    (args env : list string) : M Z :=
  check (Darwin.init_file_actions os) >>>
  stdinFd <-- Darwin.wrapped (Darwin.setupStdin os) ;;
  stdoutFd <-- Darwin.wrapped (Darwin.setupStdout os) ;;
  stderrFd <-- Darwin.wrapped (Darwin.setupStderr os) ;;
  tail os c path args env.

Lemma tail_inr os c path args env c0 c1 pid :
  tail os c path args env c0 = (c1, inr pid) ->
  c1 = c0 /\ Darwin.do_posix_spawn os path args env = (0, pid).
Proof.
  intros H. split; [eapply pure_after_streams, H |].
  unfold tail in H.
  apply bindM_inr in H. destruct H as (c2 & u & _ & H).
  apply bindM_inr in H. destruct H as (c3 & u' & _ & H).
  apply bindM_inr in H. destruct H as (c4 & u'' & _ & H).
  destruct (Darwin.do_posix_spawn os path args env) as [r pid'].
  apply bindM_inr in H. destruct H as (c5 & u3 & Hg & H).
  apply guard_inr in Hg. destruct Hg as [-> Hr].
  injection H as _ <-. apply negb_false_iff, Z.eqb_eq in Hr. subst r.
  reflexivity.
Qed.

Lemma setupExtraFiles_inl os files : forall i c c' e,
  Darwin.setupExtraFiles os i files c = (c', inl e) -> exists r, e = Errno r.
Proof.
  induction files as [| [f |] files IH]; intros i c c' e H; simpl in H.
  - discriminate.
  - apply bindM_inl in H. destruct H as [H | (c1 & u & _ & H)].
    + apply guard_inl in H. eexists. exact H.
    + eapply IH, H.
  - eapply IH, H.
Qed.

Lemma tail_inl_lookup os c path args env c0 c1 p err :
  tail os c path args env c0 = (c1, inl (LookupError p err)) ->
  c1 = c0 /\ p = Cmd.Path c
  /\ exists r pid,
       Darwin.do_posix_spawn os path args env = (r, pid)
       /\ r <> 0 /\ err = Errno r.
Proof.
  intros H. split; [eapply pure_after_streams, H |].
  unfold tail in H.
  apply bindM_inl in H. destruct H as [H | (c2 & u & _ & H)].
  { apply setupExtraFiles_inl in H. destruct H as (r & H). discriminate. }
  apply bindM_inl in H. destruct H as [H | (c3 & u' & _ & H)].
  { destruct (negb (String.eqb (Cmd.Dir c) "")); [| discriminate].
    apply bindM_inl in H. destruct H as [H | (c3 & u' & _ & H)];
      apply guard_inl in H; discriminate. }
  apply bindM_inl in H. destruct H as [H | (c4 & u'' & _ & H)].
  { apply guard_inl in H. discriminate. }
  destruct (Darwin.do_posix_spawn os path args env) as [r pid].
  apply bindM_inl in H. destruct H as [H | (c5 & u3 & _ & H)];
    [| discriminate].
  pose proof H as Hg. apply guard_inl in Hg. injection Hg as -> ->.
  split; [reflexivity |]. exists r, pid. split; [reflexivity |].
  split; [| reflexivity].
  intros ->. discriminate.
Qed.

Lemma streams_inr os c path args env c0 c1 pid :
  streams os c path args env c0 = (c1, inr pid) ->
  exists cin cout fd0 fd1 fd2,
    Darwin.setupStdin os c0 = (cin, inr fd0)
    /\ Darwin.setupStdout os cin = (cout, inr fd1)
    /\ Darwin.setupStderr os cout = (c1, inr fd2)
    /\ Darwin.do_posix_spawn os path args env = (0, pid).
Proof.
  intros H. unfold streams in H.
  apply bindM_inr in H. destruct H as (c2 & u0 & Hc & H).
  apply check_inr in Hc. subst c2.
  apply bindM_inr in H. destruct H as (cin & fd0 & Hin & H).
  apply wrapped_inr in Hin.
  apply bindM_inr in H. destruct H as (cout & fd1 & Hout & H).
  apply wrapped_inr in Hout.
  apply bindM_inr in H. destruct H as (cerr & fd2 & Herr & H).
  apply wrapped_inr in Herr.
  apply tail_inr in H. destruct H as [-> Hs].
  exists cin, cout, fd0, fd1, fd2. auto.
Qed.

Lemma streams_inl_lookup os c path args env c0 c1 p err :
  streams os c path args env c0 = (c1, inl (LookupError p err)) ->
  p = Cmd.Path c
  /\ exists cin cout fd0 fd1 fd2 r pid,
       Darwin.setupStdin os c0 = (cin, inr fd0)
       /\ Darwin.setupStdout os cin = (cout, inr fd1)
       /\ Darwin.setupStderr os cout = (c1, inr fd2)
       /\ Darwin.do_posix_spawn os path args env = (r, pid)
       /\ r <> 0 /\ err = Errno r.
Proof.
  intros H. unfold streams in H.
  apply bindM_inl in H. destruct H as [H | (c2 & u0 & Hc & H)].
  { apply guard_inl in H. discriminate. }
  apply check_inr in Hc. subst c2.
  apply bindM_inl in H. destruct H as [H | (cin & fd0 & Hin & H)].
  { apply wrapped_inl in H. destruct H as (e' & H). discriminate. }
  apply wrapped_inr in Hin.
  apply bindM_inl in H. destruct H as [H | (cout & fd1 & Hout & H)].
  { apply wrapped_inl in H. destruct H as (e' & H). discriminate. }
  apply wrapped_inr in Hout.
  apply bindM_inl in H. destruct H as [H | (cerr & fd2 & Herr & H)].
  { apply wrapped_inl in H. destruct H as (e' & H). discriminate. }
  apply wrapped_inr in Herr.
  apply tail_inl_lookup in H. destruct H as (-> & -> & r & pid & Hs & Hr & ->).
  split; [reflexivity |].
  exists cin, cout, fd0, fd1, fd2, r, pid. auto 10.
Qed.

Lemma spawn_path_eq c :
  (if negb (String.eqb (Cmd.Dir c) "") && negb (isAbs (Cmd.Path c))
   then joinPath (Cmd.Dir c) (Cmd.Path c) else Cmd.Path c)
  = (if String.eqb (Cmd.Dir c) "" || isAbs (Cmd.Path c)
     then Cmd.Path c else (Cmd.Dir c ++ "/" ++ Cmd.Path c)%string).
Proof.
  unfold joinPath.
  destruct (String.eqb (Cmd.Dir c) ""), (isAbs (Cmd.Path c)); reflexivity.
Qed.

(** A spawn that succeeded: the three setups returned, one after the
    other, and [posix_spawn] returned 0 for the path, the arguments and
    the environment of the command. *)
Lemma Start_spawn_inr os c c1 pid :
  Darwin.Start_spawn os c = (c1, inr pid) ->
  exists cin cout fd0 fd1 fd2,
    Darwin.setupStdin os c = (cin, inr fd0)
    /\ Darwin.setupStdout os cin = (cout, inr fd1)
    /\ Darwin.setupStderr os cout = (c1, inr fd2)
    /\ Darwin.do_posix_spawn os
         (if String.eqb (Cmd.Dir c) "" || isAbs (Cmd.Path c)
          then Cmd.Path c else (Cmd.Dir c ++ "/" ++ Cmd.Path c)%string)
         (match Cmd.Args c with
          | [] => [Cmd.Path c]
          | _ :: _ => Cmd.Args c
          end)
         (Cmd_Environ (Darwin.Environ os) c) = (0, pid).
Proof.
  intros H. unfold Darwin.Start_spawn, bindM at 1, get in H.
  destruct (Cmd.lookPathErr c); [discriminate |].
  apply bindM_inr in H. destruct H as (c0 & u & Hg & H).
  apply guard_inr in Hg. destruct Hg as [-> _].
  apply bindM_inr in H. destruct H as (c0 & u' & Hg & H).
  apply guard_inr in Hg. destruct Hg as [-> _].
  rewrite <- spawn_path_eq. unfold Cmd_Environ.
  replace (match Cmd.Args c with
           | [] => [Cmd.Path c]
           | _ :: _ => Cmd.Args c
           end)
    with (match Cmd.Args c with
          | [] => [Cmd.Path c]
          | s :: l => s :: l
          end) by (destruct (Cmd.Args c); reflexivity).
  destruct (Cmd.ctx c); [destruct (Darwin.ctx_Err os); [discriminate |] |];
    apply streams_inr in H; exact H.
Qed.

(** A spawn refused by [posix_spawn]: the three setups had returned. *)
Lemma Start_spawn_inl_lookup os c c1 p err :
  Cmd.lookPathErr c = None ->
  Darwin.Start_spawn os c = (c1, inl (LookupError p err)) ->
  p = Cmd.Path c
  /\ exists cin cout fd0 fd1 fd2 r,
       Darwin.setupStdin os c = (cin, inr fd0)
       /\ Darwin.setupStdout os cin = (cout, inr fd1)
       /\ Darwin.setupStderr os cout = (c1, inr fd2)
       /\ r <> 0 /\ err = Errno r.
Proof.
  intros Hl H. unfold Darwin.Start_spawn, bindM at 1, get in H.
  rewrite Hl in H.
  apply bindM_inl in H. destruct H as [H | (c0 & u & Hg & H)].
  { apply guard_inl in H. discriminate. }
  apply guard_inr in Hg. destruct Hg as [-> _].
  apply bindM_inl in H. destruct H as [H | (c0 & u' & Hg & H)].
  { apply guard_inl in H. discriminate. }
  apply guard_inr in Hg. destruct Hg as [-> _].
  assert (forall path args env,
            streams os c path args env c = (c1, inl (LookupError p err)) ->
            p = Cmd.Path c
            /\ exists cin cout fd0 fd1 fd2 r,
                 Darwin.setupStdin os c = (cin, inr fd0)
                 /\ Darwin.setupStdout os cin = (cout, inr fd1)
                 /\ Darwin.setupStderr os cout = (c1, inr fd2)
                 /\ r <> 0 /\ err = Errno r) as Hmain.
  { intros path args env Hs. apply streams_inl_lookup in Hs.
    destruct Hs as (-> & cin & cout & fd0 & fd1 & fd2 & r & pid & H1 & H2
                    & H3 & _ & Hr & ->).
    split; [reflexivity |]. exists cin, cout, fd0, fd1, fd2, r. auto 10. }
  destruct (Cmd.ctx c); [destruct (Darwin.ctx_Err os); [discriminate |] |];
    eapply Hmain; exact H.
Qed.

(** One pipe end in [childIOFiles] and one copy task for each stream
    that needs a pipe. *)
Lemma setups_count os c cin cout c1 fd0 fd1 fd2 :
  Darwin.setupStdin os c = (cin, inr fd0) ->
  Darwin.setupStdout os cin = (cout, inr fd1) ->
  Darwin.setupStderr os cout = (c1, inr fd2) ->
  List.length (Cmd.goroutine c1)
  = (List.length (Cmd.goroutine c) + piped_streams c)%nat
  /\ List.length (Cmd.childIOFiles c1)
     = (List.length (Cmd.childIOFiles c) + piped_streams c)%nat
  /\ io_frame c c1.
Proof.
  intros Hin Hout Herr.
  assert (io_frame c c1) as Hframe.
  { eapply io_frame_trans; [eapply io_setupStdin, Hin |].
    eapply io_frame_trans; [eapply io_setupStdout, Hout |].
    eapply io_setupStderr, Herr. }
  split; [| split; [| exact Hframe]].
  - apply setupStdin_result in Hin. apply setupStdout_result in Hout.
    apply setupStderr_result in Herr.
    destruct Hin as [(_ & -> & Hi) | (pr0 & pw0 & _ & _ & Hi & ->)];
    destruct Hout as [(_ & -> & Ho) | (a & pr1 & pw1 & Ho & _ & _ & ->)];
    destruct Herr as [(_ & -> & He) | (b & pr2 & pw2 & He & Hne & _ & _ & ->)];
    unfold piped_streams, stdin_tasks in *; destruct c; cbn in *;
    repeat match goal with
           | H : match ?x with _ => _ end |- _ => destruct x; try contradiction
           | H : match ?x with _ => _ end = _ |- _ =>
               destruct x; try discriminate
           | H : Some _ = Some _ |- _ => injection H as H
           | H : W_Obj _ = W_Obj _ |- _ => injection H as H
           end;
    subst; rewrite ?length_app; cbn;
    rewrite ?Nat.eqb_refl;
    repeat match goal with
           | |- context [(?x =? ?y)%nat] =>
               destruct (Nat.eqb_spec x y); try congruence
           end;
    try lia; try discriminate.
  - apply setupStdin_result in Hin. apply setupStdout_result in Hout.
    apply setupStderr_result in Herr.
    destruct Hin as [(_ & -> & Hi) | (pr0 & pw0 & _ & _ & Hi & ->)];
    destruct Hout as [(_ & -> & Ho) | (a & pr1 & pw1 & Ho & _ & _ & ->)];
    destruct Herr as [(_ & -> & He) | (b & pr2 & pw2 & He & Hne & _ & _ & ->)];
    unfold piped_streams, stdin_tasks in *; destruct c; cbn in *;
    repeat match goal with
           | H : match ?x with _ => _ end |- _ => destruct x; try contradiction
           | H : match ?x with _ => _ end = _ |- _ =>
               destruct x; try discriminate
           | H : Some _ = Some _ |- _ => injection H as H
           | H : W_Obj _ = W_Obj _ |- _ => injection H as H
           end;
    subst; rewrite ?length_app; cbn;
    rewrite ?Nat.eqb_refl;
    repeat match goal with
           | |- context [(?x =? ?y)%nat] =>
               destruct (Nat.eqb_spec x y); try congruence
           end;
    try lia; try discriminate.
Qed.

(** The loop over [ExtraFiles]: entry [k] is duplicated onto the
    descriptor [3 + k] of the child, a nil entry leaving its number
    unused. *)
Lemma setupExtraFiles_inr os files : forall i c c' u,
  Darwin.setupExtraFiles os i files c = (c', inr u) ->
  forall k f, nth_error files k = Some (Some f) ->
    Darwin.add_dup2_action os (Fd f) (3 + (i + Z.of_nat k)) = 0.
Proof.
  induction files as [| [g |] files IH]; intros i c c' u H k f Hk.
  - destruct k; discriminate.
  - simpl in H. apply bindM_inr in H. destruct H as (c1 & u1 & Hc & H).
    apply guard_inr in Hc. destruct Hc as [-> Hr].
    apply negb_false_iff, Z.eqb_eq in Hr.
    destruct k as [| k]; simpl in Hk.
    + injection Hk as <-. rewrite Z.add_0_r. exact Hr.
    + replace (i + Z.of_nat (S k)) with (i + 1 + Z.of_nat k) by lia.
      eapply IH; eassumption.
  - simpl in H. destruct k as [| k]; simpl in Hk; [discriminate |].
    replace (i + Z.of_nat (S k)) with (i + 1 + Z.of_nat k) by lia.
    eapply IH; eassumption.
Qed.

Lemma tail_inr_actions os c path args env c0 c1 pid :
  tail os c path args env c0 = (c1, inr pid) ->
  (forall k f, nth_error (Cmd.ExtraFiles c) k = Some (Some f) ->
     Darwin.add_dup2_action os (Fd f) (3 + Z.of_nat k) = 0)
  /\ (Cmd.Dir c <> ""%string ->
      Darwin.has_chdir_np os = true
      /\ Darwin.add_chdir_action os (Cmd.Dir c) = 0)
  /\ Darwin.init_spawnattr os = 0.
Proof.
  intros H. unfold tail in H.
  apply bindM_inr in H. destruct H as (c2 & u & Hx & H).
  apply bindM_inr in H. destruct H as (c3 & u' & Hd & H).
  apply bindM_inr in H. destruct H as (c4 & u'' & Ha & _).
  split; [| split].
  - intros k f Hk.
    pose proof (setupExtraFiles_inr _ _ _ _ _ _ Hx k f Hk) as Hr.
    exact Hr.
  - intros HD. apply String.eqb_neq in HD. rewrite HD in Hd. cbn [negb] in Hd.
    apply bindM_inr in Hd. destruct Hd as (c5 & u5 & Hg & Hc).
    apply guard_inr in Hg. destruct Hg as [-> Hh].
    apply guard_inr in Hc. destruct Hc as [_ Hr].
    apply negb_false_iff in Hh. apply negb_false_iff, Z.eqb_eq in Hr. auto.
  - apply guard_inr in Ha. destruct Ha as [_ Hr].
    apply negb_false_iff, Z.eqb_eq in Hr. exact Hr.
Qed.

Lemma Start_spawn_inr_actions os c c1 pid :
  Darwin.Start_spawn os c = (c1, inr pid) ->
  (forall k f, nth_error (Cmd.ExtraFiles c) k = Some (Some f) ->
     Darwin.add_dup2_action os (Fd f) (3 + Z.of_nat k) = 0)
  /\ (Cmd.Dir c <> ""%string ->
      Darwin.has_chdir_np os = true
      /\ Darwin.add_chdir_action os (Cmd.Dir c) = 0)
  /\ Darwin.init_spawnattr os = 0.
Proof.
  intros H. unfold Darwin.Start_spawn, bindM at 1, get in H.
  destruct (Cmd.lookPathErr c); [discriminate |].
  apply bindM_inr in H. destruct H as (c0 & u & Hg & H).
  apply guard_inr in Hg. destruct Hg as [-> _].
  apply bindM_inr in H. destruct H as (c0 & u' & Hg & H).
  apply guard_inr in Hg. destruct Hg as [-> _].
  assert (forall path args env,
            streams os c path args env c = (c1, inr pid) ->
            (forall k f, nth_error (Cmd.ExtraFiles c) k = Some (Some f) ->
               Darwin.add_dup2_action os (Fd f) (3 + Z.of_nat k) = 0)
            /\ (Cmd.Dir c <> ""%string ->
                Darwin.has_chdir_np os = true
                /\ Darwin.add_chdir_action os (Cmd.Dir c) = 0)
            /\ Darwin.init_spawnattr os = 0) as Hmain.
  { intros path args env Hs. unfold streams in Hs.
    apply bindM_inr in Hs. destruct Hs as (c2 & u0 & _ & Hs).
    apply bindM_inr in Hs. destruct Hs as (cin & fd0 & _ & Hs).
    apply bindM_inr in Hs. destruct Hs as (cout & fd1 & _ & Hs).
    apply bindM_inr in Hs. destruct Hs as (cerr & fd2 & _ & Hs).
    eapply tail_inr_actions, Hs. }
  destruct (Cmd.ctx c); [destruct (Darwin.ctx_Err os); [discriminate |] |];
    eapply Hmain; exact H.
Qed.

End SpawnFacts.

(** [Start] on darwin, what the child is made of.  When [Start] returns
    nil, [posix_spawn] has returned 0 for: the path [Path], or
    [Dir/Path] when [Dir] is set and [Path] is relative; the argument
    vector [Args], or [[Path]] when [Args] is empty; the environment
    [Environ()], that is [Env], or the environment of the parent when
    [Env] is nil.  The pid it gave is stored in [Process],
    [childIOFiles] is emptied, and exactly one copy task has been added,
    with a nil slot in [goroutineErr], for each stream that is neither
    nil nor a file (stderr not counting when it is the writer of
    stdout). *)
Theorem Start_hands_over_path_argv_env os c c' :
  Darwin.Start os c = (c', None) ->
  exists pid,
    Darwin.do_posix_spawn os
      (if String.eqb (Cmd.Dir c) "" || isAbs (Cmd.Path c)
       then Cmd.Path c else (Cmd.Dir c ++ "/" ++ Cmd.Path c)%string)
      (match Cmd.Args c with
       | [] => [Cmd.Path c]
       | _ :: _ => Cmd.Args c
       end)
      (Cmd_Environ (Darwin.Environ os) c) = (0, pid)
    /\ Cmd.Process c' = Some (Process.mk pid)
    /\ Cmd.childIOFiles c' = []
    /\ List.length (Cmd.goroutine c')
       = (List.length (Cmd.goroutine c) + piped_streams c)%nat
    /\ Cmd.goroutineErr c' = map (fun _ => None) (Cmd.goroutine c').
Proof.
  intros H. apply Start_success in H.
  destruct H as (c1 & pid & Hs & _ & ->).
  apply Start_spawn_inr in Hs.
  destruct Hs as (cin & cout & fd0 & fd1 & fd2 & Hin & Hout & Herr & Hsp).
  destruct (setups_count _ _ _ _ _ _ _ _ Hin Hout Herr) as (Hg & _ & _).
  exists pid. split; [exact Hsp |].
  destruct c1; cbn in *. repeat split. exact Hg.
Qed.

Lemma Start_hands_over_path_argv_env_witness :
  exists pid,
    Darwin.do_posix_spawn (spawn shell_world) "/bin/sh"
      ["sh"; "-c"; "echo out; echo err >&2; exit 3"]%string
      ["HOME=/"%string] = (0, pid)
    /\ Cmd.Process (fst (Darwin.Start (spawn shell_world) shell_cmd))
       = Some (Process.mk pid).
Proof.
  destruct (Start_hands_over_path_argv_env (spawn shell_world) shell_cmd
              (fst (Darwin.Start (spawn shell_world) shell_cmd)) eq_refl)
    as (pid & H1 & H2 & _).
  exists pid. split; [exact H1 | exact H2].
Defined.

(** [Start] on darwin, when [posix_spawn] refuses.  The error is
    [Error{Name: Path, Err: errno}] and the command stays unstarted, but
    the pipes made for the streams stay registered: one file in
    [childIOFiles] and one copy task more than before for each stream
    that needed a pipe, the task without a slot in [goroutineErr].  The
    lines of [Start] that close [childIOFiles] and start the tasks are
    behind the failing return. *)
Theorem Start_failed_spawn_keeps_pipes os c c' p err :
  Cmd.lookPathErr c = None ->
  Darwin.Start os c = (c', Some (LookupError p err)) ->
  p = Cmd.Path c
  /\ (exists r, r <> 0 /\ err = Errno r)
  /\ Cmd.Process c' = None
  /\ List.length (Cmd.childIOFiles c')
     = (List.length (Cmd.childIOFiles c) + piped_streams c)%nat
  /\ List.length (Cmd.goroutine c')
     = (List.length (Cmd.goroutine c) + piped_streams c)%nat
  /\ Cmd.goroutineErr c' = Cmd.goroutineErr c.
Proof.
  intros Hl H. apply Start_failure in H. destruct H as (Hs & _).
  pose proof Hs as Hinv. apply Start_spawn_inl_lookup in Hinv; [| exact Hl].
  destruct Hinv as (-> & cin & cout & fd0 & fd1 & fd2 & r & Hin & Hout & Herr
                    & Hr & ->).
  destruct (setups_count _ _ _ _ _ _ _ _ Hin Hout Herr) as (Hg & Hf & Hframe).
  apply io_frame_fields in Hframe.
  destruct Hframe as (HP & _ & _ & _ & _ & _ & HE & _).
  split; [reflexivity |]. split; [exists r; auto |].
  split.
  { rewrite HP. unfold Darwin.Start_spawn, bindM at 1, get in Hs.
    rewrite Hl in Hs. destruct (Cmd.Process c); [| reflexivity].
    cbn in Hs. discriminate. }
  split; [exact Hf |]. split; [exact Hg | exact HE].
Qed.

Lemma Start_failed_spawn_keeps_pipes_witness :
  exists c',
    Darwin.Start enoent_spawn literal_cmd
    = (c', Some (LookupError "/no/such" (Errno 2)))
    /\ Cmd.Process c' = None
    /\ List.length (Cmd.childIOFiles c') = 2%nat
    /\ List.length (Cmd.goroutine c') = 2%nat
    /\ Cmd.goroutineErr c' = [].
Proof.
  exists (fst (Darwin.Start enoent_spawn literal_cmd)).
  destruct (Start_failed_spawn_keeps_pipes enoent_spawn literal_cmd
              (fst (Darwin.Start enoent_spawn literal_cmd))
              "/no/such" (Errno 2) eq_refl eq_refl)
    as (_ & _ & H1 & H2 & H3 & H4).
  split; [reflexivity |]. split; [exact H1 |]. split; [exact H2 |].
  split; [exact H3 | exact H4].
Defined.

(** The descriptors [Start] closes after the spawn.  Whenever
    [setupStdin], [setupStdout] or [setupStderr] returns a descriptor
    other than -1 (the descriptors [Start] collects in [closeAfterSpawn]
    and closes by number), it is the descriptor of the pipe end that the
    same call has appended to [childIOFiles] (the files [Start] closes
    next). *)
Theorem setup_descriptor_is_registered_file os c c' fd :
  Darwin.setupStdin os c = (c', inr fd)
  \/ Darwin.setupStdout os c = (c', inr fd)
  \/ Darwin.setupStderr os c = (c', inr fd) ->
  (fd = -1 /\ c' = c)
  \/ exists f, fd = Fd f /\ Cmd.childIOFiles c' = Cmd.childIOFiles c ++ [f].
Proof.
  intros [H | [H | H]].
  - apply setupStdin_result in H.
    destruct H as [(-> & -> & _) | (pr & pw & _ & -> & _ & ->)];
      [left; auto | right].
    exists pr. destruct c; auto.
  - apply setupStdout_result in H.
    destruct H as [(-> & -> & _) | (a & pr & pw & _ & _ & -> & ->)];
      [left; auto | right].
    exists pw. destruct c; auto.
  - apply setupStderr_result in H.
    destruct H as [(-> & -> & _) | (b & pr & pw & _ & _ & _ & -> & ->)];
      [left; auto | right].
    exists pw. destruct c; auto.
Qed.

Lemma setup_descriptor_is_registered_file_witness :
  exists f,
    snd (Darwin.setupStdout (spawn shell_world) literal_cmd) = inr (Fd f)
    /\ Cmd.childIOFiles (fst (Darwin.setupStdout (spawn shell_world) literal_cmd))
       = [f].
Proof.
  destruct (setup_descriptor_is_registered_file (spawn shell_world) literal_cmd
              (fst (Darwin.setupStdout (spawn shell_world) literal_cmd)) 13)
    as [[H _] | (f & H1 & H2)].
  - right. left. reflexivity.
  - discriminate H.
  - exists f. split; [cbn; f_equal; exact H1 | exact H2].
Defined.

(** [Start] of the fallback build, what the host library is given.  When
    [Start] returns nil, the host command was made from [Path] and the
    arguments behind [Args[0]]: [Args[0]] itself is not handed over.  On
    a command without arguments, as a struct literal with only [Path]
    gives it, [Start] panics on the slice [c.Args[1:]] once its guards
    are passed, where the darwin build passes [[Path]]. *)
Theorem Fallback_Start_drops_Args0 os c :
  (forall c', Other.Start os c = Ret (c', None) ->
     exists a0 args pid,
       Cmd.Args c = a0 :: args
       /\ Other.host_Start os (Cmd.Path c) args = inr pid
       /\ Cmd.Process c' = Some (Process.mk pid))
  /\ (Cmd.Args c = [] -> Cmd.lookPathErr c = None -> Cmd.Process c = None ->
      Cmd.finished c = false -> Cmd.ctx c = None ->
      Other.Start os c = Panic).
Proof.
  split.
  - intros c' H. unfold Other.Start in H.
    destruct (Cmd.lookPathErr c); [discriminate |].
    destruct (is_some (Cmd.Process c)); [discriminate |].
    destruct (Cmd.finished c); [discriminate |].
    assert (forall (k : list string -> outcome (Cmd.t * option error)),
              (args <- slice_from (Cmd.Args c) 1 ;; k args) = Ret (c', None) ->
              exists a0 args, Cmd.Args c = a0 :: args /\ k args = Ret (c', None))
      as Hslice.
    { intros k Hk. destruct (Cmd.Args c) as [| a0 args]; [discriminate |].
      rewrite slice_from_ok in Hk by (unfold len; simpl; lia).
      exists a0, args. split; [reflexivity | exact Hk]. }
    assert (exists a0 args,
              Cmd.Args c = a0 :: args
              /\ match Other.host_Start os (Cmd.Path c) args with
                 | inl text => Ret (c, Some (Foreign text))
                 | inr pid =>
                     Ret (Cmd.set_osCmd
                            (Cmd.set_Process c (Some (Process.mk pid)))
                            (Some {| host_pid := pid |}), None)
                 end = Ret (c', None)) as (a0 & args & HA & Hk).
    { destruct (Cmd.ctx c); [destruct (Other.ctx_Err os); [discriminate |] |];
        apply Hslice in H; exact H. }
    exists a0, args.
    destruct (Other.host_Start os (Cmd.Path c) args) as [text | pid];
      [discriminate |].
    exists pid. injection Hk as <-. destruct c; auto.
  - intros HA Hl HP Hf Hc. unfold Other.Start.
    rewrite Hl, HP, Hf, Hc, HA. reflexivity.
Qed.

Lemma Fallback_Start_drops_Args0_witness :
  Other.Start
    {| Other.ctx_Err := None;
       Other.host_Start := fun _ _ => inr 7;
       Other.host_Wait := Other.host_ok None |}
    (Cmd.set_Stdout (Cmd.set_Stderr literal_cmd None) None) = Panic.
Proof.
  apply Fallback_Start_drops_Args0; reflexivity.
Defined.

(* ================================================================== *)
(** * LookPath: what it returns                                        *)
(* ================================================================== *)

Lemma LookPath_scan_cases fs file dirs : forall p e,
  LookPath_scan fs file dirs = (p, e) ->
  (e = None /\ findExecutable fs p = None)
  \/ (e = Some (LookupError file ErrDot) /\ findExecutable fs p = None
      /\ filepath.IsAbs p = false /\ isExecutable fs p = true)
  \/ (p = ""%string /\ e = Some (LookupError file ErrNotFound)).
Proof.
  induction dirs as [| dir dirs IH]; intros p e H; simpl in H.
  - injection H as <- <-. right. right. auto.
  - set (path := filepath.Join (if String.eqb dir "" then "."%string else dir)
                   file) in *.
    destruct (findExecutable fs path) eqn:Ef; [apply IH, H |].
    destruct (negb (filepath.IsAbs path)) eqn:Ea; simpl in H.
    + destruct (isExecutable fs path) eqn:Ex; injection H as <- <-.
      * right. left. apply negb_true_iff in Ea. auto.
      * left. auto.
    + injection H as <- <-. left. auto.
Qed.

(** [LookPath], the shape of every result.  A nil error comes with a
    path that passes [findExecutable] (it exists, is no directory and
    has an execute bit), the name itself when it holds a slash.  Every
    error is an [Error] naming the file searched, with the message
    "exec: NAME: CAUSE".  For a name without slash the cause is [ErrDot]
    (then the path is returned too: it is relative and a regular
    executable file) or [ErrNotFound] with an empty path, never the
    error of a [Stat]; for a name with a slash the cause is the error of
    [findExecutable] and the path is empty. *)
Theorem LookPath_result_cases fs file p e :
  LookPath fs file = (p, e) ->
  (e = None /\ findExecutable fs p = None
   /\ (filepath.contains_slash file = true -> p = file))
  \/ (exists cause,
        e = Some (LookupError file cause)
        /\ Unwrap (LookupError file cause) = Some cause
        /\ (forall sigName errnoText,
              Error_text sigName errnoText (LookupError file cause)
              = ("exec: " ++ file ++ ": "
                 ++ Error_text sigName errnoText cause)%string)
        /\ (if filepath.contains_slash file
            then p = ""%string /\ findExecutable fs file = Some cause
            else (cause = ErrDot /\ findExecutable fs p = None
                  /\ filepath.IsAbs p = false /\ isExecutable fs p = true)
                 \/ (cause = ErrNotFound /\ p = ""%string))).
Proof.
  unfold LookPath. destruct (filepath.contains_slash file) eqn:Es.
  - destruct (findExecutable fs file) as [err |] eqn:Ef; intros [= <- <-].
    + right. exists err. repeat split; reflexivity || assumption.
    + left. auto.
  - intros H. apply LookPath_scan_cases in H.
    destruct H as [(-> & Hf) | [(-> & Hf & Ha & Hx) | (-> & ->)]].
    + left. repeat split; [assumption | discriminate].
    + right. exists ErrDot. repeat split; try reflexivity. left. auto.
    + right. exists ErrNotFound. repeat split; try reflexivity. right. auto.
Qed.

Lemma LookPath_result_cases_witness :
  LookPath pipe_in_cwd "x" = ("x"%string, None)
  /\ findExecutable pipe_in_cwd "x" = None.
Proof.
  destruct (LookPath_result_cases pipe_in_cwd "x" "x" None eq_refl)
    as [(_ & H & _) | (cause & He & _)]; [| discriminate He].
  split; [reflexivity | exact H].
Defined.

(* ================================================================== *)
(** * CombinedOutput                                                   *)
(* ================================================================== *)

Section CombinedFacts.




End CombinedFacts.



(* ================================================================== *)
(** * Output on the fallback build                                     *)
(* ================================================================== *)

Section FallbackFacts.

Lemma Other_Start_returns os c :
  Cmd.Args c <> [] -> exists c' r, Other.Start os c = Ret (c', r).
Proof.
  intros HA. unfold Other.Start.
  destruct (Cmd.lookPathErr c); [eexists _, _; reflexivity |].
  destruct (is_some (Cmd.Process c)); [eexists _, _; reflexivity |].
  destruct (Cmd.finished c); [eexists _, _; reflexivity |].
  destruct (Cmd.Args c) as [| a0 args] eqn:EA; [contradiction |].
  rewrite slice_from_ok by (unfold len; simpl; lia). cbn [bind].
  destruct (Cmd.ctx c); [destruct (Other.ctx_Err os) |];
    try (eexists _, _; reflexivity);
    destruct (Other.host_Start os (Cmd.Path c) _);
    eexists _, _; reflexivity.
Qed.

Lemma Other_Start_error_plain os c c' e :
  Other.Start os c = Ret (c', Some e) ->
  Cmd.lookPathErr c = Some e \/ not_exit e.
Proof.
  intros H. unfold Other.Start in H.
  destruct (Cmd.lookPathErr c); [injection H as _ <-; left; reflexivity |].
  right.
  destruct (is_some (Cmd.Process c));
    [injection H as _ <-; intros ee; discriminate |].
  destruct (Cmd.finished c); [injection H as _ <-; intros ee; discriminate |].
  destruct (Cmd.ctx c); [destruct (Other.ctx_Err os) |];
    try (injection H as _ <-; intros ee; discriminate).
  all: destruct (slice_from (Cmd.Args c) 1) as [args | |]; simpl in H;
    try discriminate.
  all: destruct (Other.host_Start os (Cmd.Path c) args); [| discriminate];
    injection H as _ <-; intros ee; discriminate.
Qed.

(** What the fallback [Wait] returns, and what it leaves. *)
Lemma Other_Wait_shape os c c' r :
  Other.Wait os c = (c', r) ->
  Cmd.Stdout c' = Cmd.Stdout c /\ Cmd.Stderr c' = Cmd.Stderr c
  /\ Cmd.Process c' = Cmd.Process c
  /\ (r = None
      \/ (exists e, r = Some e /\ not_exit e)
      \/ (exists state, r = Some (ExitErr (ExitError.mk state [])))).
Proof.
  intros H. unfold Other.Wait in H.
  destruct (Cmd.Process c) eqn:HP.
  2:{ injection H as <- <-. rewrite HP. repeat split.
      right; left. eexists; split; [reflexivity | intros ee; discriminate]. }
  destruct (Cmd.finished c).
  { injection H as <- <-. rewrite HP. repeat split.
    right; left. eexists; split; [reflexivity | intros ee; discriminate]. }
  destruct (Cmd.osCmd (Cmd.set_finished c true)).
  2:{ injection H as <- <-. destruct c; simpl in *. repeat split; try assumption.
      right; left. eexists; split; [reflexivity | intros ee; discriminate]. }
  destruct (Other.host_Wait os) as [[st |] | st | text [st |]];
    injection H as <- <-; destruct c; simpl in *; repeat split;
    try assumption;
    first [ left; reflexivity
          | right; right; eexists; reflexivity
          | right; left; eexists; split;
            [reflexivity | intros ee; discriminate] ].
Qed.

End FallbackFacts.

(** [Output] on the fallback build.  On a command not yet started that
    has arguments and neither [Stdout] nor [Stderr] set, [Output]
    returns; the bytes are what the host library copied from the
    child's stdout, none when the command did not start; and when the
    error is an exit failure, its [Stderr] is the rendering of the saver
    of capacity 32768 to which the host library copied the child's
    stderr. *)
Theorem Fallback_Output_captures
    (fuel : nat) (w : OtherWorld) (c : Cmd.t) (h : Heap) :
  (2 <= fuel)%nat -> fresh c -> Cmd.Args c <> [] ->
  Cmd.Stdout c = None -> Cmd.Stderr c = None ->
  exists st out err,
    Other_Output fuel w (c, h) = Ret (st, (out, err))
    /\ out = (if is_some (Cmd.Process (fst st))
              then List.concat (chunks (host_out w)) else [])
    /\ (forall ee, err = Some (ExitErr ee) ->
          exists s,
            Saver.Writes fuel (Saver.new 32768) (chunks (host_err w)) = Ret s
            /\ Saver.Bytes s = Ret (ExitError.Stderr ee)).
Proof.
  intros Hf (HP & Hg & Hl) HA Ho He.
  unfold Other_Output, Output. rewrite Ho. cbn [is_some].
  set (n := List.length h).
  assert (Cmd.Stderr (Cmd.set_Stdout c (Some (W_Obj n))) = None) as He1
    by (destruct c; exact He).
  rewrite He1. cbn [is_some negb].
  replace (List.length (h ++ [Buffer []])) with (S n)
    by (rewrite length_app; simpl; lia).
  rewrite <- app_assoc. cbn [app].
  set (c2 := Cmd.set_Stderr (Cmd.set_Stdout c (Some (W_Obj n)))
               (Some (W_Obj (S n)))).
  set (h2 := h ++ [Buffer []; SaverObj (Saver.new (Z.shiftl 32 10))]).
  assert (Cmd.Stdout c2 = Some (W_Obj n) /\ Cmd.Stderr c2 = Some (W_Obj (S n))
          /\ Cmd.Process c2 = None /\ Cmd.lookPathErr c2 = Cmd.lookPathErr c
          /\ Cmd.Args c2 = Cmd.Args c)
    as (Ho2 & He2 & HP2 & Hl2 & HA2)
    by (unfold c2; destruct c; simpl in *; repeat split; assumption).
  unfold Run, Other_Start.
  destruct (Other_Start_returns (host w) c2) as (c3 & r & ES);
    [rewrite HA2; exact HA |].
  rewrite ES. cbn [bind].
  pose proof (Other_Start_cases _ _ _ _ ES) as Hcases.
  destruct r as [e |].
  - (* the command did not start *)
    subst c3.
    assert (not_exit e) as Hne.
    { apply Other_Start_error_plain in ES. destruct ES as [ES | ES]; [| exact ES].
      intros ee ->. rewrite Hl2 in ES. exact (Hl _ ES). }
    cbn [bind]. rewrite (not_exit_as_ExitError e Hne). cbn [bind].
    unfold buffer_Bytes, h2, n. rewrite heap_nth_first. cbn [bind].
    eexists _, _, _. split; [reflexivity |]. cbn [fst].
    rewrite HP2. split; [reflexivity |].
    intros ee [= ->]. exfalso. exact (Hne ee eq_refl).
  - (* the command started *)
    destruct Hcases as (_ & _ & pid & Hc3).
    assert (Cmd.Process c3 = Some (Process.mk pid)
            /\ Cmd.Stdout c3 = Some (W_Obj n)
            /\ Cmd.Stderr c3 = Some (W_Obj (S n)))
      as (HP3 & Ho3 & He3)
      by (subst c3; destruct c2; simpl in *; repeat split; assumption).
    cbn [bind]. unfold Other_Wait, host_background. rewrite HP3.
    cbn [is_some].
    unfold copy_to at 1. rewrite Ho3. unfold h2, n.
    rewrite heap_nth_first, heap_set_first. cbn [bind app].
    rewrite He3. cbn [Writer_eqb]. unfold n.
    replace (S (List.length h) =? List.length h)%nat with false
      by (symmetry; apply Nat.eqb_neq; lia).
    assert (wf (Saver.new (Z.shiftl 32 10))) as Hwf0
      by (apply wf_new; cbv; discriminate).
    destruct (copy_to_saver_ok fuel (chunks (host_err w))
                (Saver.new (Z.shiftl 32 10)) Hf Hwf0)
      as (s' & Hc & HW & Hs').
    unfold copy_to. rewrite heap_nth_second, Hc. cbn [bind].
    rewrite heap_set_second.
    destruct (Other.Wait (host w) c3) as [c5 r] eqn:EW. cbn [bind].
    apply Other_Wait_shape in EW. destruct EW as (Ho5 & He5 & HP5 & Hr).
    destruct (Bytes_ok s' Hs') as (captured & Hcap).
    destruct Hr as [-> | [(e & -> & Hne) | (state & ->)]]; cbn [bind].
    + unfold buffer_Bytes. rewrite heap_nth_first. cbn [bind].
      eexists _, _, _. split; [reflexivity |]. cbn [fst].
      rewrite HP5, HP3. cbn [is_some].
      split; [reflexivity | discriminate].
    + rewrite (not_exit_as_ExitError e Hne). cbn [bind].
      unfold buffer_Bytes. rewrite heap_nth_first. cbn [bind].
      eexists _, _, _. split; [reflexivity |]. cbn [fst].
      rewrite HP5, HP3. cbn [is_some].
      split; [reflexivity |].
      intros ee [= ->]. exfalso. exact (Hne ee eq_refl).
    + cbn [as_ExitError]. unfold saver_Bytes. rewrite He5, He3.
      rewrite heap_nth_second, Hcap. cbn [bind].
      unfold buffer_Bytes. rewrite heap_nth_first. cbn [bind].
      eexists _, _, _. split; [reflexivity |]. cbn [fst].
      rewrite HP5, HP3. cbn [is_some].
      split; [reflexivity |].
      intros ee [= <-]. exists s'. split; [exact HW | exact Hcap].
Qed.

Lemma Fallback_Output_captures_witness :
  exists st out err,
    Other_Output 2 shell_host (shell_cmd, []) = Ret (st, (out, err))
    /\ out = (if is_some (Cmd.Process (fst st))
              then ["o"; "u"; "t"; "010"]%byte else [])
    /\ (forall ee, err = Some (ExitErr ee) ->
          exists s,
            Saver.Writes 2 (Saver.new 32768) [["e"; "r"]; ["r"; "010"]]%byte
            = Ret s
            /\ Saver.Bytes s = Ret (ExitError.Stderr ee)).
Proof.
  apply (Fallback_Output_captures 2 shell_host shell_cmd []).
  - lia.
  - split; [reflexivity |]. split; [reflexivity |]. intros ee. discriminate.
  - discriminate.
  - reflexivity.
  - reflexivity.
Defined.

(** [Start] on darwin, [ExtraFiles] and [Dir].  When [Start] returns
    nil, every non-nil entry [ExtraFiles[k]] has been set to become the
    descriptor [3 + k] of the child (a nil entry leaves its number out),
    and when [Dir] is not empty the change of directory was available
    and has been added for [Dir]. *)
Theorem Start_extra_files_and_dir os c c' :
  Darwin.Start os c = (c', None) ->
  (forall k f, nth_error (Cmd.ExtraFiles c) k = Some (Some f) ->
     Darwin.add_dup2_action os (Fd f) (3 + Z.of_nat k) = 0)
  /\ (Cmd.Dir c <> ""%string ->
      Darwin.has_chdir_np os = true
      /\ Darwin.add_chdir_action os (Cmd.Dir c) = 0).
Proof.
  intros H. apply Start_success in H.
  destruct H as (c1 & pid & Hs & _).
  apply Start_spawn_inr_actions in Hs. destruct Hs as (H1 & H2 & _).
  split; assumption.
Qed.

Lemma Start_extra_files_and_dir_witness :
  Darwin.add_dup2_action (spawn shell_world) 9 4 = 0
  /\ Darwin.has_chdir_np (spawn shell_world) = true
  /\ Darwin.add_chdir_action (spawn shell_world) "/tmp" = 0.
Proof.
  destruct (Start_extra_files_and_dir (spawn shell_world) extra_cmd
              (fst (Darwin.Start (spawn shell_world) extra_cmd)) eq_refl)
    as (H1 & H2).
  split; [exact (H1 1%nat {| file_id := 9; Fd := 9 |} eq_refl) |].
  apply H2. discriminate.
Defined.

(* ================================================================== *)
(** * The pipes through Start and Wait                                 *)
(* ================================================================== *)

Section PipeLifecycle.

Lemma setupStdin_file os c c' fd f :
  Cmd.Stdin c = Some (R_File f) ->
  Darwin.setupStdin os c = (c', inr fd) ->
  c' = c /\ Darwin.add_dup2_action os (Fd f) 0 = 0.
Proof.
  intros Hs H. unfold Darwin.setupStdin, bindM at 1, get in H. rewrite Hs in H.
  apply bindM_inr in H. destruct H as (c1 & u & Hc & H).
  apply guard_inr in Hc. destruct Hc as [-> Hr]. injection H as <- _.
  apply negb_false_iff, Z.eqb_eq in Hr. auto.
Qed.

Lemma setupStdout_file os c c' fd f :
  Cmd.Stdout c = Some (W_File f) ->
  Darwin.setupStdout os c = (c', inr fd) ->
  c' = c /\ Darwin.add_dup2_action os (Fd f) 1 = 0.
Proof.
  intros Hs H. unfold Darwin.setupStdout, bindM at 1, get in H. rewrite Hs in H.
  apply bindM_inr in H. destruct H as (c1 & u & Hc & H).
  apply guard_inr in Hc. destruct Hc as [-> Hr]. injection H as <- _.
  apply negb_false_iff, Z.eqb_eq in Hr. auto.
Qed.

Lemma setupStderr_file os c c' fd f g :
  Cmd.Stderr c = Some (W_File f) -> Cmd.Stdout c = Some (W_File g) ->
  file_id f <> file_id g ->
  Darwin.setupStderr os c = (c', inr fd) ->
  c' = c /\ Darwin.add_dup2_action os (Fd f) 2 = 0.
Proof.
  intros Hs Ho Hne H. unfold Darwin.setupStderr, bindM at 1, get in H.
  rewrite Hs, Ho in H. cbn [Writer_eqb] in H.
  apply Nat.eqb_neq in Hne. rewrite Hne in H.
  apply bindM_inr in H. destruct H as (c1 & u & Hc & H).
  apply guard_inr in Hc. destruct Hc as [-> Hr]. injection H as <- _.
  apply negb_false_iff, Z.eqb_eq in Hr. auto.
Qed.

End PipeLifecycle.

(** The three pipes through [Start] and [Wait] on darwin.  On a command
    whose streams are unset, take [StdinPipe], [StdoutPipe] and
    [StderrPipe].  When [Start] then returns nil, the child's
    descriptors 0, 1 and 2 are duplicates of the pipe ends kept for the
    child, no pipe of [Start]'s own and no copy task has been added,
    [childIOFiles] is emptied and the three ends handed to the caller
    stay in [parentIOPipes].  When the reap then succeeds, [Wait]
    empties [parentIOPipes] and returns nil or an exit failure; when the
    reap fails they stay. *)
Theorem Pipes_through_Start_and_Wait
    os wait4 (c c1 c2 c3 c4 : Cmd.t) (pr0 pw0 pr1 pw1 pr2 pw2 : File) :
  Cmd.Process c = None -> Cmd.goroutine c = [] ->
  Cmd.Stdin c = None -> Cmd.Stdout c = None -> Cmd.Stderr c = None ->
  Cmd.stdinPipeUsed c = false -> Cmd.stdoutPipeUsed c = false ->
  Cmd.stderrPipeUsed c = false ->
  file_id pw2 <> file_id pw1 ->
  StdinPipe (inr (pr0, pw0)) c = (c1, inr pw0) ->
  StdoutPipe (inr (pr1, pw1)) c1 = (c2, inr pr1) ->
  StderrPipe (inr (pr2, pw2)) c2 = (c3, inr pr2) ->
  Darwin.Start os c3 = (c4, None) ->
  Darwin.add_dup2_action os (Fd pr0) 0 = 0
  /\ Darwin.add_dup2_action os (Fd pw1) 1 = 0
  /\ Darwin.add_dup2_action os (Fd pw2) 2 = 0
  /\ Cmd.goroutine c4 = [] /\ Cmd.childIOFiles c4 = []
  /\ Cmd.parentIOPipes c4 = Cmd.parentIOPipes c ++ [pw0; pr1; pr2]
  /\ exists c5 r,
       Darwin.Wait wait4 c4 = (c5, r)
       /\ match r with
          | None => Cmd.parentIOPipes c5 = []
          | Some (ExitErr ee) =>
              Cmd.parentIOPipes c5 = [] /\ ExitError.Stderr ee = []
          | Some _ => Cmd.parentIOPipes c5 = Cmd.parentIOPipes c4
          end.
Proof.
  intros HP Hg Hi Ho He Fi Fo Fe Hne E1 E2 E3 HS.
  (* the three pipes *)
  destruct (StdinPipe_taken c pr0 pw0 Hi HP Fi)
    as (c1' & E1' & Hi1 & Hc1 & Hp1 & Hg1 & _).
  rewrite E1 in E1'. injection E1' as <-.
  assert (Cmd.Stdout c1 = None /\ Cmd.Stderr c1 = None /\ Cmd.Process c1 = None
          /\ Cmd.stdoutPipeUsed c1 = false /\ Cmd.stderrPipeUsed c1 = false)
    as (Ho1 & He1 & HP1 & Fo1 & Fe1).
  { unfold StdinPipe in E1. cbv [bindM get guard modify ret fail] in E1.
    rewrite Hi, HP, Fi in E1. cbn [is_some] in E1. injection E1 as <-.
    destruct c; cbn in *. auto. }
  destruct (StdoutPipe_taken c1 pr1 pw1 Ho1 HP1 Fo1)
    as (c2' & E2' & Ho2 & Hc2 & Hp2 & Hg2 & _).
  rewrite E2 in E2'. injection E2' as <-.
  assert (Cmd.Stdin c2 = Some (R_File pr0) /\ Cmd.Stderr c2 = None
          /\ Cmd.Process c2 = None /\ Cmd.stderrPipeUsed c2 = false)
    as (Hi2 & He2 & HP2 & Fe2).
  { unfold StdoutPipe in E2. cbv [bindM get guard modify ret fail] in E2.
    rewrite Ho1, HP1, Fo1 in E2. cbn [is_some] in E2. injection E2 as <-.
    destruct c1; cbn in *. auto. }
  destruct (StderrPipe_taken c2 pr2 pw2 He2 HP2 Fe2)
    as (c3' & E3' & He3 & Ho3 & Hc3 & Hp3 & Hg3 & _).
  rewrite E3 in E3'. injection E3' as <-.
  assert (Cmd.Stdin c3 = Some (R_File pr0)) as Hi3.
  { unfold StderrPipe in E3. cbv [bindM get guard modify ret fail] in E3.
    rewrite He2, HP2, Fe2 in E3. cbn [is_some] in E3. injection E3 as <-.
    destruct c2; cbn in *. auto. }
  rewrite Ho2 in Ho3.
  (* Start *)
  destruct (Start_success _ _ _ HS) as (cs & pid & Hs & _ & ->).
  apply Start_spawn_inr in Hs.
  destruct Hs as (cin & cout & fd0 & fd1 & fd2 & Hin & Hout & Herr & _).
  apply (setupStdin_file _ _ _ _ _ Hi3) in Hin. destruct Hin as (-> & D0).
  apply (setupStdout_file _ _ _ _ _ Ho3) in Hout. destruct Hout as (-> & D1).
  apply (setupStderr_file _ _ _ _ _ _ He3 Ho3 Hne) in Herr.
  destruct Herr as (-> & D2).
  split; [exact D0 |]. split; [exact D1 |]. split; [exact D2 |].
  assert (Cmd.goroutine c3 = []) as Hg4 by congruence.
  assert (Cmd.parentIOPipes c3 = Cmd.parentIOPipes c ++ [pw0; pr1; pr2])
    as Hp4.
  { rewrite Hp3, Hp2, Hp1, <- !app_assoc. reflexivity. }
  split; [destruct c3; exact Hg4 |]. split; [destruct c3; reflexivity |].
  split; [destruct c3; exact Hp4 |].
  (* Wait *)
  unfold Darwin.Wait.
  replace (Cmd.Process
             (Cmd.set_goroutineErr
                (Cmd.set_Process (Cmd.set_childIOFiles c3 [])
                   (Some (Process.mk pid)))
                (map (fun _ => None) (Cmd.goroutine c3))))
    with (Some (Process.mk pid)) by (destruct c3; reflexivity).
  destruct (Cmd.finished _) eqn:Efin.
  { eexists _, _. split; [reflexivity |]. reflexivity. }
  destruct (Process.Wait wait4 (Process.mk pid)) as [p' [er | state]] eqn:EW.
  { eexists _, _. split; [reflexivity |].
    assert (forall ee, er <> ExitErr ee) as Hner.
    { unfold Process.Wait in EW. destruct (Process.Pid (Process.mk pid) <=? 0).
      - inversion EW; subst. discriminate.
      - destruct (wait4 _); inversion EW; subst; discriminate. }
    destruct er; try (destruct c3; reflexivity).
    exfalso. eapply Hner. reflexivity. }
  rewrite Hg4. cbn [map].
  replace (first_error _) with (@None error) by (destruct c3; reflexivity).
  destruct (negb (ProcessState.Success state));
    eexists _, _; (split; [reflexivity |]); destruct c3; cbn; auto.
Qed.

Lemma Pipes_through_Start_and_Wait_witness :
  let f (n : Z) := {| file_id := Z.to_nat n; Fd := n |} in
  let c := Command shell_fs "sh" [] in
  let c1 := fst (StdinPipe (inr (f 5, f 6)) c) in
  let c2 := fst (StdoutPipe (inr (f 7, f 8)) c1) in
  let c3 := fst (StderrPipe (inr (f 9, f 10)) c2) in
  let c4 := fst (Darwin.Start (spawn shell_world) c3) in
  Cmd.goroutine c4 = [] /\ Cmd.childIOFiles c4 = []
  /\ Cmd.parentIOPipes c4 = [f 6; f 7; f 9].
Proof.
  intros f c c1 c2 c3 c4.
  destruct (Pipes_through_Start_and_Wait (spawn shell_world) (reap_exit 0)
              c c1 c2 c3 c4 (f 5) (f 6) (f 7) (f 8) (f 9) (f 10))
    as (_ & _ & _ & H1 & H2 & H3 & _);
    try reflexivity.
  - discriminate.
  - split; [exact H1 |]. split; [exact H2 | exact H3].
Defined.

(* ================================================================== *)
(** * Process: a released handle, a failed reap                        *)
(* ================================================================== *)

(** [Release], then the handle.  After [Release], which returns nil,
    [Signal], [Kill] and [Wait] on the handle fail with [os.ErrInvalid]
    whatever the system would answer, and so does [Wait] of the command
    that holds the handle: it ends the command without a
    [ProcessState]. *)
Theorem Release_makes_handle_invalid
    (p : Process.t) kill wait4 (sig : os_Signal) (c : Cmd.t) :
  snd (Process.Release p) = None
  /\ Process.Signal kill (fst (Process.Release p)) sig = Some ErrInvalid
  /\ Process.Kill kill (fst (Process.Release p)) = Some ErrInvalid
  /\ Process.Wait wait4 (fst (Process.Release p))
     = (fst (Process.Release p), inl ErrInvalid)
  /\ (Cmd.Process c = Some (fst (Process.Release p)) ->
      Cmd.finished c = false ->
      exists c',
        Darwin.Wait wait4 c = (c', Some ErrInvalid)
        /\ Cmd.finished c' = true
        /\ Cmd.ProcessState c' = Cmd.ProcessState c).
Proof.
  split; [reflexivity |]. split; [reflexivity |]. split; [reflexivity |].
  split; [reflexivity |].
  intros HP Hf. unfold Darwin.Wait. rewrite HP, Hf. cbn.
  eexists. split; [reflexivity |]. destruct c; split; reflexivity.
Qed.

(** A reap that fails is final.  When [wait4] fails in [Wait] of a
    started command (an interrupted call included), [Wait] returns the
    errno with the command marked as waited for: no [ProcessState] is
    stored, [parentIOPipes] is left as it is, and every later [Wait] is
    refused with "Wait was already called" without another [wait4]. *)
Theorem Wait_failed_reap_is_final wait4 wait4' (c : Cmd.t) (p : Process.t) errno :
  Cmd.Process c = Some p -> Cmd.finished c = false ->
  0 < Process.Pid p -> wait4 (Process.Pid p) = wait4_err errno ->
  exists c',
    Darwin.Wait wait4 c = (c', Some (Errno errno))
    /\ Cmd.ProcessState c' = Cmd.ProcessState c
    /\ Cmd.parentIOPipes c' = Cmd.parentIOPipes c
    /\ Cmd.Process c' = Some p
    /\ Darwin.Wait wait4' c' = (c', Some (New "exec: Wait was already called")).
Proof.
  intros HP Hf Hpid Hw. unfold Darwin.Wait at 1. rewrite HP, Hf.
  unfold Process.Wait.
  replace (Process.Pid p <=? 0) with false
    by (symmetry; apply Z.leb_gt; exact Hpid).
  rewrite Hw. eexists. split; [reflexivity |].
  destruct c; cbn in *. repeat split; try assumption.
Qed.

Lemma Wait_failed_reap_is_final_witness :
  exists c',
    Darwin.Wait (fun _ => wait4_err 4)
      (Cmd.set_parentIOPipes started77 [{| file_id := 6; Fd := 6 |}])
    = (c', Some (Errno 4))
    /\ Cmd.parentIOPipes c' = [{| file_id := 6; Fd := 6 |}]
    /\ Darwin.Wait (reap_exit 0) c'
       = (c', Some (New "exec: Wait was already called")).
Proof.
  destruct (Wait_failed_reap_is_final (fun _ => wait4_err 4) (reap_exit 0)
              (Cmd.set_parentIOPipes started77 [{| file_id := 6; Fd := 6 |}])
              (Process.mk 77) 4 eq_refl eq_refl ltac:(simpl; lia) eq_refl)
    as (c' & E & _ & Hp & _ & Hagain).
  exists c'. split; [exact E |]. split; [exact Hp | exact Hagain].
Defined.

(* ================================================================== *)
(** * Start: the errors it returns                                     *)
(* ================================================================== *)

Section StartErrors.

Lemma fi_ret {A} P (a : A) : fails_in P (ret a).
Proof. intros c c' e H. discriminate. Qed.

Lemma fi_fail {A} (P : error -> Prop) e : P e -> fails_in P (@fail A e).
Proof. intros He c c' e' [= _ <-]. exact He. Qed.

Lemma fi_guard (P : error -> Prop) b e : (b = true -> P e) -> fails_in P (guard b e).
Proof.
  intros He. destruct b; [apply fi_fail, He; reflexivity | apply fi_ret].
Qed.

Lemma fi_check P r : (forall e, errno_error e -> P e) -> fails_in P (check r).
Proof.
  intros HP. apply fi_guard. intros Hr. apply HP. exists r.
  split; [reflexivity |]. apply negb_true_iff, Z.eqb_neq in Hr. exact Hr.
Qed.

Lemma fi_modify P f : fails_in P (modify f).
Proof. intros c c' e H. discriminate. Qed.

Lemma fi_bind {A B} P (m : M A) (k : A -> M B) :
  fails_in P m -> (forall a, fails_in P (k a)) -> fails_in P (bindM m k).
Proof.
  intros Hm Hk c c' e H. apply bindM_inl in H.
  destruct H as [H | (c1 & a & _ & H)]; [eapply Hm, H | eapply Hk, H].
Qed.

Lemma fi_wrapped {A} (P Q : error -> Prop) (m : M A) :
  fails_in P m ->
  (forall inner, P inner -> Q (wrappedError "exec: " inner)) ->
  fails_in Q (Darwin.wrapped m).
Proof.
  intros Hm HQ c c' e H. unfold Darwin.wrapped in H.
  destruct (m c) as [c1 [e1 | a]] eqn:E; [| discriminate].
  injection H as _ <-. apply HQ. eapply Hm, E.
Qed.

Lemma fi_setupExtraFiles P os files :
  (forall e, errno_error e -> P e) ->
  forall i, fails_in P (Darwin.setupExtraFiles os i files).
Proof.
  intros HP. induction files as [| [f |] files IH]; intros i; simpl.
  - apply fi_ret.
  - apply fi_bind; [apply fi_check, HP | intros _; apply IH].
  - apply IH.
Qed.

Lemma fi_get_bind {B} P (k : Cmd.t -> M B) :
  (forall a, fails_in P (k a)) -> fails_in P (bindM get k).
Proof. intros Hk c c' e H. eapply Hk, H. Qed.

Ltac fi_step :=
  lazymatch goal with
  | |- fails_in _ (bindM get _) => apply fi_get_bind; intros ?; cbv beta
  | |- fails_in _ (bindM _ _) => apply fi_bind; [| intros ?; cbv beta]
  | |- fails_in _ (ret _) => apply fi_ret
  | |- fails_in _ (modify _) => apply fi_modify
  | |- fails_in _ (match ?x with _ => _ end) => destruct x
  end.

Lemma setup_errno e : errno_error e -> setup_error e.
Proof. intros H. left. exact H. Qed.

Ltac fi_setup :=
  repeat first
    [ apply fi_check, setup_errno
    | apply fi_fail; right; eexists; reflexivity
    | fi_step ].

Lemma fi_setupStdin os : fails_in setup_error (Darwin.setupStdin os).
Proof. unfold Darwin.setupStdin. fi_setup. Qed.

Lemma fi_setupStdout os : fails_in setup_error (Darwin.setupStdout os).
Proof. unfold Darwin.setupStdout. fi_setup. Qed.

Lemma fi_setupStderr os : fails_in setup_error (Darwin.setupStderr os).
Proof. unfold Darwin.setupStderr. fi_setup. Qed.

Ltac fi_start :=
  repeat first
    [ apply fi_check; intros ? ?; apply SE_errno; assumption
    | apply fi_setupExtraFiles; intros ? ?; apply SE_errno; assumption
    | eapply fi_wrapped;
      [ first [apply fi_setupStdin | apply fi_setupStdout | apply fi_setupStderr]
      | intros ? ?; apply SE_stream; assumption ]
    | apply fi_guard; intros ?; apply SE_chdir
    | fi_step ].

(** Every error of [Start] is of one of the kinds of [StartError]. *)
Lemma Start_spawn_errors os c c' e :
  Darwin.Start_spawn os c = (c', inl e) -> StartError os c e.
Proof.
  intros H. unfold Darwin.Start_spawn, bindM at 1, get in H.
  destruct (Cmd.lookPathErr c) as [e0 |] eqn:El.
  { injection H as _ <-. apply SE_lookup. exact El. }
  apply bindM_inl in H. destruct H as [H | (c0 & u & Hg & H)].
  { apply guard_inl in H. subst e. apply SE_started. }
  apply guard_inr in Hg. destruct Hg as [-> _].
  apply bindM_inl in H. destruct H as [H | (c0 & u' & Hg & H)].
  { apply guard_inl in H. subst e. apply SE_finished. }
  apply guard_inr in Hg. destruct Hg as [-> _].
  destruct (Cmd.ctx c);
    [destruct (Darwin.ctx_Err os) eqn:Ec;
       [injection H as _ <-; apply SE_context; exact Ec |] |];
    refine ((_ : fails_in (StartError os c) _) c c' e H);
    fi_start;
    apply fi_guard; intros Hr; apply SE_spawn;
    apply negb_true_iff, Z.eqb_neq in Hr; exact Hr.
Qed.

End StartErrors.

(** [Start] on darwin, the errors.  Every error [Start] returns is: the
    stored lookup failure; "exec: already started"; "exec: already
    finished"; the error of the context; the return code of a failed C
    helper (file actions, an extra file, the directory, the attributes)
    as a bare errno; for a stream that could not be set up, the errno or
    the error of [os.Pipe] wrapped with the prefix "exec: "; "exec:
    setting Dir requires macOS 10.15+"; or, when [posix_spawn] fails,
    an [Error] naming [Path] with the errno.  It is never an exit
    failure unless one was stored, and whatever the error, [Process]
    and [finished] are as before. *)
Theorem Start_errors os c c' e :
  Darwin.Start os c = (c', Some e) ->
  StartError os c e
  /\ Cmd.Process c' = Cmd.Process c /\ Cmd.finished c' = Cmd.finished c.
Proof.
  intros H. apply Start_failure in H. destruct H as (Hs & Hframe).
  split; [eapply Start_spawn_errors, Hs |].
  apply io_frame_fields in Hframe.
  destruct Hframe as (HP & _ & Hf & _). auto.
Qed.

Lemma Start_errors_witness :
  StartError enoent_spawn literal_cmd (LookupError "/no/such" (Errno 2))
  /\ Cmd.Process (fst (Darwin.Start enoent_spawn literal_cmd)) = None.
Proof.
  destruct (Start_errors enoent_spawn literal_cmd
              (fst (Darwin.Start enoent_spawn literal_cmd))
              (LookupError "/no/such" (Errno 2)) eq_refl) as (H1 & H2 & _).
  split; [exact H1 | exact H2].
Defined.

(* ================================================================== *)
(** * prefixSuffixSaver: the counter is a lower bound                  *)
(* ================================================================== *)

Section SaverCounter.
Import Saver.

(** The loop over the ring never touches [skipped]. *)
Lemma Write_loop_skipped fuel : forall w p w',
  Write_loop fuel w p = Ret w' -> skipped w' = skipped w.
Proof.
  induction fuel as [| fuel IH]; intros w p w' H; simpl in H.
  - destruct (len p >? 0); [discriminate | injection H as <-; reflexivity].
  - destruct (len p >? 0); [| injection H as <-; reflexivity].
    destruct (copy_at (suffix w) (suffixOff w) p) as [[suf n] | |];
      cbn [bind] in H; try discriminate.
    destruct (slice_from p n) as [p' | |]; cbn [bind] in H; try discriminate.
    apply IH in H. rewrite H.
    destruct (suffixOff w + n =? N w); reflexivity.
Qed.

(** What one [Write] adds to [skipped]: the overage, and nothing for the
    bytes overwritten in the ring. *)
Lemma Write_skipped fuel n w all p w' r :
  0 < n -> retains n w all ->
  Write fuel w p = Ret (w', r) ->
  let k := Z.min (len p) (n - Z.min n (len all)) in
  skipped w' = (if len p - k - n >? 0
                then wrap64 (skipped w + (len p - k - n)) else skipped w).
Proof.
  intros Hn (HN & Hpre & Hv & Ho & Hz) H k.
  pose proof (len_nonneg p) as Hp0. pose proof (len_nonneg all) as Ha0.
  assert (len (prefix w) = Z.min n (len all)) as Hlp
    by (rewrite Hpre; apply len_firstn; lia).
  assert (len (suffix w) <= n) as Hls.
  { rewrite <- len_ring_view, Hv, HN, len_lastn by lia. lia. }
  unfold Write in H. rewrite fill_ok in H by lia. cbn [bind] in H.
  rewrite HN, Hlp in H. fold k in H.
  set (p1 := skipn (Z.to_nat k) p) in *.
  assert (len p1 = len p - k) as Hp1
    by (unfold p1; rewrite len_skipn by lia; lia).
  cbn [N skipped set_prefix] in H. rewrite HN, Hp1 in H.
  destruct (len p - k - n >? 0) eqn:E.
  - apply Z.gtb_lt in E. rewrite slice_from_ok in H by lia. cbn [bind] in H.
    rewrite fill_ok in H by (cbn [N suffix set_prefix set_skipped]; lia).
    cbn [bind] in H.
    destruct (Write_loop fuel _ _) as [w4 | |] eqn:EL; cbn [bind] in H;
      try discriminate.
    injection H as <- _. apply Write_loop_skipped in EL. rewrite EL.
    reflexivity.
  - cbn [bind] in H.
    rewrite fill_ok in H by (cbn [N suffix set_prefix]; lia).
    cbn [bind] in H.
    destruct (Write_loop fuel _ _) as [w4 | |] eqn:EL; cbn [bind] in H;
      try discriminate.
    injection H as <- _. apply Write_loop_skipped in EL. rewrite EL.
    reflexivity.
Qed.

Lemma Write_counted fuel n w all p :
  (2 <= fuel)%nat -> 0 < n -> retains n w all ->
  0 <= skipped w <= Z.max 0 (len all - 2 * n) ->
  len all + len p < 9223372036854775808 ->
  exists w',
    Write fuel w p = Ret (w', (len p, None))
    /\ retains n w' (all ++ p)
    /\ 0 <= skipped w' <= Z.max 0 (len (all ++ p) - 2 * n).
Proof.
  intros Hf Hn Hw Hsk Hmax.
  pose proof (len_nonneg p) as Hp0. pose proof (len_nonneg all) as Ha0.
  destruct (Write_retains fuel n w all p Hf Hn Hw) as (w' & HW & Hw').
  exists w'. split; [exact HW |]. split; [exact Hw' |].
  pose proof (Write_skipped fuel n w all p w' _ Hn Hw HW) as Hs.
  cbv zeta in Hs. rewrite Hs, len_app.
  set (k := Z.min (len p) (n - Z.min n (len all))).
  destruct (len p - k - n >? 0) eqn:E.
  - apply Z.gtb_lt in E. rewrite wrap64_id by lia. lia.
  - lia.
Qed.

Lemma Writes_counted fuel n ps : forall w all,
  (2 <= fuel)%nat -> 0 < n -> retains n w all ->
  0 <= skipped w <= Z.max 0 (len all - 2 * n) ->
  len all + len (List.concat ps) < 9223372036854775808 ->
  exists w',
    Writes fuel w ps = Ret w'
    /\ 0 <= skipped w' <= Z.max 0 (len (all ++ List.concat ps) - 2 * n).
Proof.
  induction ps as [| p ps IH]; intros w all Hf Hn Hw Hsk Hmax;
    cbn [Writes List.concat] in *.
  - exists w. rewrite app_nil_r. split; [reflexivity | assumption].
  - rewrite len_app in Hmax. pose proof (len_nonneg (List.concat ps)).
    destruct (Write_counted fuel n w all p Hf Hn Hw Hsk) as (w1 & -> & Hw1 & Hs1);
      [lia |].
    cbn [bind]. rewrite app_assoc. apply IH; try assumption.
    rewrite len_app. lia.
Qed.

End SaverCounter.

(** [prefixSuffixSaver], the counter.  After any sequence of writes to a
    saver of capacity [n > 0], [skipped] is not negative and never
    exceeds the number of bytes that are in neither the first [n] nor
    the last [n] written: bytes are left out of the count (those
    overwritten in the ring), none is counted that was kept.  So the
    marker of [Bytes], shown when [skipped] is not 0, is shown only when
    bytes were dropped. *)
Theorem Saver_skipped_never_overcounts n fuel ps :
  0 < n -> (2 <= fuel)%nat ->
  len (List.concat ps) < 9223372036854775808 ->
  exists w,
    Saver.Writes fuel (Saver.new n) ps = Ret w
    /\ 0 <= Saver.skipped w <= spec_dropped n (List.concat ps)
    /\ (Saver.skipped w <> 0 -> 0 < spec_dropped n (List.concat ps)).
Proof.
  intros Hn Hf Hmax.
  destruct (Writes_counted fuel n ps (Saver.new n) [] Hf Hn (retains_new n Hn))
    as (w & HW & Hs).
  - cbn. lia.
  - cbn. exact Hmax.
  - exists w. split; [exact HW |]. cbn [app] in Hs. unfold spec_dropped.
    split; [exact Hs | lia].
Qed.

Lemma Saver_skipped_never_overcounts_witness :
  exists w,
    Saver.Writes 2 (Saver.new 2) five_bytes = Ret w
    /\ 0 <= Saver.skipped w <= 1.
Proof.
  destruct (Saver_skipped_never_overcounts 2 2 five_bytes)
    as (w & HW & Hs & _); [lia | lia | cbn; lia |].
  exists w. split; [exact HW | exact Hs].
Defined.
